(** * InnoVtolDynamicsSim: the VTOL flight-dynamics core, embedded and verified

    A shallow embedding of [vtolDynamicsSim.cpp] (class [InnoVtolDynamicsSim]):
    the actuator mixers, the actuator lag, the aerodynamics model, the
    thruster, the rigid-body integrator with its ground contact, and the
    calibration procedure.

    Modelling conventions.
    - A C++ [double] is a real number ([R]); rounding, infinities and NaN are
      not modelled.  In Rocq [x / 0 = 0]; every theorem whose conclusion
      depends on a quotient carries the hypothesis that the divisor is not
      zero.
    - [std::vector<double>] and [Eigen::VectorXd] are [list R], read with the
      total lookup [l !!! i] and written with [<[i:=v]> l].  The source reads
      and writes them unchecked; a theorem that depends on an access states
      the length that makes the access defined.
    - The member [state_] is a record that every mutating method takes and
      returns; reference parameters are returned next to it.
    - [abs] applied to a [double] is the absolute value of the real number.
    - Local vectors that the source declares without initialising them
      ([thrust], [torque], [polynomialCoeffs]) are extra arguments holding
      their unspecified first contents. *)

From Stdlib Require Import Reals Lra Lia ZArith.
From stdpp Require Import base list strings pretty.
From coqutil Require Import Datatypes.RecordSetters.
Import TriangleBracketNotations.

#[local] Open Scope R_scope.

#[global] Instance R_inhabited : Inhabited R := populate 0.

(** Comparisons of reals are decided, as the tests of the source are. *)
#[global] Instance Rlt_decision (x y : R) : Decision (x < y) := Rlt_dec x y.
#[global] Instance Rgt_decision (x y : R) : Decision (x > y) := Rgt_dec x y.
#[global] Instance Rle_decision (x y : R) : Decision (x <= y) := Rle_dec x y.
#[global] Instance Rge_decision (x y : R) : Decision (x >= y) := Rge_dec x y.

(** ** Scalar helpers *)

(** [boost::algorithm::clamp(val, lo, hi)]:
    [(val < lo) ? lo : (hi < val) ? hi : val]. *)
Definition clamp (val lo hi : R) : R :=
  if Rlt_dec val lo then lo else if Rlt_dec hi val then hi else val.

(** [pow(base, y)] of [<cmath>] for a positive base. *)
Module cmath.
Definition pow (base y : R) : R := Rpower base y.
End cmath.

(** Conversion of a [double] to [int]: the fractional part is discarded. *)
Definition trunc (r : R) : R :=
  if Rle_dec 0 r then IZR (Int_part r) else - IZR (Int_part (- r)).

(** A counted loop [for (idx = lo; idx < hi; idx++) body] over a state. *)
Definition for_range {A : Type} (lo hi : nat) (body : nat → A → A) (init : A) : A :=
  foldl (λ acc idx, body idx acc) init (seq lo (hi - lo)).

(** ** Eigen: fixed-size vectors, quaternions and 3x3 matrices *)

Record Vector3d := V3 { v0 : R; v1 : R; v2 : R }.

#[global] Instance Vector3d_inhabited : Inhabited Vector3d := populate (V3 0 0 0).

Definition vzero : Vector3d := V3 0 0 0.
Definition vadd (a b : Vector3d) : Vector3d :=
  V3 (v0 a + v0 b) (v1 a + v1 b) (v2 a + v2 b).
Definition vsub (a b : Vector3d) : Vector3d :=
  V3 (v0 a - v0 b) (v1 a - v1 b) (v2 a - v2 b).
Definition vscale (a : Vector3d) (k : R) : Vector3d :=
  V3 (v0 a * k) (v1 a * k) (v2 a * k).
Definition vdiv (a : Vector3d) (k : R) : Vector3d :=
  V3 (v0 a / k) (v1 a / k) (v2 a / k).
Definition cross (a b : Vector3d) : Vector3d :=
  V3 (v1 a * v2 b - v2 a * v1 b)
     (v2 a * v0 b - v0 a * v2 b)
     (v0 a * v1 b - v1 a * v0 b).
Definition vsquaredNorm (a : Vector3d) : R := v0 a * v0 a + v1 a * v1 a + v2 a * v2 a.
Definition vnorm (a : Vector3d) : R := sqrt (vsquaredNorm a).

(** [normalized()]: the vector is returned as it is when its squared norm is
    not positive. *)
Definition normalized (a : Vector3d) : Vector3d :=
  if Rlt_dec 0 (vsquaredNorm a) then vdiv a (sqrt (vsquaredNorm a)) else a.

(** [v[2] = k]. *)
Definition vset2 (a : Vector3d) (k : R) : Vector3d := V3 (v0 a) (v1 a) k.

(** [Eigen::Quaterniond(w, x, y, z)]. *)
Record Quaterniond := Quat { qw : R; qx : R; qy : R; qz : R }.

Definition qmul (a b : Quaterniond) : Quaterniond :=
  Quat (qw a * qw b - qx a * qx b - qy a * qy b - qz a * qz b)
       (qw a * qx b + qx a * qw b + qy a * qz b - qz a * qy b)
       (qw a * qy b + qy a * qw b + qz a * qx b - qx a * qz b)
       (qw a * qz b + qz a * qw b + qx a * qy b - qy a * qx b).

(** [a.coeffs() += b.coeffs() * k1 * k2]. *)
Definition qaddscaled (a b : Quaterniond) (k1 k2 : R) : Quaterniond :=
  Quat (qw a + qw b * k1 * k2) (qx a + qx b * k1 * k2)
       (qy a + qy b * k1 * k2) (qz a + qz b * k1 * k2).

Definition qsquaredNorm (q : Quaterniond) : R :=
  qw q * qw q + qx q * qx q + qy q * qy q + qz q * qz q.
Definition qnorm (q : Quaterniond) : R := sqrt (qsquaredNorm q).

(** [q.normalize()]: the coefficients are divided by the norm when the squared
    norm is positive, and left alone otherwise. *)
Definition qnormalize (q : Quaterniond) : Quaterniond :=
  if Rlt_dec 0 (qsquaredNorm q)
  then Quat (qw q / sqrt (qsquaredNorm q)) (qx q / sqrt (qsquaredNorm q))
            (qy q / sqrt (qsquaredNorm q)) (qz q / sqrt (qsquaredNorm q))
  else q.

(** A 3x3 matrix, row by row. *)
Record Matrix3d := M3 {
  m00 : R; m01 : R; m02 : R;
  m10 : R; m11 : R; m12 : R;
  m20 : R; m21 : R; m22 : R }.

Definition transpose (m : Matrix3d) : Matrix3d :=
  M3 (m00 m) (m10 m) (m20 m)
     (m01 m) (m11 m) (m21 m)
     (m02 m) (m12 m) (m22 m).

Definition mulv (m : Matrix3d) (v : Vector3d) : Vector3d :=
  V3 (m00 m * v0 v + m01 m * v1 v + m02 m * v2 v)
     (m10 m * v0 v + m11 m * v1 v + m12 m * v2 v)
     (m20 m * v0 v + m21 m * v1 v + m22 m * v2 v).

Definition determinant (m : Matrix3d) : R :=
  m00 m * (m11 m * m22 m - m12 m * m21 m)
  - m01 m * (m10 m * m22 m - m12 m * m20 m)
  + m02 m * (m10 m * m21 m - m11 m * m20 m).

(** [m.inverse()] of a 3x3 matrix: the transposed cofactors over the
    determinant. *)
Definition inverse (m : Matrix3d) : Matrix3d :=
  let d := determinant m in
  M3 ((m11 m * m22 m - m12 m * m21 m) / d)
     ((m02 m * m21 m - m01 m * m22 m) / d)
     ((m01 m * m12 m - m02 m * m11 m) / d)
     ((m12 m * m20 m - m10 m * m22 m) / d)
     ((m00 m * m22 m - m02 m * m20 m) / d)
     ((m02 m * m10 m - m00 m * m12 m) / d)
     ((m10 m * m21 m - m11 m * m20 m) / d)
     ((m01 m * m20 m - m00 m * m21 m) / d)
     ((m00 m * m11 m - m01 m * m10 m) / d).

(** [q.toRotationMatrix()]. *)
Definition toRotationMatrix (q : Quaterniond) : Matrix3d :=
  let tx := 2 * qx q in
  let ty := 2 * qy q in
  let tz := 2 * qz q in
  let twx := tx * qw q in
  let twy := ty * qw q in
  let twz := tz * qw q in
  let txx := tx * qx q in
  let txy := ty * qx q in
  let txz := tz * qx q in
  let tyy := ty * qy q in
  let tyz := tz * qy q in
  let tzz := tz * qz q in
  M3 (1 - (tyy + tzz)) (txy - twz) (txz + twy)
     (txy + twz) (1 - (txx + tzz)) (tyz - twx)
     (txz - twy) (tyz + twx) (1 - (txx + tyy)).

(** ** Eigen: dynamically sized matrices

    [Eigen::MatrixXd] with its dimensions and its coefficient access
    [m(i, j)]; the source never checks an index against the dimensions. *)
Record MatrixXd := MatX { rows : nat; cols : nat; coeff : nat → nat → R }.

(** Unary minus on a matrix, as in [-tables_.actuator]. *)
Definition mneg (m : MatrixXd) : MatrixXd :=
  MatX (rows m) (cols m) (λ i j, - coeff m i j).

(** [m(i)]: access by one index, which runs down the columns; in a column
    vector it is the row, in a row vector the column. *)
Definition coeff1 (m : MatrixXd) (i : nat) : R :=
  coeff m (i mod rows m) (i / rows m).

(** A matrix from its rows, for concrete tables. *)
Definition matrix_of_rows (l : list (list R)) : MatrixXd :=
  MatX (length l) (length (l !!! 0%nat)) (λ i j, (l !!! i) !!! j).

(** ** The helpers of [common_math] *)

Module Math.

(** Modelled from the spec: [Math::lerp] is declared in [common_math.hpp],
    which is not among the sources at hand; the spec has the thruster and the
    polynomial tables interpolate linearly between the two bracketing rows,
    and the unit tests of [calculatePolynomial] expect [0.5] between [0] and
    [1] and [1.5] between [1] and [2] at the fraction [0.5]. *)
Definition lerp (a b t : R) : R := a + t * (b - a).

(** Modelled from the spec: [Math::polyval] is declared in [common_math.hpp];
    it evaluates the polynomial whose coefficients are given in descending
    order (the unit test expects 3.1859 for 1.1 .. 1.7 at 0.5). *)
Definition polyval (coeffs : list R) (x : R) : R :=
  foldl (λ acc c, acc * x + c) 0 coeffs.

End Math.

(** ** Fixed arrays of five: [std::array<T, 5>]

    [Fmotors], [Mmotors], [propellersLocation] and [motorsRpm] hold one entry
    per motor: the four lift rotors and the forward engine. *)
Record array5 (A : Type) := Arr5 { a0 : A; a1 : A; a2 : A; a3 : A; a4 : A }.
Arguments Arr5 {A} _ _ _ _ _.
Arguments a0 {A} _.
Arguments a1 {A} _.
Arguments a2 {A} _.
Arguments a3 {A} _.
Arguments a4 {A} _.

(** [arr[idx]] for [idx] in 0..4. *)
Definition aget {A : Type} (arr : array5 A) (idx : nat) : A :=
  match idx with
  | 0%nat => a0 arr | 1%nat => a1 arr | 2%nat => a2 arr | 3%nat => a3 arr
  | _ => a4 arr
  end.

(** [arr[idx] = v] for [idx] in 0..4. *)
Definition aset {A : Type} (idx : nat) (v : A) (arr : array5 A) : array5 A :=
  match idx with
  | 0%nat => Arr5 v (a1 arr) (a2 arr) (a3 arr) (a4 arr)
  | 1%nat => Arr5 (a0 arr) v (a2 arr) (a3 arr) (a4 arr)
  | 2%nat => Arr5 (a0 arr) (a1 arr) v (a3 arr) (a4 arr)
  | 3%nat => Arr5 (a0 arr) (a1 arr) (a2 arr) v (a4 arr)
  | _ => Arr5 (a0 arr) (a1 arr) (a2 arr) (a3 arr) v
  end.

Definition amap {A B : Type} (f : A → B) (arr : array5 A) : array5 B :=
  Arr5 (f (a0 arr)) (f (a1 arr)) (f (a2 arr)) (f (a3 arr)) (f (a4 arr)).

(** The entries from [begin()] to [end()]. *)
Definition ato_list {A : Type} (arr : array5 A) : list A :=
  [a0 arr; a1 arr; a2 arr; a3 arr; a4 arr].

(** ** The data of the simulator *)

(** [VtolParameters]: the physical constants, loaded once. *)
Record VtolParameters := {
  mass : R;
  gravity : R;
  atmoRho : R;
  wingArea : R;
  characteristicLength : R;
  propellersLocation : array5 Vector3d;
  actuatorMin : list R;
  actuatorMax : list R;
  accVariance : R;
  gyroVariance : R;
  inertia : Matrix3d }.

(** [TablesWithCoeffs]: the aerodynamic tables, loaded once. *)
Record TablesWithCoeffs := {
  CS_rudder : MatrixXd;
  CS_beta : MatrixXd;
  AoA : MatrixXd;
  AoS : MatrixXd;
  actuator : MatrixXd;
  airspeed : MatrixXd;
  CLPolynomial : MatrixXd;
  CSPolynomial : MatrixXd;
  CDPolynomial : MatrixXd;
  CmxPolynomial : MatrixXd;
  CmyPolynomial : MatrixXd;
  CmzPolynomial : MatrixXd;
  CmxAileron : MatrixXd;
  CmyElevator : MatrixXd;
  CmzRudder : MatrixXd;
  prop : MatrixXd;
  actuatorTimeConstants : list R }.

(** [State]: the member [state_], mutated on every tick. *)
Record State := {
  initialPose : Vector3d;
  position : Vector3d;
  linearVel : Vector3d;
  linearAccel : Vector3d;
  Ftotal : Vector3d;
  initialAttitude : Quaterniond;
  attitude : Quaterniond;
  angularVel : Vector3d;
  angularAccel : Vector3d;
  Mtotal : Vector3d;
  Flift : Vector3d;
  Fdrug : Vector3d;
  Fside : Vector3d;
  Faero : Vector3d;
  Fmotors : array5 Vector3d;
  Fspecific : Vector3d;
  Msteer : Vector3d;
  Mairspeed : Vector3d;
  MmotorsTotal : Vector3d;
  Maero : Vector3d;
  Mmotors : array5 Vector3d;
  bodylinearVel : Vector3d;
  windVelocity : Vector3d;
  windVariance : R;
  accelBias : Vector3d;
  gyroBias : Vector3d;
  motorsRpm : array5 R;
  prevActuators : list R;
  crntActuators : list R }.

(** The enumerators of [CalibrationType_t] that [calibrate] switches on.  The
    argument of [calibrate] is cast from a byte received from outside, so it
    may hold a value that names no enumerator: [UNLISTED]. *)
Inductive CalibrationType_t :=
  | WORK_MODE
  | MAG_1_NORMAL | MAG_2_OVERTURNED | MAG_3_HEAD_DOWN | MAG_4_HEAD_UP
  | MAG_5_TURNED_LEFT | MAG_6_TURNED_RIGHT
  | MAG_7_ARDUPILOT | MAG_8_ARDUPILOT | MAG_9_ARDUPILOT
  | ACC_1_NORMAL | ACC_2_OVERTURNED | ACC_3_HEAD_DOWN | ACC_4_HEAD_UP
  | ACC_5_TURNED_LEFT | ACC_6_TURNED_RIGHT
  | AIRSPEED
  | UNLISTED (raw : N).

#[global] Instance CalibrationType_t_eq_dec : EqDecision CalibrationType_t.
Proof. solve_decision. Defined.

(** ** Initial pose, landing and calibration *)

Definition setInitialPosition (s : State) (pos : Vector3d) (att : Quaterniond) : State :=
  s <| position := pos |> <| attitude := att |>
    <| initialPose := pos |> <| initialAttitude := att |>.

Definition setInitialVelocity (s : State) (linearVelocity angularVelocity : Vector3d) : State :=
  s <| linearVel := linearVelocity |> <| angularVel := angularVelocity |>.

Definition land (params_ : VtolParameters) (s : State) : State :=
  s <| Fspecific := V3 0 0 (- gravity params_) |>
    <| linearVel := vzero |>
    <| position ::= λ p, vset2 p 0.00 |>
    <| attitude := initialAttitude s |>
    <| angularVel := vzero |>
    <| motorsRpm ::= amap (λ _, 0.0) |>.

Definition calculateRotationMatrix (s : State) : Matrix3d :=
  transpose (toRotationMatrix (attitude s)).

Definition calculateNormalForceWithoutMass (params_ : VtolParameters) (s : State) : Vector3d :=
  mulv (calculateRotationMatrix s) (V3 0 0 (- gravity params_)).

Definition MAG_ROTATION_SPEED : R := 2 * 3.1415 / 10.
Definition DELTA_TIME : R := 0.001.

(** The guarded assignment found in the magnetometer and accelerometer cases:
    [if (prevCalibrationType != calType) state_.attitude = q;]. *)
Definition attitude_on_entry (prevCalibrationType calType : CalibrationType_t)
    (q : Quaterniond) (s : State) : State :=
  if decide (prevCalibrationType ≠ calType) then s <| attitude := q |> else s.

(** The [switch] of [calibrate]. *)
Definition calibrate_switch (prevCalibrationType calType : CalibrationType_t)
    (s : State) : State :=
  let on_entry := attitude_on_entry prevCalibrationType calType in
  match calType with
  | WORK_MODE =>
      s <| attitude := Quat 1 0 0 0 |> <| angularVel := vzero |>
  | MAG_1_NORMAL =>
      on_entry (Quat 1 0 0 0) s
        <| angularVel := V3 0.000 0.000 (- MAG_ROTATION_SPEED) |>
  | MAG_2_OVERTURNED =>
      on_entry (Quat 0 1 0 0) s
        <| angularVel := V3 0.000 0.000 MAG_ROTATION_SPEED |>
  | MAG_3_HEAD_DOWN =>
      on_entry (Quat 0.707 0 (-0.707) 0) s
        <| angularVel := V3 (- MAG_ROTATION_SPEED) 0.000 0.000 |>
  | MAG_4_HEAD_UP =>
      on_entry (Quat 0.707 0 0.707 0) s
        <| angularVel := V3 MAG_ROTATION_SPEED 0.000 0.000 |>
  | MAG_5_TURNED_LEFT =>
      on_entry (Quat 0.707 (-0.707) 0 0) s
        <| angularVel := V3 0.000 MAG_ROTATION_SPEED 0.000 |>
  | MAG_6_TURNED_RIGHT =>
      on_entry (Quat 0.707 0.707 0 0) s
        <| angularVel := V3 0.000 (- MAG_ROTATION_SPEED) 0.000 |>
  | MAG_7_ARDUPILOT =>
      s <| angularVel := V3 MAG_ROTATION_SPEED MAG_ROTATION_SPEED MAG_ROTATION_SPEED |>
  | MAG_8_ARDUPILOT =>
      s <| angularVel := V3 (- MAG_ROTATION_SPEED) MAG_ROTATION_SPEED MAG_ROTATION_SPEED |>
  | MAG_9_ARDUPILOT =>
      s <| angularVel := V3 MAG_ROTATION_SPEED (- MAG_ROTATION_SPEED) MAG_ROTATION_SPEED |>
  | ACC_1_NORMAL =>
      on_entry (Quat 1 0 0 0) s <| angularVel := vzero |>
  | ACC_2_OVERTURNED =>
      on_entry (Quat 0 1 0 0) s <| angularVel := vzero |>
  | ACC_3_HEAD_DOWN =>
      on_entry (Quat 0.707 0 (-0.707) 0) s <| angularVel := vzero |>
  | ACC_4_HEAD_UP =>
      on_entry (Quat 0.707 0 0.707 0) s <| angularVel := vzero |>
  | ACC_5_TURNED_LEFT =>
      on_entry (Quat 0.707 (-0.707) 0 0) s <| angularVel := vzero |>
  | ACC_6_TURNED_RIGHT =>
      on_entry (Quat 0.707 0.707 0 0) s <| angularVel := vzero |>
  | AIRSPEED =>
      s <| attitude := Quat 1 0 0 0 |> <| angularVel := vzero |>
        <| linearVel ::= λ v, V3 10.0 10.0 (v2 v) |>
  | UNLISTED _ => s
  end.

(** The first-order attitude update shared by [calibrate] and
    [calculateNewState]:
    [q.coeffs() += (q * Quaterniond(0, w)).coeffs() * 0.5 * dt; q.normalize()]. *)
Definition integrateAttitude (dt : R) (s : State) : State :=
  let quaternion := Quat 0 (v0 (angularVel s)) (v1 (angularVel s)) (v2 (angularVel s)) in
  let attitudeDelta := qmul (attitude s) quaternion in
  s <| attitude := qnormalize (qaddscaled (attitude s) attitudeDelta 0.5 dt) |>.

(** [calibrate(calType)].  The function-local static [prevCalibrationType] is
    an argument and a result.  The source keeps the numeric value of the
    enumerator in it; those values are declared in [uavDynamicsSimBase.hpp],
    which is not among the sources at hand, so the model keeps the enumerator
    itself.  The throttled log lines are left out.  The results are the new
    state, the new static and the returned [1]. *)
Definition calibrate (params_ : VtolParameters)
    (prevCalibrationType calType : CalibrationType_t) (s : State)
    : State * CalibrationType_t * Z :=
  let s := s <| linearVel := vzero |> <| position ::= λ p, vset2 p 0.00 |> in
  let s := calibrate_switch prevCalibrationType calType s in
  let prevCalibrationType :=
    if decide (prevCalibrationType ≠ calType) then calType else prevCalibrationType in
  let s := s <| Fspecific := calculateNormalForceWithoutMass params_ s |> in
  let s := integrateAttitude DELTA_TIME s in
  (s, prevCalibrationType, 1%Z).

(** ** The actuator mixers and the actuator lag *)

Definition endl : string := String (Ascii.ascii_of_nat 10) EmptyString.

(** The line written to [std::cerr] for a command of the wrong size. *)
Definition wrong_control_size (size : nat) : string :=
  "ERROR: InnoVtolDynamicsSim wrong control size. It is " +:+ pretty size
    +:+ ", but should be 8" +:+ endl.

(** The two loops that end both mixers: channels 0..4 are clamped to [0, 1]
    and scaled by the maximum, channels 5..7 are clamped to [-1, 1] and scaled
    by the maximum or the negated minimum. *)
Definition scale_throttles (params_ : VtolParameters) (actuators : list R) : list R :=
  for_range 0 5 (λ idx actuators,
    let actuators := <[idx := clamp (actuators !!! idx) 0.0 1.0]> actuators in
    <[idx := actuators !!! idx * actuatorMax params_ !!! idx]> actuators) actuators.

Definition scale_surfaces (params_ : VtolParameters) (actuators : list R) : list R :=
  for_range 5 8 (λ idx actuators,
    let actuators := <[idx := clamp (actuators !!! idx) (-1.0) 1.0]> actuators in
    <[idx := actuators !!! idx *
             (if Rge_dec (actuators !!! idx) 0
              then actuatorMax params_ !!! idx
              else - actuatorMin params_ !!! idx)]> actuators) actuators.

(** [mapCmdToActuatorStandardVTOL(cmd)]: the returned vector and the lines
    written to [std::cerr]. *)
Definition mapCmdToActuatorStandardVTOL (params_ : VtolParameters) (cmd : list R)
    : list R * list string :=
  if decide (length cmd ≠ 8%nat) then (cmd, [wrong_control_size (length cmd)])
  else
    let actuators := replicate 8 0 in
    let actuators := <[0%nat := cmd !!! 0%nat]> actuators in
    let actuators := <[1%nat := cmd !!! 1%nat]> actuators in
    let actuators := <[2%nat := cmd !!! 2%nat]> actuators in
    let actuators := <[3%nat := cmd !!! 3%nat]> actuators in
    let actuators := <[4%nat := cmd !!! 4%nat]> actuators in
    let actuators := <[5%nat := (cmd !!! 5%nat - cmd !!! 6%nat) / 2]> actuators in
    let actuators := <[6%nat := - cmd !!! 7%nat]> actuators in
    let actuators := <[7%nat := 0.0]> actuators in
    let actuators := scale_throttles params_ actuators in
    let actuators := scale_surfaces params_ actuators in
    (actuators, []).

(** [mapCmdToActuatorInnoVTOL(cmd)]. *)
Definition mapCmdToActuatorInnoVTOL (params_ : VtolParameters) (cmd : list R)
    : list R * list string :=
  if decide (length cmd ≠ 8%nat) then (cmd, [wrong_control_size (length cmd)])
  else
    let actuators := replicate 8 0 in
    let actuators := <[0%nat := cmd !!! 0%nat]> actuators in
    let actuators := <[1%nat := cmd !!! 1%nat]> actuators in
    let actuators := <[2%nat := cmd !!! 2%nat]> actuators in
    let actuators := <[3%nat := cmd !!! 3%nat]> actuators in
    let actuators := <[4%nat := cmd !!! 7%nat]> actuators in
    let actuators := <[5%nat := cmd !!! 4%nat]> actuators in
    let actuators := <[6%nat := cmd !!! 5%nat]> actuators in
    let actuators := <[7%nat := cmd !!! 6%nat]> actuators in
    let actuators := scale_throttles params_ actuators in
    let actuators := <[5%nat := (actuators !!! 5%nat - 0.5) * 2]> actuators in
    let actuators := scale_surfaces params_ actuators in
    (actuators, []).

(** One round of the loop of [updateActuators]. *)
Definition updateActuators_body (tables_ : TablesWithCoeffs) (dtSecs : R) (idx : nat)
    (acc : State * list R) : State * list R :=
  let '(s, cmd) := acc in
  let cmd_delta := prevActuators s !!! idx - cmd !!! idx in
  let cmd := <[idx := cmd !!! idx + cmd_delta *
                 (1 - cmath.pow 2.71 ((- dtSecs) / actuatorTimeConstants tables_ !!! idx))]> cmd in
  (s <| crntActuators ::= <[idx := cmd !!! idx]> |>, cmd).

(** [updateActuators(cmd, dtSecs)]: the new state and the command vector,
    which the source updates in place. *)
Definition updateActuators (tables_ : TablesWithCoeffs) (s : State) (cmd : list R)
    (dtSecs : R) : State * list R :=
  let s := s <| prevActuators := crntActuators s |> in
  for_range 0 8 (updateActuators_body tables_ dtSecs) (s, cmd).

(** ** Wind, air speed and the aerodynamic angles *)

(** [calculateWind()]: the three draws of [distribution_(generator_)] are the
    argument [noise]; the gust is zero. *)
Definition calculateWind (s : State) (noise : Vector3d) : Vector3d :=
  let wind := V3 (sqrt (windVariance s) * v0 noise + v0 (windVelocity s))
                 (sqrt (windVariance s) * v1 noise + v1 (windVelocity s))
                 (sqrt (windVariance s) * v2 noise + v2 (windVelocity s)) in
  let gust := vzero in
  vadd wind gust.

(** [calculateAirSpeed]: the air speed and the lines written to [std::cout]. *)
Definition calculateAirSpeed (rotationMatrix : Matrix3d) (velocity windSpeed : Vector3d)
    : Vector3d * list string :=
  let airspeed := mulv rotationMatrix (vsub velocity windSpeed) in
  if decide (Rabs (v0 airspeed) > 40 ∨ Rabs (v1 airspeed) > 40 ∨ Rabs (v2 airspeed) > 40)
  then (V3 (clamp (v0 airspeed) (-40) 40) (clamp (v1 airspeed) (-40) 40)
           (clamp (v2 airspeed) (-40) 40),
        ["Warning: airspeed is out of limit." +:+ endl])
  else (airspeed, []).

Definition calculateDynamicPressure (params_ : VtolParameters) (airSpeedMod : R) : R :=
  atmoRho params_ * airSpeedMod * airSpeedMod * wingArea params_.

Definition calculateAnglesOfAtack (airSpeed : Vector3d) : R :=
  let A := sqrt (v0 airSpeed * v0 airSpeed + v2 airSpeed * v2 airSpeed) in
  if Rlt_dec A 0.001 then 0
  else
    let A := v2 airSpeed / A in
    let A := clamp A (-1.0) 1.0 in
    let A := if Rgt_dec (v0 airSpeed) 0 then asin A else 3.1415 - asin A in
    if Rgt_dec A 3.1415 then A - 2 * 3.1415 else A.

Definition calculateAnglesOfSideslip (airSpeed : Vector3d) : R :=
  let B := vnorm airSpeed in
  if Rlt_dec B 0.001 then 0
  else
    let B := v1 airSpeed / B in
    let B := clamp B (-1.0) 1.0 in
    asin B.

(** [calculateAngularAccel]: Euler's rotation equation in the body frame. *)
Definition calculateAngularAccel (inertia : Matrix3d) (moment prevAngVel : Vector3d)
    : Vector3d :=
  mulv (inverse inertia) (vsub moment (cross prevAngVel (mulv inertia prevAngVel))).

(** [getMotorsRpm(motorsRpm)]: the returned flag and the vector, to which the
    source appends by [push_back]. *)
Definition getMotorsRpm (s : State) (motorsRpm_out : list R) : bool * list R :=
  let out := motorsRpm_out ++ [aget (motorsRpm s) 0] in
  let out := out ++ [aget (motorsRpm s) 1] in
  let out := out ++ [aget (motorsRpm s) 2] in
  let out := out ++ [aget (motorsRpm s) 3] in
  let out := out ++ [aget (motorsRpm s) 4] in
  (true, out).

(** ** Sample data

    A parameter set, a set of tables and a state to run the definitions on.
    The values are plausible ones; they are not the repository's
    configuration, which is loaded at run time. *)

Definition sample_params : VtolParameters := {|
  mass := 7;
  gravity := 9.8066;
  atmoRho := 1.2;
  wingArea := 1.5;
  characteristicLength := 1.5;
  propellersLocation :=
    Arr5 (V3 0.5 0.5 0) (V3 (-0.5) (-0.5) 0) (V3 0.5 (-0.5) 0) (V3 (-0.5) 0.5 0)
         (V3 (-1) 0 0);
  actuatorMin := [0; 0; 0; 0; 0; -20; -20; -20];
  actuatorMax := [1000; 1000; 1000; 1000; 1000; 20; 20; 20];
  accVariance := 0;
  gyroVariance := 0;
  inertia := M3 1 0 0  0 2 0  0 0 3 |}.

(** The table of the unit test [test_normal_vector]: two breakpoints, two
    coefficients. *)
Definition sample_polynomial : MatrixXd := matrix_of_rows [[0; 0; 1]; [1; 1; 2]].

(** A propeller table of two rows: command, thrust, torque, current, rpm. *)
Definition sample_prop : MatrixXd :=
  matrix_of_rows [[0; 0; 0; 0; 0]; [1000; 40; 1; 50; 6000]].

Definition sample_grid : MatrixXd := matrix_of_rows [[0; 0]; [0; 0]].

Definition sample_tables : TablesWithCoeffs := {|
  CS_rudder := sample_grid;
  CS_beta := sample_grid;
  AoA := matrix_of_rows [[-45; 45]];
  AoS := matrix_of_rows [[-90]; [90]];
  actuator := matrix_of_rows [[-20]; [20]];
  airspeed := matrix_of_rows [[5]; [40]];
  CLPolynomial := sample_polynomial;
  CSPolynomial := sample_polynomial;
  CDPolynomial := sample_polynomial;
  CmxPolynomial := sample_polynomial;
  CmyPolynomial := sample_polynomial;
  CmzPolynomial := sample_polynomial;
  CmxAileron := sample_grid;
  CmyElevator := sample_grid;
  CmzRudder := sample_grid;
  prop := sample_prop;
  actuatorTimeConstants := replicate 8 0.05 |}.

(** The vehicle at rest on the ground, level. *)
Definition sample_state : State := {|
  initialPose := vzero;
  position := vzero;
  linearVel := vzero;
  linearAccel := vzero;
  Ftotal := vzero;
  initialAttitude := Quat 1 0 0 0;
  attitude := Quat 1 0 0 0;
  angularVel := vzero;
  angularAccel := vzero;
  Mtotal := vzero;
  Flift := vzero;
  Fdrug := vzero;
  Fside := vzero;
  Faero := vzero;
  Fmotors := Arr5 vzero vzero vzero vzero vzero;
  Fspecific := V3 0 0 (- 9.8066);
  Msteer := vzero;
  Mairspeed := vzero;
  MmotorsTotal := vzero;
  Maero := vzero;
  Mmotors := Arr5 vzero vzero vzero vzero vzero;
  bodylinearVel := vzero;
  windVelocity := vzero;
  windVariance := 0;
  accelBias := vzero;
  gyroBias := vzero;
  motorsRpm := Arr5 0 0 0 0 0;
  prevActuators := replicate 8 0;
  crntActuators := replicate 8 0 |}.

(** On a table of two rows the only row that has a next row is row 0. *)
Definition first_row : MatrixXd → R → nat := λ _ _, 0%nat.

(** ** Table look-ups, aerodynamics and the rigid-body step

    [Math::findPrevRowIdxInMonotonicSequence] is declared in
    [common_math.hpp], which is not among the sources at hand.  It is a
    parameter of everything below: what is proved holds for every row search. *)
Section WithRowSearch.

Variable findPrevRowIdxInMonotonicSequence : MatrixXd → R → nat.

(** [thruster(actuator, thrust, torque, rpm)]: the three reference parameters
    come in with their old contents and go out as a triple. *)
Definition thruster (tables_ : TablesWithCoeffs) (actuator : R) (out : R * R * R)
    : R * R * R :=
  let CONTROL_IDX := 0%nat in
  let THRUST_IDX := 1%nat in
  let TORQUE_IDX := 2%nat in
  let RPM_IDX := 4%nat in
  let prev_idx := findPrevRowIdxInMonotonicSequence (prop tables_) actuator in
  let next_idx := (prev_idx + 1)%nat in
  if decide (next_idx < rows (prop tables_))%nat then
    let prev_row := coeff (prop tables_) prev_idx in
    let next_row := coeff (prop tables_) next_idx in
    let t := (actuator - prev_row CONTROL_IDX)
             / (next_row CONTROL_IDX - prev_row CONTROL_IDX) in
    (Math.lerp (prev_row THRUST_IDX) (next_row THRUST_IDX) t,
     Math.lerp (prev_row TORQUE_IDX) (next_row TORQUE_IDX) t,
     Math.lerp (prev_row RPM_IDX) (next_row RPM_IDX) t)
  else out.

(** [calculatePolynomialUsingTable(table, airSpeedMod, polynomialCoeffs)]: the
    returned flag and the coefficient vector. *)
Definition calculatePolynomialUsingTable (table : MatrixXd) (airSpeedMod : R)
    (polynomialCoeffs : list R) : bool * list R :=
  if decide ((cols table < 2)%nat ∨ (rows table < 2)%nat
             ∨ (length polynomialCoeffs < cols table - 1)%nat)
  then (false, polynomialCoeffs)
  else
    let prevRowIdx := findPrevRowIdxInMonotonicSequence table airSpeedMod in
    if decide (rows table < prevRowIdx + 2)%nat then (false, polynomialCoeffs)
    else
      let nextRowIdx := (prevRowIdx + 1)%nat in
      let airspeedStep := coeff table nextRowIdx 0 - coeff table prevRowIdx 0 in
      if Rlt_dec (Rabs airspeedStep) 0.001 then (false, polynomialCoeffs)
      else
        let delta := (airSpeedMod - coeff table prevRowIdx 0) / airspeedStep in
        let numberOfCoeffs := (cols table - 1)%nat in
        (true,
         for_range 0 numberOfCoeffs (λ coeff_idx polynomialCoeffs,
           let prevValue := coeff table prevRowIdx (coeff_idx + 1) in
           let nextValue := coeff table nextRowIdx (coeff_idx + 1) in
           <[coeff_idx := Math.lerp prevValue nextValue delta]> polynomialCoeffs)
           polynomialCoeffs).

(** The six wrappers drop the returned flag. *)
Definition calculateCLPolynomial (tables_ : TablesWithCoeffs) (airSpeedMod : R)
    (polynomialCoeffs : list R) : list R :=
  (calculatePolynomialUsingTable (CLPolynomial tables_) airSpeedMod polynomialCoeffs).2.
Definition calculateCSPolynomial (tables_ : TablesWithCoeffs) (airSpeedMod : R)
    (polynomialCoeffs : list R) : list R :=
  (calculatePolynomialUsingTable (CSPolynomial tables_) airSpeedMod polynomialCoeffs).2.
Definition calculateCDPolynomial (tables_ : TablesWithCoeffs) (airSpeedMod : R)
    (polynomialCoeffs : list R) : list R :=
  (calculatePolynomialUsingTable (CDPolynomial tables_) airSpeedMod polynomialCoeffs).2.
Definition calculateCmxPolynomial (tables_ : TablesWithCoeffs) (airSpeedMod : R)
    (polynomialCoeffs : list R) : list R :=
  (calculatePolynomialUsingTable (CmxPolynomial tables_) airSpeedMod polynomialCoeffs).2.
Definition calculateCmyPolynomial (tables_ : TablesWithCoeffs) (airSpeedMod : R)
    (polynomialCoeffs : list R) : list R :=
  (calculatePolynomialUsingTable (CmyPolynomial tables_) airSpeedMod polynomialCoeffs).2.
Definition calculateCmzPolynomial (tables_ : TablesWithCoeffs) (airSpeedMod : R)
    (polynomialCoeffs : list R) : list R :=
  (calculatePolynomialUsingTable (CmzPolynomial tables_) airSpeedMod polynomialCoeffs).2.

(** [griddata(x, y, z, x_val, y_val)]: interpolation over a grid. *)
Definition griddata (x y z : MatrixXd) (x_val y_val : R) : R :=
  let x1_idx := findPrevRowIdxInMonotonicSequence x x_val in
  let y1_idx := findPrevRowIdxInMonotonicSequence y y_val in
  let x2_idx := (x1_idx + 1)%nat in
  let y2_idx := (y1_idx + 1)%nat in
  let Q11 := coeff z y1_idx x1_idx in
  let Q12 := coeff z y2_idx x1_idx in
  let Q21 := coeff z y1_idx x2_idx in
  let Q22 := coeff z y2_idx x2_idx in
  let R1 := ((coeff1 x x2_idx - x_val) * Q11 + (x_val - coeff1 x x1_idx) * Q21)
            / (coeff1 x x2_idx - coeff1 x x1_idx) in
  let R2 := ((coeff1 x x2_idx - x_val) * Q12 + (x_val - coeff1 x x1_idx) * Q22)
            / (coeff1 x x2_idx - coeff1 x x1_idx) in
  ((coeff1 y y2_idx - y_val) * R1 + (y_val - coeff1 y y1_idx) * R2)
  / (coeff1 y y2_idx - coeff1 y y1_idx).

Definition calculateCSRudder (tables_ : TablesWithCoeffs) (rudder_pos airspeed_val : R) : R :=
  griddata (mneg (actuator tables_)) (airspeed tables_) (CS_rudder tables_)
           rudder_pos airspeed_val.
Definition calculateCSBeta (tables_ : TablesWithCoeffs) (AoS_deg airspeed_val : R) : R :=
  griddata (mneg (AoS tables_)) (airspeed tables_) (CS_beta tables_) AoS_deg airspeed_val.
Definition calculateCmxAileron (tables_ : TablesWithCoeffs) (aileron_pos airspeed_val : R) : R :=
  griddata (actuator tables_) (airspeed tables_) (CmxAileron tables_)
           aileron_pos airspeed_val.
Definition calculateCmyElevator (tables_ : TablesWithCoeffs) (elevator_pos airspeed_val : R) : R :=
  griddata (actuator tables_) (airspeed tables_) (CmyElevator tables_)
           elevator_pos airspeed_val.
Definition calculateCmzRudder (tables_ : TablesWithCoeffs) (rudder_pos airspeed_val : R) : R :=
  griddata (actuator tables_) (airspeed tables_) (CmzRudder tables_)
           rudder_pos airspeed_val.

(** [k * v] with the scalar on the left. *)
Definition smul (k : R) (v : Vector3d) : Vector3d := V3 (k * v0 v) (k * v1 v) (k * v2 v).

(** [calculateAerodynamics]: the new state (its diagnostic fields are
    written) with the two reference results [Faero] and [Maero].
    [polynomialCoeffs0] is the first content of the local coefficient
    vector of size 7. *)
Definition calculateAerodynamics (params_ : VtolParameters) (tables_ : TablesWithCoeffs)
    (s : State) (airspeed_v : Vector3d)
    (AoA_rad AoS_rad aileron_pos elevator_pos rudder_pos : R)
    (polynomialCoeffs0 : list R) : State * Vector3d * Vector3d :=
  let AoA_deg := clamp (AoA_rad * 180 / 3.1415) (-45.0) 45.0 in
  let AoS_deg := clamp (AoS_rad * 180 / 3.1415) (-90.0) 90.0 in
  let airspeedMod := vnorm airspeed_v in
  let dynamicPressure := calculateDynamicPressure params_ airspeedMod in
  let airspeedModClamped := clamp (vnorm airspeed_v) 5 40 in

  let polynomialCoeffs := polynomialCoeffs0 in
  let polynomialCoeffs := calculateCLPolynomial tables_ airspeedModClamped polynomialCoeffs in
  let CL := Math.polyval polynomialCoeffs AoA_deg in
  let FL := vscale (cross (V3 0 1 0) (normalized airspeed_v)) CL in

  let polynomialCoeffs := calculateCSPolynomial tables_ airspeedModClamped polynomialCoeffs in
  let CS := Math.polyval polynomialCoeffs AoA_deg in
  let CS_rudder_val := calculateCSRudder tables_ rudder_pos airspeedModClamped in
  let CS_beta_val := calculateCSBeta tables_ AoS_deg airspeedModClamped in
  let FS := vscale (cross airspeed_v (cross (V3 0 1 0) (normalized airspeed_v)))
                   (CS + CS_rudder_val + CS_beta_val) in

  let polynomialCoeffs := calculateCDPolynomial tables_ airspeedModClamped polynomialCoeffs in
  let CD := Math.polyval (take 5 polynomialCoeffs) AoA_deg in
  let FD := vscale (normalized (smul (-1) airspeed_v)) CD in

  let Faero_out := smul (0.5 * dynamicPressure) (vadd (vadd FL FS) FD) in

  let polynomialCoeffs := calculateCmxPolynomial tables_ airspeedModClamped polynomialCoeffs in
  let Cmx := Math.polyval polynomialCoeffs AoA_deg in
  let polynomialCoeffs := calculateCmyPolynomial tables_ airspeedModClamped polynomialCoeffs in
  let Cmy := Math.polyval polynomialCoeffs AoA_deg in
  let polynomialCoeffs := calculateCmzPolynomial tables_ airspeedModClamped polynomialCoeffs in
  let Cmz := - Math.polyval polynomialCoeffs AoA_deg in

  let Cmx_aileron := calculateCmxAileron tables_ aileron_pos airspeedModClamped in
  let Cmy_elevator := calculateCmyElevator tables_ (Rabs elevator_pos) airspeedModClamped in
  let Cmz_rudder := calculateCmzRudder tables_ rudder_pos airspeedModClamped in

  let Mx := Cmx + Cmx_aileron * aileron_pos in
  let My := Cmy + Cmy_elevator * elevator_pos in
  let Mz := Cmz + Cmz_rudder * rudder_pos in

  let k := 0.5 * dynamicPressure * characteristicLength params_ in
  let Maero_out := smul k (V3 Mx My Mz) in
  let s := s <| Flift := smul k FL |> <| Fdrug := smul k FD |> <| Fside := smul k FS |>
             <| Msteer := vscale (V3 (Cmx_aileron * aileron_pos)
                                     (Cmy_elevator * elevator_pos)
                                     (Cmz_rudder * rudder_pos)) k |>
             <| Mairspeed := vscale (V3 Cmx Cmy Cmz) k |> in
  (s, Faero_out, Maero_out).

(** The two vectors that [calculateAerodynamics] scales by the dynamic
    pressure: the sum [FL + FS + FD], which becomes [Faero], and
    [(Mx, My, Mz)], which becomes [Maero]. *)
Definition aerodynamic_coefficients (tables_ : TablesWithCoeffs) (airspeed_v : Vector3d)
    (AoA_rad AoS_rad aileron_pos elevator_pos rudder_pos : R)
    (polynomialCoeffs0 : list R) : Vector3d * Vector3d :=
  let AoA_deg := clamp (AoA_rad * 180 / 3.1415) (-45.0) 45.0 in
  let AoS_deg := clamp (AoS_rad * 180 / 3.1415) (-90.0) 90.0 in
  let airspeedModClamped := clamp (vnorm airspeed_v) 5 40 in

  let polynomialCoeffs := polynomialCoeffs0 in
  let polynomialCoeffs := calculateCLPolynomial tables_ airspeedModClamped polynomialCoeffs in
  let CL := Math.polyval polynomialCoeffs AoA_deg in
  let FL := vscale (cross (V3 0 1 0) (normalized airspeed_v)) CL in

  let polynomialCoeffs := calculateCSPolynomial tables_ airspeedModClamped polynomialCoeffs in
  let CS := Math.polyval polynomialCoeffs AoA_deg in
  let CS_rudder_val := calculateCSRudder tables_ rudder_pos airspeedModClamped in
  let CS_beta_val := calculateCSBeta tables_ AoS_deg airspeedModClamped in
  let FS := vscale (cross airspeed_v (cross (V3 0 1 0) (normalized airspeed_v)))
                   (CS + CS_rudder_val + CS_beta_val) in

  let polynomialCoeffs := calculateCDPolynomial tables_ airspeedModClamped polynomialCoeffs in
  let CD := Math.polyval (take 5 polynomialCoeffs) AoA_deg in
  let FD := vscale (normalized (smul (-1) airspeed_v)) CD in

  let polynomialCoeffs := calculateCmxPolynomial tables_ airspeedModClamped polynomialCoeffs in
  let Cmx := Math.polyval polynomialCoeffs AoA_deg in
  let polynomialCoeffs := calculateCmyPolynomial tables_ airspeedModClamped polynomialCoeffs in
  let Cmy := Math.polyval polynomialCoeffs AoA_deg in
  let polynomialCoeffs := calculateCmzPolynomial tables_ airspeedModClamped polynomialCoeffs in
  let Cmz := - Math.polyval polynomialCoeffs AoA_deg in

  let Cmx_aileron := calculateCmxAileron tables_ aileron_pos airspeedModClamped in
  let Cmy_elevator := calculateCmyElevator tables_ (Rabs elevator_pos) airspeedModClamped in
  let Cmz_rudder := calculateCmzRudder tables_ rudder_pos airspeedModClamped in

  let Mx := Cmx + Cmx_aileron * aileron_pos in
  let My := Cmy + Cmy_elevator * elevator_pos in
  let Mz := Cmz + Cmz_rudder * rudder_pos in
  (vadd (vadd FL FS) FD, V3 Mx My Mz).

(** [calculateNewState], block by block.  [thrust0] and [torque0] are the
    first contents of the two local vectors of size 5. *)

(** The loop over the five thrusters: each call may write [thrust[idx]],
    [torque[idx]] and [state_.motorsRpm[idx]]. *)
Definition run_thrusters (tables_ : TablesWithCoeffs) (actuator_in : list R)
    (thrust0 torque0 : array5 R) (s : State) : array5 R * array5 R * State :=
  for_range 0 5 (λ idx (acc : array5 R * array5 R * State),
    let thrust := acc.1.1 in
    let torque := acc.1.2 in
    let s := acc.2 in
    let out := thruster tables_ (actuator_in !!! idx)
                        (aget thrust idx, aget torque idx, aget (motorsRpm s) idx) in
    (aset idx out.1.1 thrust, aset idx out.1.2 torque,
     s <| motorsRpm ::= aset idx out.2 |>))
    (thrust0, torque0, s).

(** The forces of the motors: the lift rotors push along the negative z axis
    of the body, the forward engine along the x axis. *)
Definition motor_forces (thrust : array5 R) (s : State) : State :=
  let s := for_range 0 4 (λ idx s,
             s <| Fmotors ::= aset idx (V3 0 0 (- aget thrust idx)) |>) s in
  s <| Fmotors ::= aset 4 (V3 (aget thrust 4) 0 0) |>.

(** The moments of the motors: the reaction torque and the moment of the
    force about its arm. *)
Definition motor_moments (params_ : VtolParameters) (torque : array5 R) (s : State)
    : State :=
  let motorTorquesInBodyCS :=
    Arr5 (V3 0 0 (aget torque 0)) (V3 0 0 (aget torque 1))
         (V3 0 0 (- aget torque 2)) (V3 0 0 (- aget torque 3))
         (V3 (- aget torque 4) 0 0) in
  for_range 0 5 (λ idx s,
    let MdueToArmOfForceInBodyCS :=
      cross (aget (propellersLocation params_) idx) (aget (Fmotors s) idx) in
    s <| Mmotors ::= aset idx (vadd (aget motorTorquesInBodyCS idx)
                                    MdueToArmOfForceInBodyCS) |>) s.

(** The rotation: the total moment, the angular acceleration, the angular
    velocity and the attitude.  The local [MtotalInBodyCS] is returned with
    the state. *)
Definition integrate_rotation (params_ : VtolParameters) (Maero_in : Vector3d)
    (dt_sec : R) (s : State) : State * Vector3d :=
  let MtotalInBodyCS := foldl vadd Maero_in (ato_list (Mmotors s)) in
  let s := s <| angularAccel :=
                  calculateAngularAccel (inertia params_) MtotalInBodyCS (angularVel s) |> in
  let s := s <| angularVel := vadd (angularVel s) (vscale (angularAccel s) dt_sec) |> in
  let s := integrateAttitude dt_sec s in
  (s, MtotalInBodyCS).

(** The translation: the specific force, the total force, the linear
    acceleration, the linear velocity and the position.  The locals
    [Fspecific] and [rotationMatrix] are returned with the state. *)
Definition integrate_translation (params_ : VtolParameters)
    (Faero_in MtotalInBodyCS : Vector3d) (dt_sec : R) (s : State)
    : State * Vector3d * Matrix3d :=
  let rotationMatrix := calculateRotationMatrix s in
  let Fspecific_loc := vdiv (foldl vadd Faero_in (ato_list (Fmotors s))) (mass params_) in
  let Ftotal_loc :=
    vscale (vadd Fspecific_loc (mulv rotationMatrix (V3 0 0 (gravity params_))))
           (mass params_) in

  let s := s <| Ftotal := Ftotal_loc |> <| Mtotal := MtotalInBodyCS |> in

  let s := s <| linearAccel := vdiv (mulv (inverse rotationMatrix) Ftotal_loc)
                                    (mass params_) |> in
  let s := s <| linearVel := vadd (linearVel s) (vscale (linearAccel s) dt_sec) |> in
  let s := s <| position := vadd (position s) (vscale (linearVel s) dt_sec) |> in
  (s, Fspecific_loc, rotationMatrix).

(** The first part of [calculateNewState], up to the integration of the
    position. *)
Definition integrateState (params_ : VtolParameters) (tables_ : TablesWithCoeffs)
    (s : State) (Maero_in Faero_in : Vector3d) (actuator_in : list R) (dt_sec : R)
    (thrust0 torque0 : array5 R) : State * Vector3d * Matrix3d :=
  let thrusters := run_thrusters tables_ actuator_in thrust0 torque0 s in
  let s := motor_forces thrusters.1.1 thrusters.2 in
  let s := motor_moments params_ thrusters.1.2 s in
  let rotated := integrate_rotation params_ Maero_in dt_sec s in
  integrate_translation params_ Faero_in rotated.2 dt_sec rotated.1.

(** [std::accumulate(&Mmotors[0][0], &Mmotors[5][0], 0)]: the fifteen
    coordinates are added into an [int]. *)
Definition accumulate_as_int (m : array5 Vector3d) : R :=
  foldl (λ acc x, trunc (acc + x)) 0
        (mjoin ((λ v, [v0 v; v1 v; v2 v]) <$> ato_list m)).

(** The test for the ground that follows the integration. *)
Definition ground_contact (params_ : VtolParameters) (Fspecific_loc : Vector3d)
    (s : State) : State :=
  if decide (v2 (position s) >= 0)
  then land params_ s
  else s <| Fspecific := Fspecific_loc |>.

(** The stored diagnostics that end [calculateNewState]. *)
Definition store_sim_parameters (rotationMatrix : Matrix3d) (s : State) : State :=
  let s := s <| MmotorsTotal := V3 (accumulate_as_int (Mmotors s))
                                   (accumulate_as_int (Mmotors s))
                                   (accumulate_as_int (Mmotors s)) |> in
  s <| bodylinearVel := mulv rotationMatrix (linearVel s) |>.

(** [calculateNewState(Maero, Faero, actuator, dt_sec)]. *)
Definition calculateNewState (params_ : VtolParameters) (tables_ : TablesWithCoeffs)
    (s : State) (Maero_in Faero_in : Vector3d) (actuator_in : list R) (dt_sec : R)
    (thrust0 torque0 : array5 R) : State :=
  let integrated :=
    integrateState params_ tables_ s Maero_in Faero_in actuator_in dt_sec
                   thrust0 torque0 in
  let s := ground_contact params_ integrated.1.2 integrated.1.1 in
  store_sim_parameters integrated.2 s.

(** [process(dtSecs, motorCmd, isCmdPercent)]: one tick of the whole pipeline.
    The results are the new state and the lines written to the standard
    streams. *)
Definition process (params_ : VtolParameters) (tables_ : TablesWithCoeffs)
    (s : State) (dtSecs : R) (motorCmd : list R) (isCmdPercent : bool)
    (noise : Vector3d) (polynomialCoeffs0 : list R) (thrust0 torque0 : array5 R)
    : State * list string :=
  let vel_w := calculateWind s noise in
  let rotationMatrix := calculateRotationMatrix s in
  let air := calculateAirSpeed rotationMatrix (linearVel s) vel_w in
  let airSpeed := air.1 in
  let AoA_rad := calculateAnglesOfAtack airSpeed in
  let AoS_rad := calculateAnglesOfSideslip airSpeed in
  let mapped :=
    if isCmdPercent then mapCmdToActuatorInnoVTOL params_ motorCmd else (motorCmd, []) in
  let lagged := updateActuators tables_ s mapped.1 dtSecs in
  let s := lagged.1 in
  let actuators := lagged.2 in
  let aero :=
    calculateAerodynamics params_ tables_ s airSpeed AoA_rad AoS_rad
      (actuators !!! 5%nat) (actuators !!! 6%nat) (actuators !!! 7%nat)
      polynomialCoeffs0 in
  let s := aero.1.1 <| Faero := aero.1.2 |> <| Maero := aero.2 |> in
  (calculateNewState params_ tables_ s (Maero s) (Faero s) actuators dtSecs
                     thrust0 torque0,
   air.2 ++ mapped.2).

(** ** What the statements below speak of *)

(** The first-order attitude step of size [dt] from the attitude [q] under
    the angular velocity [w], with its renormalisation. *)
Definition attitude_step (dt : R) (q : Quaterniond) (w : Vector3d) : Quaterniond :=
  qnormalize (qaddscaled q (qmul q (Quat 0 (v0 w) (v1 w) (v2 w))) 0.5 dt).

(** When [calibrate] assigns a fixed attitude, by calibration type. *)
Inductive AttitudePolicy :=
  | assigned_on_entry (q : Quaterniond)
  | assigned_on_every_call (q : Quaterniond)
  | never_assigned.

Definition attitude_policy (calType : CalibrationType_t) : AttitudePolicy :=
  match calType with
  | WORK_MODE | AIRSPEED => assigned_on_every_call (Quat 1 0 0 0)
  | MAG_1_NORMAL | ACC_1_NORMAL => assigned_on_entry (Quat 1 0 0 0)
  | MAG_2_OVERTURNED | ACC_2_OVERTURNED => assigned_on_entry (Quat 0 1 0 0)
  | MAG_3_HEAD_DOWN | ACC_3_HEAD_DOWN => assigned_on_entry (Quat 0.707 0 (-0.707) 0)
  | MAG_4_HEAD_UP | ACC_4_HEAD_UP => assigned_on_entry (Quat 0.707 0 0.707 0)
  | MAG_5_TURNED_LEFT | ACC_5_TURNED_LEFT => assigned_on_entry (Quat 0.707 (-0.707) 0 0)
  | MAG_6_TURNED_RIGHT | ACC_6_TURNED_RIGHT => assigned_on_entry (Quat 0.707 0.707 0 0)
  | MAG_7_ARDUPILOT | MAG_8_ARDUPILOT | MAG_9_ARDUPILOT | UNLISTED _ => never_assigned
  end.

(** The attitude that the step of [calibrate] starts from. *)
Definition calibration_start (prevCalibrationType calType : CalibrationType_t)
    (s : State) : Quaterniond :=
  match attitude_policy calType with
  | assigned_on_entry q => if decide (prevCalibrationType ≠ calType) then q else attitude s
  | assigned_on_every_call q => q
  | never_assigned => attitude s
  end.

(** The inputs of one call of [calculateNewState]. *)
Record TickInput := {
  tick_Maero : Vector3d;
  tick_Faero : Vector3d;
  tick_actuator : list R;
  tick_dt : R;
  tick_thrust0 : array5 R;
  tick_torque0 : array5 R }.

Definition tick (params_ : VtolParameters) (tables_ : TablesWithCoeffs)
    (s : State) (i : TickInput) : State :=
  calculateNewState params_ tables_ s (tick_Maero i) (tick_Faero i) (tick_actuator i)
                    (tick_dt i) (tick_thrust0 i) (tick_torque0 i).

(** The position that a tick integrates, before the test for the ground. *)
Definition integrated_position (params_ : VtolParameters) (tables_ : TablesWithCoeffs)
    (s : State) (i : TickInput) : Vector3d :=
  position (integrateState params_ tables_ s (tick_Maero i) (tick_Faero i)
              (tick_actuator i) (tick_dt i) (tick_thrust0 i) (tick_torque0 i)).1.1.

(** A run of ticks, one after the other. *)
Definition run_ticks (params_ : VtolParameters) (tables_ : TablesWithCoeffs)
    (s : State) (inputs : list TickInput) : State :=
  foldl (tick params_ tables_) s inputs.

(** The five thrusters give no thrust and no torque at the commands of the
    tick. *)
Definition zero_thrust (tables_ : TablesWithCoeffs) (i : TickInput) : Prop :=
  ∀ idx out, (idx < 5)%nat →
    (thruster tables_ (tick_actuator i !!! idx) out).1.1 = 0
    ∧ (thruster tables_ (tick_actuator i !!! idx) out).1.2 = 0.

(** The five thrusters give no thrust at the commands of the tick; their
    torques are left free. *)
Definition no_thrust (tables_ : TablesWithCoeffs) (i : TickInput) : Prop :=
  ∀ idx out, (idx < 5)%nat →
    (thruster tables_ (tick_actuator i !!! idx) out).1.1 = 0.

(** No aerodynamic force and no aerodynamic moment act in the tick. *)
Definition no_aero_load (i : TickInput) : Prop :=
  tick_Faero i = vzero ∧ tick_Maero i = vzero.

(** The state that [land] leaves: on the ground, at rest, in the initial
    attitude. *)
Definition landed (s : State) : Prop :=
  v2 (position s) = 0 ∧ linearVel s = vzero ∧ angularVel s = vzero
  ∧ attitude s = initialAttitude s.

(** What a block of [calculateNewState] leaves alone among the fields that
    the ground test and the later blocks read. *)
Definition same_motion (s s' : State) : Prop :=
  initialAttitude s' = initialAttitude s
  ∧ attitude s' = attitude s ∧ angularVel s' = angularVel s
  ∧ linearVel s' = linearVel s ∧ position s' = position s.

(** Sample ticks: one with no command and no load, one with no command under
    an aerodynamic force that points up, both with the step of the unit
    tests. *)
Definition rest_input : TickInput := {|
  tick_Maero := vzero;
  tick_Faero := vzero;
  tick_actuator := replicate 8 0;
  tick_dt := 0.0025;
  tick_thrust0 := Arr5 0 0 0 0 0;
  tick_torque0 := Arr5 0 0 0 0 0 |}.

Definition lift_input : TickInput := {|
  tick_Maero := vzero;
  tick_Faero := V3 0 0 (-1000);
  tick_actuator := replicate 8 0;
  tick_dt := 0.0025;
  tick_thrust0 := Arr5 0 0 0 0 0;
  tick_torque0 := Arr5 0 0 0 0 0 |}.

(** A tick with no command, under an aerodynamic moment and an aerodynamic
    force of 50 N, which is less than the weight of the sample vehicle. *)
Definition moment_input : TickInput := {|
  tick_Maero := V3 1 2 3;
  tick_Faero := V3 30 0 (-40);
  tick_actuator := replicate 8 0;
  tick_dt := 0.0025;
  tick_thrust0 := Arr5 0 0 0 0 0;
  tick_torque0 := Arr5 0 0 0 0 0 |}.

(** The initial attitude of the unit test
    [calculateNewStateFirstCaseOnlyAttitude], set as the test sets it. *)
Definition tilted_state : State :=
  setInitialPosition sample_state vzero (Quat 1 0.2 0.10 0.05).

(** ** More of the simulator: wind setting and the IMU read-out *)

Definition setWindParameter (s : State) (windMeanVelocity : Vector3d) (windVariance_in : R)
    : State :=
  s <| windVelocity := windMeanVelocity |> <| windVariance := windVariance_in |>.

(** [q.inverse()]: the conjugate over the squared norm, and the zero
    quaternion when the squared norm is not positive. *)
Definition qinverse (q : Quaterniond) : Quaterniond :=
  let n2 := qsquaredNorm q in
  if Rlt_dec 0 n2
  then Quat (qw q / n2) (- qx q / n2) (- qy q / n2) (- qz q / n2)
  else Quat 0 0 0 0.

(** [q * v], the rotation of a vector by a quaternion:
    [uv = q.vec().cross(v); uv += uv; return v + q.w() * uv + q.vec().cross(uv)]. *)
Definition qrotate (q : Quaterniond) (v : Vector3d) : Vector3d :=
  let vec := V3 (qx q) (qy q) (qz q) in
  let uv := cross vec v in
  let uv := vadd uv uv in
  vadd (vadd v (smul (qw q) uv)) (cross vec uv).

(** [getIMUMeasurement(accOutFrd, gyroOutFrd)]: the two reference results.
    The six draws of [distribution_(generator_)] are the arguments
    [accDraws] and [gyroDraws]. *)
Definition getIMUMeasurement (params_ : VtolParameters) (s : State)
    (accDraws gyroDraws : Vector3d) : Vector3d * Vector3d :=
  let specificForce := Fspecific s in
  let angularVelocity := angularVel s in
  let accNoise := V3 (sqrt (accVariance params_) * v0 accDraws)
                     (sqrt (accVariance params_) * v1 accDraws)
                     (sqrt (accVariance params_) * v2 accDraws) in
  let gyroNoise := V3 (sqrt (gyroVariance params_) * v0 gyroDraws)
                      (sqrt (gyroVariance params_) * v1 gyroDraws)
                      (sqrt (gyroVariance params_) * v2 gyroDraws) in
  let imuOrient := Quat 1 0 0 0 in
  (vadd (vadd (qrotate (qinverse imuOrient) specificForce) (accelBias s)) accNoise,
   vadd (vadd (qrotate (qinverse imuOrient) angularVelocity) (gyroBias s)) gyroNoise).

(** ** The fuel tank of [Sensors::publishStateToCommunicator]

    The rpm vector starts empty and is filled by [getMotorsRpm]; the static
    [fuelLevelPercentage] is the argument and the result:
    [if (motorsRpm.size() == 5 && motorsRpm[4] >= 1) { level -= 0.002;
    if (level < 0) level = 0; }]. *)
Definition fuel_level_update (s : State) (fuelLevelPercentage : R) : R :=
  let motorsRpm_loc := (getMotorsRpm s []).2 in
  if decide (length motorsRpm_loc = 5%nat ∧ motorsRpm_loc !!! 4%nat >= 1)
  then
    let fuelLevelPercentage := fuelLevelPercentage - 0.002 in
    if Rlt_dec fuelLevelPercentage 0 then 0 else fuelLevelPercentage
  else fuelLevelPercentage.

(** ** The node: the initial pose and one round of the dynamics loop *)

(** The end of [Uav_Dynamics::initDynamicsSimulator]: the seven numbers of
    [init_pose] are read with [at], which throws when the index is out of
    range ([None]); the quaternion, stored as x, y, z, w behind the position,
    is normalised before [setInitialPosition]. *)
Definition initDynamicsSimulator_pose (initPose_ : list R) (s : State) : option State :=
  p0 ← initPose_ !! 0%nat;
  p1 ← initPose_ !! 1%nat;
  p2 ← initPose_ !! 2%nat;
  q6 ← initPose_ !! 6%nat;
  q3 ← initPose_ !! 3%nat;
  q4 ← initPose_ !! 4%nat;
  q5 ← initPose_ !! 5%nat;
  let initPosition := V3 p0 p1 p2 in
  let initAttitude := qnormalize (Quat q6 q3 q4 q5) in
  Some (setInitialPosition s initPosition initAttitude).

(** What one round of [Uav_Dynamics::proceedDynamics] reads: the members set
    by the callbacks, the measured time since the last armed round, and the
    random draws and unspecified local contents that [process] takes. *)
Record LoopInput := {
  loop_calibrationType : CalibrationType_t;
  loop_armed : bool;
  loop_time_dif_sec : R;
  loop_actuators : list R;
  loop_noise : Vector3d;
  loop_polynomialCoeffs0 : list R;
  loop_thrust0 : array5 R;
  loop_torque0 : array5 R }.

(** One round of the loop of [proceedDynamics], up to the publication of the
    state: calibration when a calibration type is set, the whole pipeline when
    armed, with the measured time cut at ten periods, and [land] otherwise.
    The simulator is its state with the static of [calibrate]; the counters,
    the throttled log line and the sleep are left out. *)
Definition proceedDynamics_round (params_ : VtolParameters) (tables_ : TablesWithCoeffs)
    (periodSec : R) (sim : State * CalibrationType_t) (i : LoopInput)
    : State * CalibrationType_t * list string :=
  if decide (loop_calibrationType i ≠ WORK_MODE) then
    let r := calibrate params_ sim.2 (loop_calibrationType i) sim.1 in
    (r.1.1, r.1.2, [])
  else if loop_armed i then
    let MAX_TIME_DIFF_SEC := 10 * periodSec in
    let time_dif_sec :=
      if decide (loop_time_dif_sec i > MAX_TIME_DIFF_SEC)
      then MAX_TIME_DIFF_SEC else loop_time_dif_sec i in
    let r := process params_ tables_ sim.1 time_dif_sec (loop_actuators i) true
               (loop_noise i) (loop_polynomialCoeffs0 i)
               (loop_thrust0 i) (loop_torque0 i) in
    (r.1, sim.2, r.2)
  else (land params_ sim.1, sim.2, []).

(** A run of rounds; the lines written are dropped. *)
Definition proceedDynamics_run (params_ : VtolParameters) (tables_ : TablesWithCoeffs)
    (periodSec : R) (sim : State * CalibrationType_t) (inputs : list LoopInput)
    : State * CalibrationType_t :=
  foldl (λ sim i, (proceedDynamics_round params_ tables_ periodSec sim i).1) sim inputs.

(** The attitude and the stored initial attitude both have norm one. *)
Definition unit_attitudes (s : State) : Prop :=
  qsquaredNorm (attitude s) = 1 ∧ qsquaredNorm (initialAttitude s) = 1.

(** Three rounds: a calibration, an armed round and a disarmed one. *)
Definition sample_rounds : list LoopInput :=
  [ {| loop_calibrationType := MAG_1_NORMAL; loop_armed := false;
       loop_time_dif_sec := 0.0025; loop_actuators := replicate 8 0;
       loop_noise := vzero; loop_polynomialCoeffs0 := replicate 7 0;
       loop_thrust0 := Arr5 0 0 0 0 0; loop_torque0 := Arr5 0 0 0 0 0 |};
    {| loop_calibrationType := WORK_MODE; loop_armed := true;
       loop_time_dif_sec := 1; loop_actuators := replicate 8 0.5;
       loop_noise := vzero; loop_polynomialCoeffs0 := replicate 7 0;
       loop_thrust0 := Arr5 0 0 0 0 0; loop_torque0 := Arr5 0 0 0 0 0 |};
    {| loop_calibrationType := WORK_MODE; loop_armed := false;
       loop_time_dif_sec := 0.0025; loop_actuators := replicate 8 0;
       loop_noise := vzero; loop_polynomialCoeffs0 := replicate 7 0;
       loop_thrust0 := Arr5 0 0 0 0 0; loop_torque0 := Arr5 0 0 0 0 0 |} ].

(** ** The mixers *)

Lemma clamp_zero_unit : clamp 0.0 (-1.0) 1.0 = 0.0.
Proof.
  unfold clamp.
  destruct (Rlt_dec 0.0 (-1.0)) as [H|_]; [lra|].
  destruct (Rlt_dec 1.0 0.0) as [H|_]; [lra|reflexivity].
Qed.

(** C7: a command vector whose size is not 8 comes back unchanged from both
    mixers, after one line about the wrong size has been written to
    [std::cerr]. *)
Theorem mixers_pass_wrong_size_through (params_ : VtolParameters) (cmd : list R) :
  length cmd ≠ 8%nat →
  mapCmdToActuatorStandardVTOL params_ cmd = (cmd, [wrong_control_size (length cmd)])
  ∧ mapCmdToActuatorInnoVTOL params_ cmd = (cmd, [wrong_control_size (length cmd)]).
Proof.
  intros Hlen.
  unfold mapCmdToActuatorStandardVTOL, mapCmdToActuatorInnoVTOL.
  destruct (decide (length cmd ≠ 8%nat)) as [_|Hn]; [split; reflexivity|].
  contradiction.
Qed.

(** C10: for a command vector of size 8 the differential-surface mixer
    returns a vector of size 8 whose rudder channel, index 7, is 0, and it
    writes nothing to [std::cerr]. *)
Theorem standard_vtol_rudder_is_zero (params_ : VtolParameters) (cmd : list R) :
  length cmd = 8%nat →
  length (actuatorMax params_) = 8%nat →
  length (actuatorMin params_) = 8%nat →
  let out := mapCmdToActuatorStandardVTOL params_ cmd in
  out.2 = [] ∧ length out.1 = 8%nat ∧ out.1 !!! 7%nat = 0.
Proof.
  intros Hlen _ _.
  do 9 (destruct cmd as [|? cmd]; try discriminate Hlen). clear Hlen.
  unfold mapCmdToActuatorStandardVTOL.
  destruct (decide _) as [Hn|_]; [exfalso; apply Hn; reflexivity|].
  cbn -[clamp Rge_dec].
  split; [reflexivity|]. split; [reflexivity|].
  rewrite clamp_zero_unit. lra.
Qed.

(** ** The rpm accessor *)

(** C9: [getMotorsRpm] returns [true] and appends the five rpm values, in the
    order of their indices, to the vector it is given; what the vector held
    before stays in front. *)
Theorem getMotorsRpm_appends_five (s : State) (v : list R) :
  let out := getMotorsRpm s v in
  out.1 = true
  ∧ out.2 = v ++ [aget (motorsRpm s) 0; aget (motorsRpm s) 1; aget (motorsRpm s) 2;
                  aget (motorsRpm s) 3; aget (motorsRpm s) 4]
  ∧ length out.2 = (length v + 5)%nat
  ∧ take (length v) out.2 = v.
Proof.
  unfold getMotorsRpm. cbn [fst snd].
  rewrite <- !app_assoc. cbn [app].
  split; [reflexivity|]. split; [reflexivity|]. split.
  - rewrite length_app. reflexivity.
  - rewrite take_app_length. reflexivity.
Qed.

(** ** Dynamic pressure *)

(** C5, as the code has it: [calculateDynamicPressure] returns air density
    times the squared air speed times the wing area, which is twice the
    dynamic pressure times the wing area; the factor one half is not in the
    returned value.  It is applied by the caller, [calculateAerodynamics],
    once for the force and once for the moment: the aerodynamic force is one
    half of the returned value times [FL + FS + FD], the aerodynamic moment
    one half of it times the characteristic length times [(Mx, My, Mz)]. *)
Theorem dynamic_pressure_without_half (params_ : VtolParameters)
    (tables_ : TablesWithCoeffs) (s : State) (airspeed_v : Vector3d)
    (AoA_rad AoS_rad aileron_pos elevator_pos rudder_pos : R)
    (polynomialCoeffs0 : list R) (V : R) :
  calculateDynamicPressure params_ V = atmoRho params_ * V ^ 2 * wingArea params_
  ∧ calculateDynamicPressure params_ V
    = 2 * (0.5 * atmoRho params_ * V ^ 2 * wingArea params_)
  ∧ (let r := calculateAerodynamics params_ tables_ s airspeed_v AoA_rad AoS_rad
                aileron_pos elevator_pos rudder_pos polynomialCoeffs0 in
     let coefficients := aerodynamic_coefficients tables_ airspeed_v AoA_rad AoS_rad
                           aileron_pos elevator_pos rudder_pos polynomialCoeffs0 in
     let returned := calculateDynamicPressure params_ (vnorm airspeed_v) in
     r.1.2 = smul (0.5 * returned) coefficients.1
     ∧ r.2 = smul (0.5 * returned * characteristicLength params_) coefficients.2
     ∧ r.1.2 = smul (0.5 * (atmoRho params_ * vnorm airspeed_v ^ 2 * wingArea params_))
                    coefficients.1).
Proof.
  split; [unfold calculateDynamicPressure; lra|].
  split; [unfold calculateDynamicPressure; lra|].
  cbn zeta. split; [reflexivity|]. split; [reflexivity|].
  - replace (atmoRho params_ * vnorm airspeed_v ^ 2 * wingArea params_)
      with (calculateDynamicPressure params_ (vnorm airspeed_v))
      by (unfold calculateDynamicPressure; lra).
    reflexivity.
Qed.

(** ** The actuator lag *)

(** C1, as the code has it: for a channel [idx] below 8, one call of
    [updateActuators] turns the target [t] into
    [t + (p - t) * (1 - 2.71 ^ (- dt / tau))], where [p] is the filtered value
    that was current before the call and the base of the power is the literal
    2.71; the gap is [p - t], in that order.  The filtered value is stored as
    the current one, and the vector that was current before the call becomes
    the previous one. *)
Theorem updateActuators_lag (tables_ : TablesWithCoeffs) (s : State) (cmd : list R)
    (dtSecs : R) (idx : nat) :
  length cmd = 8%nat →
  length (crntActuators s) = 8%nat →
  length (actuatorTimeConstants tables_) = 8%nat →
  (idx < 8)%nat →
  0 < dtSecs →
  0 < actuatorTimeConstants tables_ !!! idx →
  let p := crntActuators s !!! idx in
  let t := cmd !!! idx in
  let tau := actuatorTimeConstants tables_ !!! idx in
  let out := updateActuators tables_ s cmd dtSecs in
  out.2 !!! idx = t + (p - t) * (1 - Rpower 2.71 (- dtSecs / tau))
  ∧ crntActuators out.1 !!! idx = out.2 !!! idx
  ∧ prevActuators out.1 = crntActuators s.
Proof.
  intros Hcmd Hcrnt Htau Hidx _ _.
  destruct s; destruct tables_; cbn [crntActuators actuatorTimeConstants] in *.
  do 9 (destruct cmd as [|? cmd]; try discriminate Hcmd).
  do 9 (destruct crntActuators0 as [|? crntActuators0]; try discriminate Hcrnt).
  do 9 (destruct actuatorTimeConstants0 as [|? actuatorTimeConstants0];
        try discriminate Htau).
  clear Hcmd Hcrnt Htau.
  do 8 (destruct idx as [|idx]; [cbn; unfold cmath.pow; repeat split; lra|]).
  lia.
Qed.

(** ** Quaternions *)

Lemma qsquaredNorm_nonneg (q : Quaterniond) : 0 <= qsquaredNorm q.
Proof. unfold qsquaredNorm. nra. Qed.

(** The first-order update multiplies the squared norm by a factor that is at
    least one. *)
Lemma qsquaredNorm_first_order (q : Quaterniond) (a b c k1 k2 : R) :
  qsquaredNorm (qaddscaled q (qmul q (Quat 0 a b c)) k1 k2)
  = qsquaredNorm q * (1 + (k1 * k2) ^ 2 * (a * a + b * b + c * c)).
Proof. unfold qsquaredNorm, qaddscaled, qmul. cbn. ring. Qed.

Lemma qsquaredNorm_first_order_pos (q : Quaterniond) (a b c k1 k2 : R) :
  0 < qsquaredNorm q →
  0 < qsquaredNorm (qaddscaled q (qmul q (Quat 0 a b c)) k1 k2).
Proof.
  intros Hq. rewrite qsquaredNorm_first_order.
  apply Rmult_lt_0_compat; [exact Hq|]. nra.
Qed.

Lemma qnorm_qnormalize (q : Quaterniond) :
  0 < qsquaredNorm q → qnorm (qnormalize q) = 1.
Proof.
  intros Hq. unfold qnorm, qnormalize.
  destruct (Rlt_dec 0 (qsquaredNorm q)) as [_|Hn]; [|contradiction].
  set (n := sqrt (qsquaredNorm q)).
  assert (Hn : 0 < n) by (apply sqrt_lt_R0; exact Hq).
  assert (Hnn : qsquaredNorm q = n * n) by (symmetry; apply sqrt_sqrt; lra).
  replace (qsquaredNorm _) with 1; [apply sqrt_1|].
  unfold qsquaredNorm at 1. cbn [qw qx qy qz].
  replace (qw q / n * (qw q / n) + qx q / n * (qx q / n) + qy q / n * (qy q / n)
           + qz q / n * (qz q / n))
    with (qsquaredNorm q / (n * n)) by (unfold qsquaredNorm; field; lra).
  rewrite Hnn. field. lra.
Qed.

Lemma qnormalize_unit (q : Quaterniond) : qsquaredNorm q = 1 → qnormalize q = q.
Proof.
  intros Hq. unfold qnormalize. rewrite Hq, sqrt_1.
  destruct (Rlt_dec 0 1) as [_|Hn]; [|lra].
  destruct q as [w x y z]. cbn. f_equal; lra.
Qed.

Lemma attitude_step_unit (dt : R) (q : Quaterniond) (w : Vector3d) :
  0 < qsquaredNorm q → qnorm (attitude_step dt q w) = 1.
Proof.
  intros Hq. unfold attitude_step.
  apply qnorm_qnormalize, qsquaredNorm_first_order_pos, Hq.
Qed.

(** At zero angular velocity the step only renormalises. *)
Lemma attitude_step_at_rest (dt : R) (q : Quaterniond) :
  attitude_step dt q vzero = qnormalize q.
Proof.
  unfold attitude_step. f_equal.
  destruct q as [w x y z]. unfold qaddscaled, qmul. cbn. f_equal; ring.
Qed.

(** ** Calibration *)

Lemma calibrate_attitude (params_ : VtolParameters)
    (prevCalibrationType calType : CalibrationType_t) (s : State) :
  attitude (calibrate params_ prevCalibrationType calType s).1.1
  = attitude_step DELTA_TIME (calibration_start prevCalibrationType calType s)
      (angularVel (calibrate params_ prevCalibrationType calType s).1.1).
Proof.
  unfold calibrate, calibration_start, calibrate_switch, attitude_on_entry.
  destruct calType; cbn [attitude_policy];
    try (destruct (decide (prevCalibrationType ≠ _))); reflexivity.
Qed.

Lemma calibration_start_pos (prevCalibrationType calType : CalibrationType_t) (s : State) :
  0 < qsquaredNorm (attitude s) →
  0 < qsquaredNorm (calibration_start prevCalibrationType calType s).
Proof.
  intros Hs. unfold calibration_start.
  destruct calType; cbn [attitude_policy];
    try (destruct (decide (prevCalibrationType ≠ _)));
    try exact Hs; unfold qsquaredNorm; cbn; lra.
Qed.

(** C8, as the code has it: the attitude that the step of [calibrate] starts
    from is the fixed quaternion of the mode on the call that enters the mode,
    and the attitude of the state on every later call, for the first six
    magnetometer modes and the six accelerometer modes; the airspeed mode (as
    the work mode) assigns its fixed quaternion on every call, and the last
    three magnetometer modes (as an unlisted value) never assign one.  From
    there the attitude changes by one step of size [DELTA_TIME], and the mode
    is recorded. *)
Theorem calibrate_attitude_assignment (params_ : VtolParameters)
    (prevCalibrationType calType : CalibrationType_t) (s : State) :
  let r := calibrate params_ prevCalibrationType calType s in
  attitude r.1.1
  = attitude_step DELTA_TIME
      (match attitude_policy calType with
       | assigned_on_entry q =>
           if decide (prevCalibrationType ≠ calType) then q else attitude s
       | assigned_on_every_call q => q
       | never_assigned => attitude s
       end)
      (angularVel r.1.1)
  ∧ r.1.2 = calType
  ∧ r.2 = 1%Z.
Proof.
  cbn zeta. split; [apply calibrate_attitude|]. split; [|reflexivity].
  unfold calibrate. cbn [fst snd].
  destruct (decide (prevCalibrationType ≠ calType)) as [_|Heq]; [reflexivity|].
  destruct (decide (prevCalibrationType = calType)) as [->|Hne]; [reflexivity|].
  contradiction.
Qed.

(** ** Counted loops *)

Lemma for_range_S {A : Type} (n : nat) (body : nat → A → A) (init : A) :
  for_range 0 (S n) body init = body n (for_range 0 n body init).
Proof.
  unfold for_range. rewrite !Nat.sub_0_r, seq_S, foldl_snoc. reflexivity.
Qed.

(** A loop that writes [f i] at every index [i] below [n]. *)
Lemma for_range_insert (f : nat → R) (n : nat) (l : list R) :
  let r := for_range 0 n (λ i l, <[i := f i]> l) l in
  length r = length l
  ∧ (∀ i, (i < n)%nat → (i < length l)%nat → r !!! i = f i)
  ∧ (∀ i, (n ≤ i)%nat → r !!! i = l !!! i).
Proof.
  induction n as [|n IH]; cbn zeta.
  - split; [reflexivity|]. split; [intros i Hi; lia|reflexivity].
  - rewrite for_range_S. cbn zeta in IH. destruct IH as (Hlen & Hlt & Hge).
    split; [rewrite length_insert; exact Hlen|]. split.
    + intros i Hi Hil. destruct (decide (i = n)) as [->|Hne].
      * apply list_lookup_total_insert_eq. rewrite Hlen. exact Hil.
      * rewrite list_lookup_total_insert_ne by congruence. apply Hlt; lia.
    + intros i Hi. rewrite list_lookup_total_insert_ne by lia. apply Hge. lia.
Qed.

(** ** The polynomial tables *)

(** C4, as the code has it: [calculatePolynomialUsingTable] returns [false]
    and leaves the coefficient vector as it was when the table has fewer than
    2 columns or fewer than 2 rows, when the coefficient vector is shorter
    than the number of columns less one, when the row found has no next row,
    or when the two breakpoints differ by less than 0.001 in absolute value.
    Otherwise it returns [true], every coefficient below the number of columns
    less one is the linear interpolation of the two rows, and the entries
    behind them are left as they were. *)
Theorem polynomial_table_interpolation (table : MatrixXd) (airSpeedMod : R)
    (polynomialCoeffs : list R) :
  let prevRowIdx := findPrevRowIdxInMonotonicSequence table airSpeedMod in
  let nextRowIdx := (prevRowIdx + 1)%nat in
  let airspeedStep := coeff table nextRowIdx 0 - coeff table prevRowIdx 0 in
  let delta := (airSpeedMod - coeff table prevRowIdx 0) / airspeedStep in
  let rejected :=
    (cols table < 2)%nat ∨ (rows table < 2)%nat
    ∨ (length polynomialCoeffs < cols table - 1)%nat
    ∨ (rows table < prevRowIdx + 2)%nat
    ∨ Rabs airspeedStep < 0.001 in
  let r := calculatePolynomialUsingTable table airSpeedMod polynomialCoeffs in
  (rejected → r = (false, polynomialCoeffs))
  ∧ (¬ rejected →
       r.1 = true
       ∧ length r.2 = length polynomialCoeffs
       ∧ (∀ i, (i < cols table - 1)%nat →
            r.2 !!! i = coeff table prevRowIdx (i + 1)
                        + delta * (coeff table nextRowIdx (i + 1)
                                   - coeff table prevRowIdx (i + 1)))
       ∧ (∀ i, (cols table - 1 ≤ i)%nat → r.2 !!! i = polynomialCoeffs !!! i)).
Proof.
  cbn zeta. unfold calculatePolynomialUsingTable.
  destruct (decide _) as [Hbad|Hok].
  { split; [reflexivity|]. intros Hn. exfalso. apply Hn. tauto. }
  destruct (decide _) as [Hrow|Hrow].
  { split; [reflexivity|]. intros Hn. exfalso. apply Hn. tauto. }
  destruct (Rlt_dec _ _) as [Hstep|Hstep].
  { split; [reflexivity|]. intros Hn. exfalso. apply Hn. tauto. }
  split.
  { intros [H|[H|[H|[H|H]]]]; exfalso; tauto. }
  intros _. cbn [fst snd].
  pose proof (for_range_insert
    (λ i, Math.lerp (coeff table (findPrevRowIdxInMonotonicSequence table airSpeedMod) (i + 1))
            (coeff table (findPrevRowIdxInMonotonicSequence table airSpeedMod + 1) (i + 1))
            ((airSpeedMod - coeff table (findPrevRowIdxInMonotonicSequence table airSpeedMod) 0)
             / (coeff table (findPrevRowIdxInMonotonicSequence table airSpeedMod + 1) 0
                - coeff table (findPrevRowIdxInMonotonicSequence table airSpeedMod) 0)))
    (cols table - 1) polynomialCoeffs) as (Hlen & Hlt & Hge).
  split; [reflexivity|]. split; [exact Hlen|]. split.
  - intros i Hi. rewrite Hlt; [reflexivity|exact Hi|lia].
  - exact Hge.
Qed.

(** ** The control derivatives *)

(** C6: in [calculateAerodynamics] the elevator derivative is the value of
    the table [CmyElevator] at the absolute value of the elevator position
    and the clamped air speed, and it is multiplied by the signed position;
    the aileron and the rudder derivatives are the values of [CmxAileron] and
    [CmzRudder] at the positions as they are.  The value of a table is the
    interpolation between the four entries of the cell that the row search
    finds over the actuator and the air speed breakpoints.  The three
    products, scaled, are stored in [Msteer], and the aerodynamic moment is
    their sum with the moment of the polynomials; so the share of the elevator
    in the pitch moment changes its sign with the elevator position. *)
Theorem control_derivative_lookups (params_ : VtolParameters) (tables_ : TablesWithCoeffs)
    (s : State) (airspeed_v : Vector3d)
    (AoA_rad AoS_rad aileron_pos elevator_pos rudder_pos : R)
    (polynomialCoeffs0 : list R) :
  let r := calculateAerodynamics params_ tables_ s airspeed_v AoA_rad AoS_rad
             aileron_pos elevator_pos rudder_pos polynomialCoeffs0 in
  let r_opposite := calculateAerodynamics params_ tables_ s airspeed_v AoA_rad AoS_rad
                      aileron_pos (- elevator_pos) rudder_pos polynomialCoeffs0 in
  let airspeedModClamped := clamp (vnorm airspeed_v) 5 40 in
  let k := 0.5 * calculateDynamicPressure params_ (vnorm airspeed_v)
           * characteristicLength params_ in
  let x := actuator tables_ in
  let y := airspeed tables_ in
  let y1 := findPrevRowIdxInMonotonicSequence y airspeedModClamped in
  let y2 := (y1 + 1)%nat in
  let table_value (z : MatrixXd) (pos : R) : R :=
    let x1 := findPrevRowIdxInMonotonicSequence x pos in
    let x2 := (x1 + 1)%nat in
    let along_x (row : nat) : R :=
      ((coeff1 x x2 - pos) * coeff z row x1 + (pos - coeff1 x x1) * coeff z row x2)
      / (coeff1 x x2 - coeff1 x x1) in
    ((coeff1 y y2 - airspeedModClamped) * along_x y1
     + (airspeedModClamped - coeff1 y y1) * along_x y2)
    / (coeff1 y y2 - coeff1 y y1) in
  Msteer r.1.1
  = vscale (V3 (table_value (CmxAileron tables_) aileron_pos * aileron_pos)
               (table_value (CmyElevator tables_) (Rabs elevator_pos) * elevator_pos)
               (table_value (CmzRudder tables_) rudder_pos * rudder_pos)) k
  ∧ r.2 = vadd (Mairspeed r.1.1) (Msteer r.1.1)
  ∧ v1 (Msteer r_opposite.1.1) = - v1 (Msteer r.1.1).
Proof.
  cbn zeta.
  assert (Hsteer : ∀ e,
            Msteer (calculateAerodynamics params_ tables_ s airspeed_v AoA_rad AoS_rad
                      aileron_pos e rudder_pos polynomialCoeffs0).1.1
            = vscale (V3 (calculateCmxAileron tables_ aileron_pos
                            (clamp (vnorm airspeed_v) 5 40) * aileron_pos)
                         (calculateCmyElevator tables_ (Rabs e)
                            (clamp (vnorm airspeed_v) 5 40) * e)
                         (calculateCmzRudder tables_ rudder_pos
                            (clamp (vnorm airspeed_v) 5 40) * rudder_pos))
                     (0.5 * calculateDynamicPressure params_ (vnorm airspeed_v)
                      * characteristicLength params_)).
  { intros e. unfold calculateAerodynamics. destruct s.
    cbn -[clamp vnorm calculateDynamicPressure calculateCmxAileron calculateCmyElevator
          calculateCmzRudder calculateCmxPolynomial calculateCmyPolynomial
          calculateCmzPolynomial Math.polyval].
    reflexivity. }
  split_and!.
  - rewrite Hsteer. reflexivity.
  - unfold calculateAerodynamics. destruct s.
    cbn -[clamp vnorm calculateDynamicPressure calculateCmxAileron calculateCmyElevator
          calculateCmzRudder calculateCmxPolynomial calculateCmyPolynomial
          calculateCmzPolynomial Math.polyval].
    unfold smul, vscale, vadd, constant. cbn [v0 v1 v2]. f_equal; ring.
  - rewrite !Hsteer. unfold vscale. cbn [v0 v1 v2]. rewrite Rabs_Ropp. ring.
Qed.

(** ** The rigid-body step, block by block *)

Section Integrator.

Variables (params_ : VtolParameters) (tables_ : TablesWithCoeffs).

Lemma run_thrusters_fields (s : State) (actuator_in : list R) (thrust0 torque0 : array5 R) :
  let thruster_out (idx : nat) :=
    thruster tables_ (actuator_in !!! idx)
             (aget thrust0 idx, aget torque0 idx, aget (motorsRpm s) idx) in
  let r := run_thrusters tables_ actuator_in thrust0 torque0 s in
  r.1.1 = Arr5 (thruster_out 0%nat).1.1 (thruster_out 1%nat).1.1 (thruster_out 2%nat).1.1
               (thruster_out 3%nat).1.1 (thruster_out 4%nat).1.1
  ∧ r.1.2 = Arr5 (thruster_out 0%nat).1.2 (thruster_out 1%nat).1.2 (thruster_out 2%nat).1.2
                 (thruster_out 3%nat).1.2 (thruster_out 4%nat).1.2
  ∧ same_motion s r.2.
Proof. destruct s. repeat split; reflexivity. Qed.

Lemma motor_forces_fields (s : State) (thrust : array5 R) :
  Fmotors (motor_forces thrust s)
  = Arr5 (V3 0 0 (- a0 thrust)) (V3 0 0 (- a1 thrust)) (V3 0 0 (- a2 thrust))
         (V3 0 0 (- a3 thrust)) (V3 (a4 thrust) 0 0)
  ∧ same_motion s (motor_forces thrust s).
Proof. destruct s. repeat split; reflexivity. Qed.

Lemma motor_moments_fields (s : State) (torque : array5 R) :
  let s' := motor_moments params_ torque s in
  Mmotors s'
  = Arr5 (vadd (V3 0 0 (a0 torque))
               (cross (a0 (propellersLocation params_)) (a0 (Fmotors s))))
         (vadd (V3 0 0 (a1 torque))
               (cross (a1 (propellersLocation params_)) (a1 (Fmotors s))))
         (vadd (V3 0 0 (- a2 torque))
               (cross (a2 (propellersLocation params_)) (a2 (Fmotors s))))
         (vadd (V3 0 0 (- a3 torque))
               (cross (a3 (propellersLocation params_)) (a3 (Fmotors s))))
         (vadd (V3 (- a4 torque) 0 0)
               (cross (a4 (propellersLocation params_)) (a4 (Fmotors s))))
  ∧ Fmotors s' = Fmotors s
  ∧ same_motion s s'.
Proof. destruct s. repeat split; reflexivity. Qed.

Lemma integrate_rotation_fields (s : State) (Maero_in : Vector3d) (dt_sec : R) :
  let r := integrate_rotation params_ Maero_in dt_sec s in
  r.2 = foldl vadd Maero_in (ato_list (Mmotors s))
  ∧ angularAccel r.1 = calculateAngularAccel (inertia params_) r.2 (angularVel s)
  ∧ angularVel r.1 = vadd (angularVel s) (vscale (angularAccel r.1) dt_sec)
  ∧ attitude r.1 = attitude_step dt_sec (attitude s) (angularVel r.1)
  ∧ initialAttitude r.1 = initialAttitude s
  ∧ linearVel r.1 = linearVel s ∧ position r.1 = position s
  ∧ Fmotors r.1 = Fmotors s ∧ Mmotors r.1 = Mmotors s.
Proof. destruct s. repeat split; reflexivity. Qed.

Lemma integrate_translation_fields (s : State) (Faero_in Mtot : Vector3d) (dt_sec : R) :
  let r := integrate_translation params_ Faero_in Mtot dt_sec s in
  r.2 = calculateRotationMatrix s
  ∧ r.1.2 = vdiv (foldl vadd Faero_in (ato_list (Fmotors s))) (mass params_)
  ∧ Ftotal r.1.1
    = vscale (vadd r.1.2 (mulv r.2 (V3 0 0 (gravity params_)))) (mass params_)
  ∧ Mtotal r.1.1 = Mtot
  ∧ linearAccel r.1.1 = vdiv (mulv (inverse r.2) (Ftotal r.1.1)) (mass params_)
  ∧ linearVel r.1.1 = vadd (linearVel s) (vscale (linearAccel r.1.1) dt_sec)
  ∧ position r.1.1 = vadd (position s) (vscale (linearVel r.1.1) dt_sec)
  ∧ initialAttitude r.1.1 = initialAttitude s
  ∧ attitude r.1.1 = attitude s ∧ angularVel r.1.1 = angularVel s
  ∧ angularAccel r.1.1 = angularAccel s
  ∧ Fmotors r.1.1 = Fmotors s ∧ Mmotors r.1.1 = Mmotors s.
Proof. destruct s. repeat split; reflexivity. Qed.

(** The equations that one pass through [integrateState] establishes between
    the fields of the state it returns. *)
Lemma integrateState_equations (s : State) (Maero_in Faero_in : Vector3d)
    (actuator_in : list R) (dt_sec : R) (thrust0 torque0 : array5 R) :
  let integrated :=
    integrateState params_ tables_ s Maero_in Faero_in actuator_in dt_sec
                   thrust0 torque0 in
  let thruster_out (idx : nat) :=
    thruster tables_ (actuator_in !!! idx)
             (aget thrust0 idx, aget torque0 idx, aget (motorsRpm s) idx) in
  initialAttitude integrated.1.1 = initialAttitude s
  ∧ Fmotors integrated.1.1
    = Arr5 (V3 0 0 (- (thruster_out 0%nat).1.1)) (V3 0 0 (- (thruster_out 1%nat).1.1))
           (V3 0 0 (- (thruster_out 2%nat).1.1)) (V3 0 0 (- (thruster_out 3%nat).1.1))
           (V3 (thruster_out 4%nat).1.1 0 0)
  ∧ Mmotors integrated.1.1
    = Arr5 (vadd (V3 0 0 (thruster_out 0%nat).1.2)
                 (cross (a0 (propellersLocation params_)) (a0 (Fmotors integrated.1.1))))
           (vadd (V3 0 0 (thruster_out 1%nat).1.2)
                 (cross (a1 (propellersLocation params_)) (a1 (Fmotors integrated.1.1))))
           (vadd (V3 0 0 (- (thruster_out 2%nat).1.2))
                 (cross (a2 (propellersLocation params_)) (a2 (Fmotors integrated.1.1))))
           (vadd (V3 0 0 (- (thruster_out 3%nat).1.2))
                 (cross (a3 (propellersLocation params_)) (a3 (Fmotors integrated.1.1))))
           (vadd (V3 (- (thruster_out 4%nat).1.2) 0 0)
                 (cross (a4 (propellersLocation params_)) (a4 (Fmotors integrated.1.1))))
  ∧ Mtotal integrated.1.1 = foldl vadd Maero_in (ato_list (Mmotors integrated.1.1))
  ∧ angularAccel integrated.1.1
    = calculateAngularAccel (inertia params_) (Mtotal integrated.1.1) (angularVel s)
  ∧ angularVel integrated.1.1
    = vadd (angularVel s) (vscale (angularAccel integrated.1.1) dt_sec)
  ∧ attitude integrated.1.1
    = attitude_step dt_sec (attitude s) (angularVel integrated.1.1)
  ∧ integrated.2 = calculateRotationMatrix integrated.1.1
  ∧ integrated.1.2
    = vdiv (foldl vadd Faero_in (ato_list (Fmotors integrated.1.1))) (mass params_)
  ∧ Ftotal integrated.1.1
    = vscale (vadd integrated.1.2 (mulv integrated.2 (V3 0 0 (gravity params_))))
             (mass params_)
  ∧ linearAccel integrated.1.1
    = vdiv (mulv (inverse integrated.2) (Ftotal integrated.1.1)) (mass params_)
  ∧ linearVel integrated.1.1
    = vadd (linearVel s) (vscale (linearAccel integrated.1.1) dt_sec)
  ∧ position integrated.1.1
    = vadd (position s) (vscale (linearVel integrated.1.1) dt_sec).
Proof.
  cbn zeta. unfold integrateState.
  pose proof (run_thrusters_fields s actuator_in thrust0 torque0) as H1.
  cbn zeta in H1.
  set (t := run_thrusters tables_ actuator_in thrust0 torque0 s) in *.
  destruct H1 as (Hth & Htq & Hi1 & Ha1 & Hw1 & Hv1 & Hp1).
  pose proof (motor_forces_fields t.2 t.1.1) as (HF2 & Hi2 & Ha2 & Hw2 & Hv2 & Hp2).
  set (s2 := motor_forces t.1.1 t.2) in *.
  pose proof (motor_moments_fields s2 t.1.2) as H3. cbn zeta in H3.
  set (s3 := motor_moments params_ t.1.2 s2) in *.
  destruct H3 as (HM3 & HF3 & Hi3 & Ha3 & Hw3 & Hv3 & Hp3).
  pose proof (integrate_rotation_fields s3 Maero_in dt_sec) as H4. cbn zeta in H4.
  set (r4 := integrate_rotation params_ Maero_in dt_sec s3) in *.
  destruct H4 as (HM4 & Hacc4 & Hw4 & Ha4 & Hi4 & Hv4 & Hp4 & HF4 & HMm4).
  pose proof (integrate_translation_fields r4.1 Faero_in r4.2 dt_sec) as H5.
  cbn zeta in H5.
  set (r5 := integrate_translation params_ Faero_in r4.2 dt_sec r4.1) in *.
  destruct H5 as (HR5 & HFs5 & HFt5 & HMt5 & Hla5 & Hv5 & Hp5 & Hi5 & Ha5 & Hw5
                  & Hacc5 & HF5 & HMm5).
  clearbody t s2 s3 r4 r5.
  assert (HF : Fmotors r5.1.1
               = Arr5 (V3 0 0 (- a0 t.1.1)) (V3 0 0 (- a1 t.1.1)) (V3 0 0 (- a2 t.1.1))
                      (V3 0 0 (- a3 t.1.1)) (V3 (a4 t.1.1) 0 0)) by congruence.
  assert (HM : Mmotors r5.1.1 = Mmotors s3) by congruence.
  assert (HFs2 : Fmotors s2 = Fmotors r5.1.1) by congruence.
  split_and!.
  - congruence.
  - rewrite HF, Hth. reflexivity.
  - rewrite HM, HM3, HFs2, Htq. reflexivity.
  - rewrite HMt5, HM4, HM. reflexivity.
  - rewrite Hacc5, Hacc4, HMt5. congruence.
  - rewrite Hw5, Hw4, Hacc5. congruence.
  - rewrite Ha5, Ha4, Hw5. congruence.
  - rewrite HR5. unfold calculateRotationMatrix. rewrite Ha5. reflexivity.
  - rewrite HFs5, HF5. reflexivity.
  - exact HFt5.
  - exact Hla5.
  - rewrite Hv5. congruence.
  - rewrite Hp5. congruence.
Qed.

End Integrator.

(** ** Rotation matrices *)

Lemma determinant_transpose (m : Matrix3d) : determinant (transpose m) = determinant m.
Proof. destruct m. unfold determinant, transpose. cbn. ring. Qed.

(** A unit quaternion gives a matrix of determinant one. *)
Lemma determinant_toRotationMatrix_unit (q : Quaterniond) :
  qsquaredNorm q = 1 → determinant (toRotationMatrix q) = 1.
Proof.
  destruct q as [w x y z]. unfold qsquaredNorm, toRotationMatrix, determinant. cbn.
  intros Hq.
  replace (1 - (2 * y * y + 2 * z * z)) with (w * w + x * x - y * y - z * z) by lra.
  replace (1 - (2 * x * x + 2 * z * z)) with (w * w - x * x + y * y - z * z) by lra.
  replace (1 - (2 * x * x + 2 * y * y)) with (w * w - x * x - y * y + z * z) by lra.
  transitivity ((w * w + x * x + y * y + z * z) ^ 3); [ring|].
  rewrite Hq. ring.
Qed.

Lemma qsquaredNorm_qnormalize (q : Quaterniond) :
  0 < qsquaredNorm q → qsquaredNorm (qnormalize q) = 1.
Proof.
  intros Hq. pose proof (qnorm_qnormalize q Hq) as Hn. unfold qnorm in Hn.
  pose proof (qsquaredNorm_nonneg (qnormalize q)) as Hge.
  rewrite <- (sqrt_sqrt _ Hge), Hn. ring.
Qed.

(** After [normalize()] the rotation matrix has determinant one, also for the
    zero quaternion, which [normalize()] leaves alone and whose matrix is the
    identity. *)
Lemma determinant_rotation_normalized (q : Quaterniond) :
  determinant (transpose (toRotationMatrix (qnormalize q))) = 1.
Proof.
  rewrite determinant_transpose.
  destruct (Rlt_dec 0 (qsquaredNorm q)) as [Hpos|Hzero].
  - apply determinant_toRotationMatrix_unit, qsquaredNorm_qnormalize, Hpos.
  - unfold qnormalize. destruct (Rlt_dec 0 (qsquaredNorm q)) as [H|_]; [contradiction|].
    destruct q as [w x y z]. unfold qsquaredNorm in Hzero. cbn in Hzero.
    assert (w = 0 ∧ x = 0 ∧ y = 0 ∧ z = 0) as (-> & -> & -> & ->) by (repeat split; nra).
    unfold determinant, toRotationMatrix. cbn. ring.
Qed.

(** The product with the inverse undoes the product with the matrix. *)
Lemma inverse_mulv (m : Matrix3d) (v : Vector3d) :
  determinant m ≠ 0 → mulv (inverse m) (mulv m v) = v.
Proof.
  destruct m, v. unfold inverse, mulv, determinant. cbn. intros Hd.
  f_equal; field; exact Hd.
Qed.

Lemma mulv_vzero (m : Matrix3d) : mulv m vzero = vzero.
Proof. unfold mulv, vzero. cbn. f_equal; ring. Qed.

(** The linear acceleration of the step: the specific force turned back into
    the world frame, and gravity along the z axis. *)
Lemma linear_acceleration (rot : Matrix3d) (Fspec : Vector3d) (m g : R) :
  m ≠ 0 → determinant rot ≠ 0 →
  vdiv (mulv (inverse rot) (vscale (vadd Fspec (mulv rot (V3 0 0 g))) m)) m
  = vadd (mulv (inverse rot) Fspec) (V3 0 0 g).
Proof.
  destruct rot, Fspec. unfold inverse, mulv, determinant, vdiv, vscale, vadd. cbn.
  intros Hm Hd. f_equal; field; split; assumption.
Qed.

Lemma calculateAngularAccel_at_rest (inertia_m : Matrix3d) :
  calculateAngularAccel inertia_m vzero vzero = vzero.
Proof.
  unfold calculateAngularAccel, mulv, vsub, cross, vzero. cbn. f_equal; ring.
Qed.

(** ** Ground contact *)

Lemma land_fields (params_ : VtolParameters) (s : State) :
  let s' := land params_ s in
  linearVel s' = vzero ∧ angularVel s' = vzero
  ∧ attitude s' = initialAttitude s ∧ initialAttitude s' = initialAttitude s
  ∧ v2 (position s') = 0
  ∧ motorsRpm s' = Arr5 0 0 0 0 0
  ∧ Fspecific s' = V3 0 0 (- gravity params_).
Proof.
  destruct s. cbn. unfold constant, amap, vset2. cbn.
  split_and!; try reflexivity; [lra|f_equal; lra].
Qed.

Lemma store_sim_parameters_fields (rotationMatrix : Matrix3d) (s : State) :
  let s' := store_sim_parameters rotationMatrix s in
  linearVel s' = linearVel s ∧ angularVel s' = angularVel s
  ∧ attitude s' = attitude s ∧ initialAttitude s' = initialAttitude s
  ∧ position s' = position s ∧ motorsRpm s' = motorsRpm s
  ∧ Fspecific s' = Fspecific s.
Proof. destruct s. split_and!; reflexivity. Qed.

Lemma ground_contact_aloft (params_ : VtolParameters) (Fspecific_loc : Vector3d) (s : State) :
  v2 (position s) < 0 →
  let s' := ground_contact params_ Fspecific_loc s in
  linearVel s' = linearVel s ∧ angularVel s' = angularVel s
  ∧ attitude s' = attitude s ∧ initialAttitude s' = initialAttitude s
  ∧ position s' = position s ∧ motorsRpm s' = motorsRpm s
  ∧ Fspecific s' = Fspecific_loc.
Proof.
  intros Hz. unfold ground_contact.
  destruct (decide (v2 (position s) >= 0)) as [Hge|_]; [lra|].
  destruct s. split_and!; reflexivity.
Qed.

Section Contact.

Variables (params_ : VtolParameters) (tables_ : TablesWithCoeffs).

(** A tick whose integrated position is on or below the ground ends in
    [land]. *)
Lemma tick_on_ground (s : State) (i : TickInput) :
  v2 (integrated_position params_ tables_ s i) >= 0 →
  let s' := tick params_ tables_ s i in
  linearVel s' = vzero ∧ angularVel s' = vzero
  ∧ attitude s' = initialAttitude s ∧ initialAttitude s' = initialAttitude s
  ∧ v2 (position s') = 0
  ∧ motorsRpm s' = Arr5 0 0 0 0 0.
Proof.
  unfold integrated_position, tick, calculateNewState. intros Hz. cbn zeta.
  pose proof (integrateState_equations params_ tables_ s (tick_Maero i) (tick_Faero i)
                (tick_actuator i) (tick_dt i) (tick_thrust0 i) (tick_torque0 i)) as Heq.
  cbn zeta in Heq. destruct Heq as (Hinit & _).
  set (r := integrateState _ _ _ _ _ _ _ _ _) in *. clearbody r.
  pose proof (store_sim_parameters_fields r.2 (ground_contact params_ r.1.2 r.1.1))
    as (Hv & Hw & Ha & Hi & Hp & Hr & _).
  rewrite Hv, Hw, Ha, Hi, Hp, Hr.
  unfold ground_contact.
  destruct (decide (v2 (position r.1.1) >= 0)) as [_|Hlt]; [|contradiction].
  pose proof (land_fields params_ r.1.1) as (Hv' & Hw' & Ha' & Hi' & Hp' & Hr' & _).
  rewrite Hv', Hw', Ha', Hi', Hp', Hr', Hinit. split_and!; reflexivity.
Qed.

(** A tick whose integrated position is above the ground keeps the motion
    that was integrated. *)
Lemma tick_aloft (s : State) (i : TickInput) :
  v2 (integrated_position params_ tables_ s i) < 0 →
  let r := integrateState params_ tables_ s (tick_Maero i) (tick_Faero i)
             (tick_actuator i) (tick_dt i) (tick_thrust0 i) (tick_torque0 i) in
  let s' := tick params_ tables_ s i in
  linearVel s' = linearVel r.1.1 ∧ angularVel s' = angularVel r.1.1
  ∧ attitude s' = attitude r.1.1 ∧ position s' = position r.1.1.
Proof.
  unfold integrated_position, tick, calculateNewState. intros Hz. cbn zeta.
  set (r := integrateState _ _ _ _ _ _ _ _ _) in *. clearbody r.
  pose proof (store_sim_parameters_fields r.2 (ground_contact params_ r.1.2 r.1.1))
    as (Hv & Hw & Ha & Hi & Hp & Hr & _).
  pose proof (ground_contact_aloft params_ r.1.2 r.1.1 Hz)
    as (Hv' & Hw' & Ha' & Hi' & Hp' & Hr' & _).
  rewrite Hv, Hw, Ha, Hp, Hv', Hw', Ha', Hp'. split_and!; reflexivity.
Qed.

(** A tick that starts without angular velocity, with no thrust and no
    aerodynamic moment: the attitude is only renormalised, and the linear
    acceleration is the aerodynamic force over the mass, turned into the world
    frame, plus gravity. *)
Lemma unpowered_integrated_motion (s : State) (i : TickInput) :
  mass params_ ≠ 0 →
  angularVel s = vzero → zero_thrust tables_ i → tick_Maero i = vzero →
  let r := integrateState params_ tables_ s (tick_Maero i) (tick_Faero i)
             (tick_actuator i) (tick_dt i) (tick_thrust0 i) (tick_torque0 i) in
  let rot := transpose (toRotationMatrix (qnormalize (attitude s))) in
  angularVel r.1.1 = vzero
  ∧ attitude r.1.1 = qnormalize (attitude s)
  ∧ linearAccel r.1.1
    = vadd (mulv (inverse rot) (vdiv (tick_Faero i) (mass params_)))
           (V3 0 0 (gravity params_))
  ∧ linearVel r.1.1 = vadd (linearVel s) (vscale (linearAccel r.1.1) (tick_dt i))
  ∧ position r.1.1 = vadd (position s) (vscale (linearVel r.1.1) (tick_dt i)).
Proof.
  intros Hm Hw Hthrust HM. cbn zeta.
  pose proof (integrateState_equations params_ tables_ s (tick_Maero i) (tick_Faero i)
                (tick_actuator i) (tick_dt i) (tick_thrust0 i) (tick_torque0 i)) as Heq.
  cbn beta zeta in Heq.
  set (r := integrateState _ _ _ _ _ _ _ _ _) in *. clearbody r.
  destruct Heq as (_ & HFm & HMm & HMt & Hacc & Hwr & Har & HR & HFs & HFt & Hla
                   & Hvr & Hpr).
  assert (Hout : ∀ idx, (idx < 5)%nat →
            (thruster tables_ (tick_actuator i !!! idx)
               (aget (tick_thrust0 i) idx, aget (tick_torque0 i) idx,
                aget (motorsRpm s) idx)).1.1 = 0
            ∧ (thruster tables_ (tick_actuator i !!! idx)
                 (aget (tick_thrust0 i) idx, aget (tick_torque0 i) idx,
                  aget (motorsRpm s) idx)).1.2 = 0).
  { intros idx Hidx. apply Hthrust, Hidx. }
  destruct (Hout 0%nat ltac:(lia)) as [Ht0 Hq0].
  destruct (Hout 1%nat ltac:(lia)) as [Ht1 Hq1].
  destruct (Hout 2%nat ltac:(lia)) as [Ht2 Hq2].
  destruct (Hout 3%nat ltac:(lia)) as [Ht3 Hq3].
  destruct (Hout 4%nat ltac:(lia)) as [Ht4 Hq4].
  rewrite Ht0, Ht1, Ht2, Ht3, Ht4 in HFm.
  rewrite Hq0, Hq1, Hq2, Hq3, Hq4, HFm in HMm. cbn [a0 a1 a2 a3 a4] in HMm.
  clear Hout Ht0 Ht1 Ht2 Ht3 Ht4 Hq0 Hq1 Hq2 Hq3 Hq4 Hthrust.
  assert (HMt0 : Mtotal r.1.1 = vzero).
  { rewrite HMt, HMm, HM. unfold vzero, vadd, cross. cbn. f_equal; ring. }
  assert (Hw0 : angularVel r.1.1 = vzero).
  { rewrite Hwr, Hacc, HMt0, Hw, calculateAngularAccel_at_rest.
    unfold vzero, vadd, vscale. cbn. f_equal; ring. }
  assert (Hatt : attitude r.1.1 = qnormalize (attitude s)).
  { rewrite Har, Hw0. apply attitude_step_at_rest. }
  assert (HR' : r.2 = transpose (toRotationMatrix (qnormalize (attitude s)))).
  { rewrite HR. unfold calculateRotationMatrix. rewrite Hatt. reflexivity. }
  assert (Hdet : determinant r.2 ≠ 0).
  { rewrite HR', determinant_rotation_normalized. lra. }
  assert (HFs0 : r.1.2 = vdiv (tick_Faero i) (mass params_)).
  { rewrite HFs, HFm. destruct (tick_Faero i). unfold vadd, vdiv. cbn.
    f_equal; field; exact Hm. }
  split_and!; [exact Hw0|exact Hatt| |exact Hvr|exact Hpr].
  rewrite Hla, HFt, linear_acceleration by assumption.
  rewrite HFs0, HR'. reflexivity.
Qed.

(** The vehicle on the ground, with no thrust and no aerodynamic load: the
    integrated position is [gravity * dt * dt] below the ground level. *)
Lemma rest_integrated_position (s : State) (i : TickInput) :
  mass params_ ≠ 0 →
  landed s → zero_thrust tables_ i → no_aero_load i →
  v2 (integrated_position params_ tables_ s i) = gravity params_ * tick_dt i * tick_dt i.
Proof.
  intros Hm (Hz & Hv & Hw & Ha) Hthrust (HF & HM).
  pose proof (unpowered_integrated_motion s i Hm Hw Hthrust HM) as Hmotion.
  cbn zeta in Hmotion. unfold integrated_position.
  set (r := integrateState _ _ _ _ _ _ _ _ _) in *. clearbody r.
  destruct Hmotion as (_ & _ & Hla & Hvr & Hpr).
  rewrite Hpr, Hvr, Hla, Hv, HF.
  replace (vdiv vzero (mass params_)) with vzero
    by (unfold vdiv, vzero; cbn; f_equal; field; exact Hm).
  rewrite mulv_vzero. unfold vzero, vadd, vscale. cbn. rewrite Hz. ring.
Qed.

(** So the vehicle lands again, and stays as [land] left it. *)
Lemma rest_tick (s : State) (i : TickInput) :
  0 < mass params_ → 0 <= gravity params_ →
  landed s → zero_thrust tables_ i → no_aero_load i →
  landed (tick params_ tables_ s i)
  ∧ initialAttitude (tick params_ tables_ s i) = initialAttitude s.
Proof.
  intros Hm Hg Hl Hthrust Hload.
  assert (Hz : v2 (integrated_position params_ tables_ s i) >= 0).
  { rewrite rest_integrated_position by (try assumption; lra).
    apply Rle_ge. rewrite Rmult_assoc. apply Rmult_le_pos; [exact Hg|nra]. }
  pose proof (tick_on_ground s i Hz) as Hf. cbn zeta in Hf.
  destruct Hf as (Hv & Hw & Ha & Hi & Hp & _).
  unfold landed. rewrite Hv, Hw, Ha, Hi. split_and!; try reflexivity. exact Hp.
Qed.

End Contact.

(** ** The claims about the rigid-body step *)

(** C2, as the code has it: if the attitude that a step starts from is not
    the zero quaternion, then a tick of [calculateNewState] whose integrated
    position stays above the ground leaves an attitude of norm one, a tick
    that reaches the ground leaves the stored initial attitude, which is as
    the caller gave it, and every call of [calibrate] leaves an attitude of
    norm one.  So a tick leaves an attitude of norm one in both cases when the
    stored initial attitude has norm one. *)
Theorem attitude_norm_after_step (params_ : VtolParameters) (tables_ : TablesWithCoeffs)
    (s : State) (i : TickInput) (prevCalibrationType calType : CalibrationType_t) :
  0 < qsquaredNorm (attitude s) →
  (v2 (integrated_position params_ tables_ s i) < 0 →
     qnorm (attitude (tick params_ tables_ s i)) = 1)
  ∧ (v2 (integrated_position params_ tables_ s i) >= 0 →
       attitude (tick params_ tables_ s i) = initialAttitude s)
  ∧ qnorm (attitude (calibrate params_ prevCalibrationType calType s).1.1) = 1
  ∧ (qnorm (initialAttitude s) = 1 →
       qnorm (attitude (tick params_ tables_ s i)) = 1).
Proof.
  intros Hq.
  assert (Haloft : v2 (integrated_position params_ tables_ s i) < 0 →
                   qnorm (attitude (tick params_ tables_ s i)) = 1).
  { intros Hz. pose proof (tick_aloft params_ tables_ s i Hz) as Hf. cbn zeta in Hf.
    destruct Hf as (_ & _ & Ha & _). rewrite Ha.
    pose proof (integrateState_equations params_ tables_ s (tick_Maero i) (tick_Faero i)
                  (tick_actuator i) (tick_dt i) (tick_thrust0 i) (tick_torque0 i)) as Heq.
    cbn beta zeta in Heq. destruct Heq as (_ & _ & _ & _ & _ & _ & Hatt & _).
    rewrite Hatt. apply attitude_step_unit, Hq. }
  assert (Hground : v2 (integrated_position params_ tables_ s i) >= 0 →
                    attitude (tick params_ tables_ s i) = initialAttitude s).
  { intros Hz. pose proof (tick_on_ground params_ tables_ s i Hz) as Hf. cbn zeta in Hf.
    destruct Hf as (_ & _ & Ha & _). exact Ha. }
  split_and!.
  - exact Haloft.
  - exact Hground.
  - rewrite calibrate_attitude. apply attitude_step_unit, calibration_start_pos, Hq.
  - intros Hinit.
    destruct (Rlt_dec (v2 (integrated_position params_ tables_ s i)) 0) as [Hz|Hz].
    + apply Haloft, Hz.
    + rewrite Hground by (apply Rnot_lt_ge, Hz). exact Hinit.
Qed.


(** ** At rest in still air *)

(** With no air speed there is no dynamic pressure, hence no aerodynamic
    force and no aerodynamic moment: this is where the load of the ticks on
    the ground vanishes when no wind blows. *)
Lemma aerodynamics_without_airspeed (params_ : VtolParameters) (tables_ : TablesWithCoeffs)
    (s : State) (AoA_rad AoS_rad aileron_pos elevator_pos rudder_pos : R)
    (polynomialCoeffs0 : list R) :
  let r := calculateAerodynamics params_ tables_ s vzero AoA_rad AoS_rad
             aileron_pos elevator_pos rudder_pos polynomialCoeffs0 in
  r.1.2 = vzero ∧ r.2 = vzero.
Proof.
  cbn zeta. unfold calculateAerodynamics. cbn [fst snd].
  assert (Hq : calculateDynamicPressure params_ (vnorm vzero) = 0).
  { unfold calculateDynamicPressure, vnorm, vsquaredNorm, vzero. cbn.
    replace (0 * 0 + 0 * 0 + 0 * 0) with 0 by ring. rewrite sqrt_0. ring. }
  rewrite Hq. unfold smul, vzero. cbn [v0 v1 v2]. split; f_equal; ring.
Qed.

(** The linear acceleration that a tick stores is the integrated one, whether
    the tick ends on the ground or not. *)
Lemma tick_linearAccel (params_ : VtolParameters) (tables_ : TablesWithCoeffs)
    (s : State) (i : TickInput) :
  linearAccel (tick params_ tables_ s i)
  = linearAccel (integrateState params_ tables_ s (tick_Maero i) (tick_Faero i)
                   (tick_actuator i) (tick_dt i) (tick_thrust0 i) (tick_torque0 i)).1.1.
Proof.
  unfold tick, calculateNewState, ground_contact.
  set (r := integrateState _ _ _ _ _ _ _ _ _). clearbody r.
  destruct (decide _); destruct r.1.1; reflexivity.
Qed.

(** ** More about the mixers *)

Lemma clamp_bounds (val lo hi : R) : lo <= hi → lo <= clamp val lo hi <= hi.
Proof.
  intros Hle. unfold clamp.
  destruct (Rlt_dec val lo); [lra|]. destruct (Rlt_dec hi val); lra.
Qed.

Lemma clamp_inside (val lo hi : R) : lo <= val <= hi → clamp val lo hi = val.
Proof.
  intros Hin. unfold clamp.
  destruct (Rlt_dec val lo); [lra|]. destruct (Rlt_dec hi val); lra.
Qed.

(** A throttle channel after clamping and scaling. *)
Lemma throttle_scale_bounds (x M : R) :
  0 <= M → 0 <= clamp x 0.0 1.0 * M <= M.
Proof.
  intros HM. pose proof (clamp_bounds x 0.0 1.0 ltac:(lra)) as Hc.
  set (c := clamp x 0.0 1.0) in *. clearbody c. nra.
Qed.

(** A surface channel after clamping and scaling. *)
Lemma surface_scale_bounds (x M m : R) :
  0 <= M → m <= 0 →
  m <= clamp x (-1.0) 1.0
       * (if Rge_dec (clamp x (-1.0) 1.0) 0 then M else - m) <= M.
Proof.
  intros HM Hm. pose proof (clamp_bounds x (-1.0) 1.0 ltac:(lra)) as Hc.
  set (c := clamp x (-1.0) 1.0) in *. clearbody c.
  destruct (Rge_dec c 0); nra.
Qed.

(** X1: for a command of size 8, whatever its values, the differential-surface
    mixer returns 8 values within the configured limits: the five throttle
    channels between 0 and their maximum, the three surface channels between
    their minimum and their maximum. *)
Theorem standard_vtol_within_limits (params_ : VtolParameters) (cmd : list R) (idx : nat) :
  length cmd = 8%nat →
  length (actuatorMax params_) = 8%nat →
  length (actuatorMin params_) = 8%nat →
  (∀ i, (i < 8)%nat → 0 <= actuatorMax params_ !!! i) →
  (∀ i, (5 <= i < 8)%nat → actuatorMin params_ !!! i <= 0) →
  (idx < 8)%nat →
  let out := (mapCmdToActuatorStandardVTOL params_ cmd).1 in
  length out = 8%nat
  ∧ (if decide (idx < 5)%nat then 0 else actuatorMin params_ !!! idx) <= out !!! idx
  ∧ out !!! idx <= actuatorMax params_ !!! idx.
Proof.
  intros Hcmd Hmax Hmin HM Hm Hidx.
  pose proof (HM 0%nat ltac:(lia)) as HM0. pose proof (HM 1%nat ltac:(lia)) as HM1.
  pose proof (HM 2%nat ltac:(lia)) as HM2. pose proof (HM 3%nat ltac:(lia)) as HM3.
  pose proof (HM 4%nat ltac:(lia)) as HM4. pose proof (HM 5%nat ltac:(lia)) as HM5.
  pose proof (HM 6%nat ltac:(lia)) as HM6. pose proof (HM 7%nat ltac:(lia)) as HM7.
  pose proof (Hm 5%nat ltac:(lia)) as Hm5. pose proof (Hm 6%nat ltac:(lia)) as Hm6.
  pose proof (Hm 7%nat ltac:(lia)) as Hm7. clear HM Hm.
  destruct params_ as [? ? ? ? ? ? amin amax ? ? ?].
  cbn [actuatorMax actuatorMin] in *.
  do 9 (destruct cmd as [|? cmd]; try discriminate Hcmd).
  do 9 (destruct amax as [|? amax]; try discriminate Hmax).
  do 9 (destruct amin as [|? amin]; try discriminate Hmin).
  clear Hcmd Hmax Hmin.
  unfold mapCmdToActuatorStandardVTOL.
  destruct (decide _) as [Hn|_]; [exfalso; apply Hn; reflexivity|].
  cbn -[clamp Rge_dec] in *.
  split; [reflexivity|].
  do 5 (destruct idx as [|idx];
        [cbn -[clamp Rge_dec]; split; apply throttle_scale_bounds; assumption|]).
  do 3 (destruct idx as [|idx];
        [cbn -[clamp Rge_dec]; split; apply surface_scale_bounds; assumption|]).
  lia.
Qed.

(** X2: for a command of size 8, whatever its values, the direct mixer
    returns 8 values within the configured limits, as the differential-surface
    mixer does. *)
Theorem inno_vtol_within_limits (params_ : VtolParameters) (cmd : list R) (idx : nat) :
  length cmd = 8%nat →
  length (actuatorMax params_) = 8%nat →
  length (actuatorMin params_) = 8%nat →
  (∀ i, (i < 8)%nat → 0 <= actuatorMax params_ !!! i) →
  (∀ i, (5 <= i < 8)%nat → actuatorMin params_ !!! i <= 0) →
  (idx < 8)%nat →
  let out := (mapCmdToActuatorInnoVTOL params_ cmd).1 in
  length out = 8%nat
  ∧ (if decide (idx < 5)%nat then 0 else actuatorMin params_ !!! idx) <= out !!! idx
  ∧ out !!! idx <= actuatorMax params_ !!! idx.
Proof.
  intros Hcmd Hmax Hmin HM Hm Hidx.
  pose proof (HM 0%nat ltac:(lia)) as HM0. pose proof (HM 1%nat ltac:(lia)) as HM1.
  pose proof (HM 2%nat ltac:(lia)) as HM2. pose proof (HM 3%nat ltac:(lia)) as HM3.
  pose proof (HM 4%nat ltac:(lia)) as HM4. pose proof (HM 5%nat ltac:(lia)) as HM5.
  pose proof (HM 6%nat ltac:(lia)) as HM6. pose proof (HM 7%nat ltac:(lia)) as HM7.
  pose proof (Hm 5%nat ltac:(lia)) as Hm5. pose proof (Hm 6%nat ltac:(lia)) as Hm6.
  pose proof (Hm 7%nat ltac:(lia)) as Hm7. clear HM Hm.
  destruct params_ as [? ? ? ? ? ? amin amax ? ? ?].
  cbn [actuatorMax actuatorMin] in *.
  do 9 (destruct cmd as [|? cmd]; try discriminate Hcmd).
  do 9 (destruct amax as [|? amax]; try discriminate Hmax).
  do 9 (destruct amin as [|? amin]; try discriminate Hmin).
  clear Hcmd Hmax Hmin.
  unfold mapCmdToActuatorInnoVTOL.
  destruct (decide _) as [Hn|_]; [exfalso; apply Hn; reflexivity|].
  cbn -[clamp Rge_dec] in *.
  split; [reflexivity|].
  do 5 (destruct idx as [|idx];
        [cbn -[clamp Rge_dec]; split; apply throttle_scale_bounds; assumption|]).
  do 3 (destruct idx as [|idx];
        [cbn -[clamp Rge_dec]; split; apply surface_scale_bounds; assumption|]).
  lia.
Qed.

(** X3: the aileron is neutral where the mixers' conventions put it: the
    differential-surface mixer gives no aileron when its two raw channels 5
    and 6 are equal, the direct mixer when its raw channel 4 is at 0.5. *)
Theorem mixers_neutral_aileron (params_ : VtolParameters) (cmd : list R) :
  length cmd = 8%nat →
  length (actuatorMax params_) = 8%nat →
  length (actuatorMin params_) = 8%nat →
  (cmd !!! 5%nat = cmd !!! 6%nat →
     (mapCmdToActuatorStandardVTOL params_ cmd).1 !!! 5%nat = 0)
  ∧ (cmd !!! 4%nat = 0.5 →
       (mapCmdToActuatorInnoVTOL params_ cmd).1 !!! 5%nat = 0).
Proof.
  intros Hcmd _ _.
  destruct cmd as [|c0 [|c1 [|c2 [|c3 [|c4 [|c5 [|c6 [|c7 [|]]]]]]]]];
    try discriminate Hcmd.
  clear Hcmd.
  unfold mapCmdToActuatorStandardVTOL, mapCmdToActuatorInnoVTOL.
  destruct (decide _) as [Hn|_]; [exfalso; apply Hn; reflexivity|].
  cbn -[clamp Rge_dec].
  split; intros ->.
  - replace ((c6 - c6) / 2) with 0 by lra.
    rewrite (clamp_inside 0) by lra. lra.
  - replace ((0.5 - 0.5) * 2) with 0 by lra.
    rewrite (clamp_inside 0) by lra. lra.
Qed.

(** ** More about the actuator lag *)

Lemma Rpower_2_71_fraction (y : R) : y < 0 → 0 < Rpower 2.71 y < 1.
Proof.
  intros Hy. unfold Rpower. split; [apply exp_pos|].
  rewrite <- exp_0. apply exp_increasing.
  assert (Hln : 0 < ln 2.71).
  { rewrite <- ln_1. apply ln_increasing; lra. }
  nra.
Qed.

(** The channels of [updateActuators], and what it leaves alone. *)
Lemma updateActuators_channels (tables_ : TablesWithCoeffs) (s : State) (cmd : list R)
    (dtSecs : R) :
  length cmd = 8%nat →
  length (crntActuators s) = 8%nat →
  let out := updateActuators tables_ s cmd dtSecs in
  length out.2 = 8%nat
  ∧ length (crntActuators out.1) = 8%nat
  ∧ prevActuators out.1 = crntActuators s
  ∧ ∀ idx, (idx < 8)%nat →
      out.2 !!! idx
      = cmd !!! idx + (crntActuators s !!! idx - cmd !!! idx)
                      * (1 - Rpower 2.71 (- dtSecs / actuatorTimeConstants tables_ !!! idx))
      ∧ crntActuators out.1 !!! idx = out.2 !!! idx.
Proof.
  intros Hcmd Hcrnt.
  destruct s; cbn [crntActuators] in *.
  do 9 (destruct cmd as [|? cmd]; try discriminate Hcmd).
  do 9 (destruct crntActuators0 as [|? crntActuators0]; try discriminate Hcrnt).
  clear Hcmd Hcrnt.
  cbn. unfold cmath.pow. split_and!; try reflexivity.
  intros idx Hidx.
  do 8 (destruct idx as [|idx]; [cbn; split; reflexivity|]).
  lia.
Qed.

Lemma updateActuators_same_motion (tables_ : TablesWithCoeffs) (s : State) (cmd : list R)
    (dtSecs : R) :
  let s' := (updateActuators tables_ s cmd dtSecs).1 in
  same_motion s s' ∧ initialPose s' = initialPose s
  ∧ windVelocity s' = windVelocity s ∧ windVariance s' = windVariance s.
Proof. destruct s. cbn. unfold same_motion. split_and!; reflexivity. Qed.

(** X4: the filtered value of every channel lies between the value that was
    filtered before and the target: the lag never overshoots, and a channel
    that has reached its target stays on it. *)
Theorem updateActuators_between (tables_ : TablesWithCoeffs) (s : State) (cmd : list R)
    (dtSecs : R) (idx : nat) :
  length cmd = 8%nat →
  length (crntActuators s) = 8%nat →
  (idx < 8)%nat →
  0 < dtSecs →
  0 < actuatorTimeConstants tables_ !!! idx →
  let p := crntActuators s !!! idx in
  let t := cmd !!! idx in
  let out := (updateActuators tables_ s cmd dtSecs).2 in
  Rmin p t <= out !!! idx <= Rmax p t
  ∧ (p = t → out !!! idx = t).
Proof.
  intros Hcmd Hcrnt Hidx Hdt Htau.
  pose proof (updateActuators_channels tables_ s cmd dtSecs Hcmd Hcrnt) as Hch.
  cbn zeta in *. destruct Hch as (_ & _ & _ & Hch).
  destruct (Hch idx Hidx) as [-> _].
  assert (Hy : - dtSecs / actuatorTimeConstants tables_ !!! idx < 0).
  { unfold Rdiv. rewrite <- Ropp_mult_distr_l.
    apply Ropp_lt_gt_0_contravar. apply Rmult_gt_0_compat; [lra|].
    apply Rinv_0_lt_compat, Htau. }
  pose proof (Rpower_2_71_fraction _ Hy) as Ha.
  set (a := Rpower 2.71 _) in *. clearbody a.
  set (p := crntActuators s !!! idx). set (t := cmd !!! idx). clearbody p t.
  split; [|intros ->; lra].
  unfold Rmin, Rmax. destruct (Rle_dec p t); split; nra.
Qed.

(** ** Wind, air speed and the aerodynamic angles *)

(** X5: without variance the wind is the mean wind, whatever is drawn. *)
Theorem calculateWind_without_variance (s : State) (noise : Vector3d) :
  windVariance s = 0 → calculateWind s noise = windVelocity s.
Proof.
  intros Hvar. unfold calculateWind. rewrite Hvar, sqrt_0.
  destruct (windVelocity s). unfold vadd, vzero. cbn. f_equal; ring.
Qed.

Lemma clamp_Rabs (val hi : R) : 0 <= hi → Rabs (clamp val (- hi) hi) <= hi.
Proof.
  intros Hhi. apply Rabs_le. apply clamp_bounds. lra.
Qed.

(** X6: no component of the air speed that [calculateAirSpeed] returns
    exceeds 40 in absolute value; the air speed is the relative velocity in
    the body frame, untouched and without a line written, exactly when none
    of its components exceeds 40, and one warning is written otherwise. *)
Theorem calculateAirSpeed_limited (rotationMatrix : Matrix3d) (velocity windSpeed : Vector3d) :
  let raw := mulv rotationMatrix (vsub velocity windSpeed) in
  let r := calculateAirSpeed rotationMatrix velocity windSpeed in
  (Rabs (v0 r.1) <= 40 ∧ Rabs (v1 r.1) <= 40 ∧ Rabs (v2 r.1) <= 40)
  ∧ (Rabs (v0 raw) <= 40 ∧ Rabs (v1 raw) <= 40 ∧ Rabs (v2 raw) <= 40 →
       r = (raw, []))
  ∧ (¬ (Rabs (v0 raw) <= 40 ∧ Rabs (v1 raw) <= 40 ∧ Rabs (v2 raw) <= 40) →
       r.2 = ["Warning: airspeed is out of limit." +:+ endl]).
Proof.
  cbn zeta. unfold calculateAirSpeed.
  set (raw := mulv rotationMatrix (vsub velocity windSpeed)). clearbody raw.
  destruct (decide _) as [Hout|Hin]; cbn [fst snd v0 v1 v2].
  - split_and!.
    + apply (clamp_Rabs _ 40). lra.
    + apply (clamp_Rabs _ 40). lra.
    + apply (clamp_Rabs _ 40). lra.
    + intros (H0 & H1 & H2). exfalso. destruct Hout as [H|[H|H]]; lra.
    + reflexivity.
  - assert (H0 : Rabs (v0 raw) <= 40) by (apply Rnot_gt_le; tauto).
    assert (H1 : Rabs (v1 raw) <= 40) by (apply Rnot_gt_le; tauto).
    assert (H2 : Rabs (v2 raw) <= 40) by (apply Rnot_gt_le; tauto).
    split_and!; try assumption; [intros _; reflexivity|intros Hn; exfalso; tauto].
Qed.

Lemma clamp_opp (val hi : R) : 0 <= hi → clamp (- val) (- hi) hi = - clamp val (- hi) hi.
Proof.
  intros Hhi. unfold clamp.
  destruct (Rlt_dec (- val) (- hi)), (Rlt_dec val (- hi)),
           (Rlt_dec hi (- val)), (Rlt_dec hi val); lra.
Qed.

(** X7: the angle of sideslip changes its sign with the lateral component of
    the air speed, lies between -pi/2 and pi/2, and is 0 under 0.001 m/s. *)
Theorem calculateAnglesOfSideslip_odd (x y z : R) :
  calculateAnglesOfSideslip (V3 x (- y) z) = - calculateAnglesOfSideslip (V3 x y z)
  ∧ - (PI / 2) <= calculateAnglesOfSideslip (V3 x y z) <= PI / 2
  ∧ (vnorm (V3 x y z) < 0.001 → calculateAnglesOfSideslip (V3 x y z) = 0).
Proof.
  unfold calculateAnglesOfSideslip.
  assert (Hn : vnorm (V3 x (- y) z) = vnorm (V3 x y z)).
  { unfold vnorm, vsquaredNorm. cbn. f_equal. ring. }
  rewrite Hn. cbn [v1].
  set (B := vnorm (V3 x y z)). clearbody B.
  pose proof PI_RGT_0 as Hpi.
  destruct (Rlt_dec B 0.001) as [Hsmall|Hbig].
  - split; [lra|]. split; [lra|reflexivity].
  - split; [|split].
    + replace (- y / B) with (- (y / B)) by (unfold Rdiv; ring).
      replace (-1.0) with (- (1.0)) by lra.
      rewrite clamp_opp by lra. apply asin_opp.
    + pose proof (asin_bound (clamp (y / B) (-1.0) 1.0)). lra.
    + intros Hc. contradiction.
Qed.

(** X8: the angle of attack never exceeds 3.1415 in absolute value, and is 0
    when the air speed in the plane of symmetry is under 0.001 m/s. *)
Theorem calculateAnglesOfAtack_bounded (airSpeed : Vector3d) :
  Rabs (calculateAnglesOfAtack airSpeed) <= 3.1415
  ∧ (sqrt (v0 airSpeed * v0 airSpeed + v2 airSpeed * v2 airSpeed) < 0.001 →
       calculateAnglesOfAtack airSpeed = 0).
Proof.
  unfold calculateAnglesOfAtack.
  set (A := sqrt _). clearbody A.
  pose proof PI_RGT_0 as Hpi0. pose proof PI_4 as Hpi4.
  destruct (Rlt_dec A 0.001) as [Hsmall|Hbig].
  - split; [rewrite Rabs_R0; lra|reflexivity].
  - split; [|intros Hc; contradiction].
    pose proof (asin_bound (clamp (v2 airSpeed / A) (-1.0) 1.0)) as Hb.
    set (a := asin _) in *. clearbody a.
    apply Rabs_le.
    destruct (Rgt_dec (v0 airSpeed) 0); [destruct (Rgt_dec a 3.1415); lra|].
    destruct (Rgt_dec (3.1415 - a) 3.1415); lra.
Qed.

(** ** More about the table look-ups *)

(** X9: [griddata] is exact on planes: when the grid values at the four
    corners of the cell found are those of [a + b * x + c * y], the result is
    [a + b * x_val + c * y_val], inside the cell and outside of it. *)
Theorem griddata_exact_on_planes (x y z : MatrixXd) (x_val y_val a b c : R) :
  let x1 := findPrevRowIdxInMonotonicSequence x x_val in
  let y1 := findPrevRowIdxInMonotonicSequence y y_val in
  let x2 := (x1 + 1)%nat in
  let y2 := (y1 + 1)%nat in
  coeff1 x x2 ≠ coeff1 x x1 →
  coeff1 y y2 ≠ coeff1 y y1 →
  (∀ i j, (i = x1 ∨ i = x2) → (j = y1 ∨ j = y2) →
     coeff z j i = a + b * coeff1 x i + c * coeff1 y j) →
  griddata x y z x_val y_val = a + b * x_val + c * y_val.
Proof.
  cbn zeta. intros Hx Hy Hplane. unfold griddata.
  rewrite !Hplane by tauto.
  field. split; lra.
Qed.

(** X10: [griddata] returns the grid value at each corner of the cell
    found. *)
Theorem griddata_at_corners (x y z : MatrixXd) (x_val y_val : R) :
  let x1 := findPrevRowIdxInMonotonicSequence x x_val in
  let y1 := findPrevRowIdxInMonotonicSequence y y_val in
  let x2 := (x1 + 1)%nat in
  let y2 := (y1 + 1)%nat in
  coeff1 x x2 ≠ coeff1 x x1 →
  coeff1 y y2 ≠ coeff1 y y1 →
  (x_val = coeff1 x x1 → y_val = coeff1 y y1 → griddata x y z x_val y_val = coeff z y1 x1)
  ∧ (x_val = coeff1 x x2 → y_val = coeff1 y y1 → griddata x y z x_val y_val = coeff z y1 x2)
  ∧ (x_val = coeff1 x x1 → y_val = coeff1 y y2 → griddata x y z x_val y_val = coeff z y2 x1)
  ∧ (x_val = coeff1 x x2 → y_val = coeff1 y y2 → griddata x y z x_val y_val = coeff z y2 x2).
Proof.
  cbn zeta. intros Hx Hy. unfold griddata.
  set (x1 := findPrevRowIdxInMonotonicSequence x x_val) in *.
  set (y1 := findPrevRowIdxInMonotonicSequence y y_val) in *.
  clearbody x1 y1.
  split_and!; intros -> ->; field; split; lra.
Qed.

(** X11: [thruster] leaves its three results as they were when the row found
    is the last one; otherwise, at the command of the row found it returns
    the thrust, torque and rpm of that row, and at the command of the next row
    those of the next row. *)
Theorem thruster_at_breakpoints (tables_ : TablesWithCoeffs) (actuator_val : R)
    (out : R * R * R) :
  let prev_idx := findPrevRowIdxInMonotonicSequence (prop tables_) actuator_val in
  let next_idx := (prev_idx + 1)%nat in
  let row idx := (coeff (prop tables_) idx 1, coeff (prop tables_) idx 2,
                  coeff (prop tables_) idx 4) in
  (¬ (next_idx < rows (prop tables_))%nat → thruster tables_ actuator_val out = out)
  ∧ ((next_idx < rows (prop tables_))%nat →
     coeff (prop tables_) next_idx 0 ≠ coeff (prop tables_) prev_idx 0 →
     (actuator_val = coeff (prop tables_) prev_idx 0 →
        thruster tables_ actuator_val out = row prev_idx)
     ∧ (actuator_val = coeff (prop tables_) next_idx 0 →
          thruster tables_ actuator_val out = row next_idx)).
Proof.
  cbn zeta. unfold thruster.
  set (prev_idx := findPrevRowIdxInMonotonicSequence (prop tables_) actuator_val).
  clearbody prev_idx.
  destruct (decide _) as [Hin|Hout].
  - split; [intros Hn; contradiction|]. intros _ Hstep. unfold Math.lerp.
    split; intros ->; repeat f_equal; field; lra.
  - split; [reflexivity|]. intros Hin. contradiction.
Qed.

(** ** More about the rigid-body step *)

Lemma mulv_inverse (m : Matrix3d) (v : Vector3d) :
  determinant m ≠ 0 → mulv m (mulv (inverse m) v) = v.
Proof.
  destruct m, v. unfold inverse, mulv, determinant. cbn. intros Hd.
  f_equal; field; exact Hd.
Qed.

(** X12: the angular acceleration of [calculateAngularAccel] solves Euler's
    equation of rotation for an inertia matrix that can be inverted:
    [I * a + w x (I * w) = M]. *)
Theorem calculateAngularAccel_solves_euler (inertia_m : Matrix3d)
    (moment prevAngVel : Vector3d) :
  determinant inertia_m ≠ 0 →
  vadd (mulv inertia_m (calculateAngularAccel inertia_m moment prevAngVel))
       (cross prevAngVel (mulv inertia_m prevAngVel))
  = moment.
Proof.
  intros Hd. unfold calculateAngularAccel. rewrite mulv_inverse by exact Hd.
  destruct moment. unfold vadd, vsub. cbn. f_equal; ring.
Qed.

(** A rotation matrix of a unit quaternion keeps the length of a vector. *)
Lemma rotation_keeps_norm (q : Quaterniond) (v : Vector3d) :
  qsquaredNorm q = 1 →
  vsquaredNorm (mulv (transpose (toRotationMatrix q)) v) = vsquaredNorm v.
Proof.
  destruct q as [w x y z], v as [a b c].
  unfold qsquaredNorm, toRotationMatrix, transpose, mulv, vsquaredNorm. cbn.
  intros Hq.
  replace (1 - (2 * y * y + 2 * z * z)) with (w * w + x * x - y * y - z * z) by lra.
  replace (1 - (2 * x * x + 2 * z * z)) with (w * w - x * x + y * y - z * z) by lra.
  replace (1 - (2 * x * x + 2 * y * y)) with (w * w - x * x - y * y + z * z) by lra.
  transitivity ((w * w + x * x + y * y + z * z) ^ 2 * (a * a + b * b + c * c)); [ring|].
  rewrite Hq. ring.
Qed.

(** So does the rotation matrix of a quaternion after [normalize()]. *)
Lemma normalized_rotation_keeps_norm (q : Quaterniond) (v : Vector3d) :
  vsquaredNorm (mulv (transpose (toRotationMatrix (qnormalize q))) v) = vsquaredNorm v.
Proof.
  destruct (Rlt_dec 0 (qsquaredNorm q)) as [Hpos|Hzero].
  - apply rotation_keeps_norm, qsquaredNorm_qnormalize, Hpos.
  - unfold qnormalize. destruct (Rlt_dec 0 (qsquaredNorm q)) as [H|_]; [contradiction|].
    destruct q as [w x y z]. unfold qsquaredNorm in Hzero. cbn in Hzero.
    assert (w = 0 ∧ x = 0 ∧ y = 0 ∧ z = 0) as (-> & -> & -> & ->) by (repeat split; nra).
    destruct v. unfold vsquaredNorm, mulv, transpose, toRotationMatrix. cbn. ring.
Qed.

Section MoreAboutTicks.

Variables (params_ : VtolParameters) (tables_ : TablesWithCoeffs).

Lemma store_sim_parameters_body (rotationMatrix : Matrix3d) (s : State) :
  let s' := store_sim_parameters rotationMatrix s in
  bodylinearVel s' = mulv rotationMatrix (linearVel s)
  ∧ Fmotors s' = Fmotors s ∧ initialPose s' = initialPose s
  ∧ linearAccel s' = linearAccel s.
Proof. destruct s. split_and!; reflexivity. Qed.

Lemma ground_contact_frame (Fspecific_loc : Vector3d) (s : State) :
  let s' := ground_contact params_ Fspecific_loc s in
  Fmotors s' = Fmotors s ∧ initialPose s' = initialPose s
  ∧ initialAttitude s' = initialAttitude s ∧ linearAccel s' = linearAccel s.
Proof.
  unfold ground_contact. destruct (decide _); destruct s; split_and!; reflexivity.
Qed.

Lemma run_thrusters_initialPose (s : State) (actuator_in : list R)
    (thrust0 torque0 : array5 R) :
  initialPose (run_thrusters tables_ actuator_in thrust0 torque0 s).2 = initialPose s.
Proof. destruct s. reflexivity. Qed.

Lemma motor_forces_initialPose (s : State) (thrust : array5 R) :
  initialPose (motor_forces thrust s) = initialPose s.
Proof. destruct s. reflexivity. Qed.

Lemma motor_moments_initialPose (s : State) (torque : array5 R) :
  initialPose (motor_moments params_ torque s) = initialPose s.
Proof. destruct s. reflexivity. Qed.

Lemma integrate_rotation_initialPose (s : State) (Maero_in : Vector3d) (dt_sec : R) :
  initialPose (integrate_rotation params_ Maero_in dt_sec s).1 = initialPose s.
Proof. destruct s. reflexivity. Qed.

Lemma integrate_translation_initialPose (s : State) (Faero_in Mtot : Vector3d)
    (dt_sec : R) :
  initialPose (integrate_translation params_ Faero_in Mtot dt_sec s).1.1 = initialPose s.
Proof. destruct s. reflexivity. Qed.

Lemma integrateState_initialPose (s : State) (Maero_in Faero_in : Vector3d)
    (actuator_in : list R) (dt_sec : R) (thrust0 torque0 : array5 R) :
  initialPose (integrateState params_ tables_ s Maero_in Faero_in actuator_in dt_sec
                 thrust0 torque0).1.1 = initialPose s.
Proof.
  unfold integrateState.
  rewrite integrate_translation_initialPose, integrate_rotation_initialPose,
    motor_moments_initialPose, motor_forces_initialPose, run_thrusters_initialPose.
  reflexivity.
Qed.

(** A tick changes neither the stored initial position nor the stored initial
    attitude. *)
Lemma tick_reference (s : State) (i : TickInput) :
  initialPose (tick params_ tables_ s i) = initialPose s
  ∧ initialAttitude (tick params_ tables_ s i) = initialAttitude s.
Proof.
  unfold tick, calculateNewState.
  pose proof (integrateState_initialPose s (tick_Maero i) (tick_Faero i)
                (tick_actuator i) (tick_dt i) (tick_thrust0 i) (tick_torque0 i)) as Hp.
  pose proof (integrateState_equations params_ tables_ s (tick_Maero i) (tick_Faero i)
                (tick_actuator i) (tick_dt i) (tick_thrust0 i) (tick_torque0 i)) as Heq.
  cbn zeta in Heq. destruct Heq as (Hi & _).
  set (r := integrateState _ _ _ _ _ _ _ _ _) in *. clearbody r.
  pose proof (store_sim_parameters_body r.2 (ground_contact params_ r.1.2 r.1.1))
    as (_ & _ & Hp1 & _).
  pose proof (store_sim_parameters_fields r.2 (ground_contact params_ r.1.2 r.1.1))
    as (_ & _ & _ & Hi1 & _).
  pose proof (ground_contact_frame r.1.2 r.1.1) as (_ & Hp2 & Hi2 & _).
  cbn zeta in *. split; congruence.
Qed.

(** The attitude after a tick, whichever branch the ground test takes. *)
Lemma tick_attitude (s : State) (i : TickInput) :
  attitude (tick params_ tables_ s i)
  = if decide (v2 (integrated_position params_ tables_ s i) >= 0)
    then initialAttitude s
    else attitude_step (tick_dt i) (attitude s)
           (angularVel (integrateState params_ tables_ s (tick_Maero i) (tick_Faero i)
                          (tick_actuator i) (tick_dt i) (tick_thrust0 i)
                          (tick_torque0 i)).1.1).
Proof.
  destruct (decide _) as [Hz|Hz].
  - pose proof (tick_on_ground params_ tables_ s i Hz) as Hf. cbn zeta in Hf.
    destruct Hf as (_ & _ & Ha & _). exact Ha.
  - assert (Hlt : v2 (integrated_position params_ tables_ s i) < 0)
      by (apply Rnot_ge_lt, Hz).
    pose proof (tick_aloft params_ tables_ s i Hlt) as Hf. cbn zeta in Hf.
    destruct Hf as (_ & _ & Ha & _). rewrite Ha.
    pose proof (integrateState_equations params_ tables_ s (tick_Maero i) (tick_Faero i)
                  (tick_actuator i) (tick_dt i) (tick_thrust0 i) (tick_torque0 i)) as Heq.
    cbn beta zeta in Heq. destruct Heq as (_ & _ & _ & _ & _ & _ & Hatt & _).
    exact Hatt.
Qed.

(** A tick keeps both attitudes of norm one. *)
Lemma tick_unit_attitudes (s : State) (i : TickInput) :
  unit_attitudes s → unit_attitudes (tick params_ tables_ s i).
Proof.
  intros [Ha Hi]. unfold unit_attitudes.
  destruct (tick_reference s i) as [_ Hi']. rewrite Hi'. split; [|exact Hi].
  rewrite tick_attitude. destruct (decide _); [exact Hi|].
  unfold attitude_step. apply qsquaredNorm_qnormalize, qsquaredNorm_first_order_pos.
  rewrite Ha. lra.
Qed.

(** X13: the body-frame velocity that a tick stores has the length of the
    linear velocity that it stores, whatever the attitude was. *)
Theorem tick_body_velocity_norm (s : State) (i : TickInput) :
  vsquaredNorm (bodylinearVel (tick params_ tables_ s i))
  = vsquaredNorm (linearVel (tick params_ tables_ s i)).
Proof.
  unfold tick, calculateNewState.
  pose proof (integrateState_equations params_ tables_ s (tick_Maero i) (tick_Faero i)
                (tick_actuator i) (tick_dt i) (tick_thrust0 i) (tick_torque0 i)) as Heq.
  cbn beta zeta in Heq. destruct Heq as (_ & _ & _ & _ & _ & _ & Hatt & HR & _).
  set (r := integrateState _ _ _ _ _ _ _ _ _) in *. clearbody r.
  pose proof (store_sim_parameters_body r.2 (ground_contact params_ r.1.2 r.1.1))
    as (Hb & _).
  pose proof (store_sim_parameters_fields r.2 (ground_contact params_ r.1.2 r.1.1))
    as (Hv & _).
  cbn zeta in *. rewrite Hb, Hv, HR. unfold calculateRotationMatrix.
  rewrite Hatt. unfold attitude_step. apply normalized_rotation_keeps_norm.
Qed.

(** X14: after a tick that stays above the ground the stored specific force
    is the sum of the aerodynamic force and the forces of the five motors over
    the mass; after a tick that reaches the ground it is gravity, upwards. *)
Theorem tick_specific_force (s : State) (i : TickInput) :
  let s' := tick params_ tables_ s i in
  (v2 (integrated_position params_ tables_ s i) < 0 →
     Fspecific s'
     = vdiv (foldl vadd (tick_Faero i) (ato_list (Fmotors s'))) (mass params_))
  ∧ (v2 (integrated_position params_ tables_ s i) >= 0 →
       Fspecific s' = V3 0 0 (- gravity params_)).
Proof.
  cbn zeta. unfold integrated_position, tick, calculateNewState.
  pose proof (integrateState_equations params_ tables_ s (tick_Maero i) (tick_Faero i)
                (tick_actuator i) (tick_dt i) (tick_thrust0 i) (tick_torque0 i)) as Heq.
  cbn beta zeta in Heq.
  destruct Heq as (_ & _ & _ & _ & _ & _ & _ & _ & HFs & _).
  set (r := integrateState _ _ _ _ _ _ _ _ _) in *. clearbody r.
  pose proof (store_sim_parameters_body r.2 (ground_contact params_ r.1.2 r.1.1))
    as (_ & HF1 & _).
  pose proof (store_sim_parameters_fields r.2 (ground_contact params_ r.1.2 r.1.1))
    as (_ & _ & _ & _ & _ & _ & HFsp).
  pose proof (ground_contact_frame r.1.2 r.1.1) as (HF2 & _).
  cbn zeta in *. rewrite HFsp, HF1, HF2. split; intros Hz.
  - pose proof (ground_contact_aloft params_ r.1.2 r.1.1 Hz) as Hg. cbn zeta in Hg.
    destruct Hg as (_ & _ & _ & _ & _ & _ & Hg). rewrite Hg. exact HFs.
  - unfold ground_contact. destruct (decide _) as [_|Hn]; [|contradiction].
    pose proof (land_fields params_ r.1.1) as Hl. cbn zeta in Hl.
    destruct Hl as (_ & _ & _ & _ & _ & _ & Hl). exact Hl.
Qed.

(** X15: in a tick that starts without angular velocity, with no thrust and
    no aerodynamic moment, the linear acceleration is the aerodynamic force
    over the mass, turned into the world frame, plus gravity along the z axis;
    without aerodynamic force it is gravity alone, whatever the attitude. *)
Theorem tick_unpowered_acceleration (s : State) (i : TickInput) :
  mass params_ ≠ 0 →
  angularVel s = vzero → zero_thrust tables_ i → tick_Maero i = vzero →
  let rot := transpose (toRotationMatrix (qnormalize (attitude s))) in
  linearAccel (tick params_ tables_ s i)
  = vadd (mulv (inverse rot) (vdiv (tick_Faero i) (mass params_)))
         (V3 0 0 (gravity params_))
  ∧ (tick_Faero i = vzero →
       linearAccel (tick params_ tables_ s i) = V3 0 0 (gravity params_)).
Proof.
  intros Hm Hw Hthrust HM. cbn zeta.
  pose proof (unpowered_integrated_motion params_ tables_ s i Hm Hw Hthrust HM) as Hmotion.
  cbn zeta in Hmotion. destruct Hmotion as (_ & _ & Hla & _).
  rewrite tick_linearAccel, Hla. split; [reflexivity|].
  intros ->.
  replace (vdiv vzero (mass params_)) with vzero
    by (unfold vdiv, vzero; cbn; f_equal; field; exact Hm).
  rewrite mulv_vzero. unfold vadd, vzero. cbn. f_equal; ring.
Qed.

End MoreAboutTicks.

(** ** More about landing and calibration *)

(** X16: [land] leaves a landed state, and landing twice is landing once. *)
Theorem land_idempotent (params_ : VtolParameters) (s : State) :
  landed (land params_ s) ∧ land params_ (land params_ s) = land params_ s.
Proof.
  destruct s. unfold landed, land, amap, vset2, constant. cbn.
  split_and!; try reflexivity; lra.
Qed.

(** ** More about calibration *)

(** What [calibrate] does to the position, the linear velocity and the stored
    initial pose. *)
Lemma calibrate_frame (params_ : VtolParameters)
    (prevCalibrationType calType : CalibrationType_t) (s : State) :
  let r := (calibrate params_ prevCalibrationType calType s).1.1 in
  v0 (position r) = v0 (position s) ∧ v1 (position r) = v1 (position s)
  ∧ v2 (position r) = 0
  ∧ linearVel r = (if decide (calType = AIRSPEED) then V3 10.0 10.0 0 else vzero)
  ∧ initialPose r = initialPose s ∧ initialAttitude r = initialAttitude s.
Proof.
  cbn zeta.
  assert (Hp : position (calibrate params_ prevCalibrationType calType s).1.1
               = vset2 (position s) 0.00)
    by (unfold calibrate, calibrate_switch, attitude_on_entry;
        destruct calType; try destruct (decide (prevCalibrationType ≠ _));
        reflexivity).
  rewrite Hp. unfold vset2. cbn [v0 v1 v2].
  split_and!; try reflexivity; try lra.
  - unfold calibrate, calibrate_switch, attitude_on_entry.
    destruct calType; destruct (decide (_ = AIRSPEED)) as [He|He];
      try discriminate He; try (exfalso; apply He; reflexivity);
      try destruct (decide (prevCalibrationType ≠ _)); reflexivity.
  - unfold calibrate, calibrate_switch, attitude_on_entry.
    destruct calType; try destruct (decide (prevCalibrationType ≠ _)); reflexivity.
  - unfold calibrate, calibrate_switch, attitude_on_entry.
    destruct calType; try destruct (decide (prevCalibrationType ≠ _)); reflexivity.
Qed.

(** X17: a calibration call pins the vehicle to the ground where it is: the
    horizontal position is kept, the height is zero, and the linear velocity
    is zero, but for the airspeed mode, which sets it to (10, 10, 0); the
    stored initial pose and attitude are not touched. *)
Theorem calibrate_pins_vehicle (params_ : VtolParameters)
    (prevCalibrationType calType : CalibrationType_t) (s : State) :
  let r := (calibrate params_ prevCalibrationType calType s).1.1 in
  v0 (position r) = v0 (position s) ∧ v1 (position r) = v1 (position s)
  ∧ v2 (position r) = 0
  ∧ linearVel r = (if decide (calType = AIRSPEED) then V3 10.0 10.0 0 else vzero)
  ∧ initialPose r = initialPose s ∧ initialAttitude r = initialAttitude s.
Proof. apply calibrate_frame. Qed.

(** The specific force of a calibration call is gravity, upwards, seen from
    the attitude that the step of the call starts from: the attitude is
    normalised only afterwards. *)
Lemma calibrate_Fspecific (params_ : VtolParameters)
    (prevCalibrationType calType : CalibrationType_t) (s : State) :
  Fspecific (calibrate params_ prevCalibrationType calType s).1.1
  = mulv (transpose (toRotationMatrix (calibration_start prevCalibrationType calType s)))
         (V3 0 0 (- gravity params_)).
Proof.
  unfold calibrate, calibration_start, calibrate_switch, attitude_on_entry,
    calculateNormalForceWithoutMass, calculateRotationMatrix.
  destruct calType; cbn [attitude_policy];
    try (destruct (decide (prevCalibrationType ≠ _))); reflexivity.
Qed.

(** X18: when the attitude that a calibration call starts from has norm one,
    the specific force that the call stores has the magnitude of gravity; it
    is (0, 0, -g) in the normal orientation and (0, 0, g) overturned. *)
Theorem calibrate_specific_force (params_ : VtolParameters)
    (prevCalibrationType calType : CalibrationType_t) (s : State) :
  qsquaredNorm (calibration_start prevCalibrationType calType s) = 1 →
  let r := (calibrate params_ prevCalibrationType calType s).1.1 in
  vsquaredNorm (Fspecific r) = gravity params_ * gravity params_
  ∧ (calibration_start prevCalibrationType calType s = Quat 1 0 0 0 →
       Fspecific r = V3 0 0 (- gravity params_))
  ∧ (calibration_start prevCalibrationType calType s = Quat 0 1 0 0 →
       Fspecific r = V3 0 0 (gravity params_)).
Proof.
  intros Hunit. cbn zeta. rewrite calibrate_Fspecific. split_and!.
  - rewrite rotation_keeps_norm by exact Hunit. unfold vsquaredNorm. cbn. ring.
  - intros ->. unfold mulv, transpose, toRotationMatrix. cbn. f_equal; ring.
  - intros ->. unfold mulv, transpose, toRotationMatrix. cbn. f_equal; ring.
Qed.

(** X19: on the call that enters one of the modes head down, head up, turned
    left or turned right, of the magnetometer or of the accelerometer, the
    specific force is computed from the assigned quaternion with the
    components 0.707 before it is normalised: the square of its magnitude is
    0.999396182408 times the square of gravity. *)
Theorem calibrate_entry_specific_force (params_ : VtolParameters)
    (prevCalibrationType calType : CalibrationType_t) (s : State) :
  calType ∈ [MAG_3_HEAD_DOWN; MAG_4_HEAD_UP; MAG_5_TURNED_LEFT; MAG_6_TURNED_RIGHT;
             ACC_3_HEAD_DOWN; ACC_4_HEAD_UP; ACC_5_TURNED_LEFT; ACC_6_TURNED_RIGHT] →
  prevCalibrationType ≠ calType →
  vsquaredNorm (Fspecific (calibrate params_ prevCalibrationType calType s).1.1)
  = 0.999396182408 * (gravity params_ * gravity params_).
Proof.
  intros Hin Hentry. rewrite calibrate_Fspecific. unfold calibration_start.
  repeat (apply elem_of_cons in Hin as [->|Hin]);
    try (apply elem_of_nil in Hin; contradiction);
    cbn [attitude_policy];
    (destruct (decide (prevCalibrationType ≠ _)) as [_|Hn]; [|contradiction]);
    unfold vsquaredNorm, mulv, transpose, toRotationMatrix; cbn; lra.
Qed.

Lemma attitude_step_still (dt : R) (q : Quaterniond) :
  attitude_step dt q vzero = qnormalize q.
Proof.
  unfold attitude_step. f_equal. destruct q as [w x y z].
  unfold qaddscaled, qmul, vzero. cbn. f_equal; ring.
Qed.

(** X20: in the work mode, the six accelerometer modes and the airspeed mode
    a calibration call sets the angular velocity to zero and holds the
    vehicle still: the attitude after the call is the attitude that the call
    starts from, normalised, so an attitude of norm one stays as it is. *)
Theorem calibrate_holds_attitude (params_ : VtolParameters)
    (prevCalibrationType calType : CalibrationType_t) (s : State) :
  calType ∈ [WORK_MODE; ACC_1_NORMAL; ACC_2_OVERTURNED; ACC_3_HEAD_DOWN; ACC_4_HEAD_UP;
             ACC_5_TURNED_LEFT; ACC_6_TURNED_RIGHT; AIRSPEED] →
  let r := (calibrate params_ prevCalibrationType calType s).1.1 in
  angularVel r = vzero
  ∧ attitude r = qnormalize (calibration_start prevCalibrationType calType s)
  ∧ (qsquaredNorm (calibration_start prevCalibrationType calType s) = 1 →
       attitude r = calibration_start prevCalibrationType calType s).
Proof.
  intros Hin. cbn zeta.
  assert (Hw : angularVel (calibrate params_ prevCalibrationType calType s).1.1 = vzero).
  { repeat (apply elem_of_cons in Hin as [->|Hin]);
      try (apply elem_of_nil in Hin; contradiction);
      unfold calibrate, calibrate_switch, attitude_on_entry;
      try destruct (decide (prevCalibrationType ≠ _)); reflexivity. }
  rewrite calibrate_attitude, Hw, attitude_step_still.
  split_and!; [reflexivity|reflexivity|].
  intros Hunit. apply qnormalize_unit, Hunit.
Qed.

(** ** The IMU read-out, the fuel tank and the initial pose *)

(** X21: the IMU is mounted without rotation: the accelerometer reads the
    stored specific force plus its bias plus the noise, the gyroscope the
    angular velocity plus its bias plus the noise; after [land], for zero
    draws, the accelerometer reads gravity upwards plus its bias and the
    gyroscope its bias alone. *)
Theorem getIMUMeasurement_reading (params_ : VtolParameters) (s : State)
    (accDraws gyroDraws : Vector3d) :
  getIMUMeasurement params_ s accDraws gyroDraws
  = (vadd (vadd (Fspecific s) (accelBias s)) (smul (sqrt (accVariance params_)) accDraws),
     vadd (vadd (angularVel s) (gyroBias s)) (smul (sqrt (gyroVariance params_)) gyroDraws))
  ∧ getIMUMeasurement params_ (land params_ s) vzero vzero
    = (vadd (V3 0 0 (- gravity params_)) (accelBias s), gyroBias s).
Proof.
  assert (Hid : ∀ v, qrotate (qinverse (Quat 1 0 0 0)) v = v).
  { intros [a b c]. unfold qinverse, qsquaredNorm. cbn [qw qx qy qz].
    destruct (Rlt_dec 0 _) as [_|Hn]; [|exfalso; apply Hn; lra].
    unfold qrotate, cross, vadd, smul. cbn. f_equal; field. }
  unfold getIMUMeasurement. cbn zeta. rewrite !Hid. split; [reflexivity|].
  pose proof (land_fields params_ s) as Hl. cbn zeta in Hl.
  destruct Hl as (_ & Hw & _ & _ & _ & _ & HF).
  rewrite HF, Hw.
  replace (accelBias (land params_ s)) with (accelBias s) by (destruct s; reflexivity).
  replace (gyroBias (land params_ s)) with (gyroBias s) by (destruct s; reflexivity).
  destruct (accelBias s) as [a b c], (gyroBias s) as [d e f].
  unfold vadd, vzero. cbn. f_equal; f_equal; ring.
Qed.

(** X22: the fuel level never rises and never falls below zero; it falls by
    0.002 in a publication in which the fifth motor turns at one rpm or more,
    and it is kept after [land], which stops the motors. *)
Theorem fuel_level_update_bounds (params_ : VtolParameters) (s : State)
    (fuelLevelPercentage : R) :
  (0 <= fuelLevelPercentage →
     0 <= fuel_level_update s fuelLevelPercentage <= fuelLevelPercentage)
  ∧ (a4 (motorsRpm s) >= 1 → 0.002 <= fuelLevelPercentage →
       fuel_level_update s fuelLevelPercentage = fuelLevelPercentage - 0.002)
  ∧ (a4 (motorsRpm s) < 1 →
       fuel_level_update s fuelLevelPercentage = fuelLevelPercentage)
  ∧ fuel_level_update (land params_ s) fuelLevelPercentage = fuelLevelPercentage.
Proof.
  assert (Hform : ∀ s', fuel_level_update s' fuelLevelPercentage
            = if decide (a4 (motorsRpm s') >= 1)
              then (if Rlt_dec (fuelLevelPercentage - 0.002) 0 then 0
                    else fuelLevelPercentage - 0.002)
              else fuelLevelPercentage).
  { intros s'. unfold fuel_level_update, getMotorsRpm. cbn.
    destruct (decide (_ ∧ _)) as [[_ Hr]|Hn]; destruct (decide (_ >= 1)) as [Hr'|Hr'];
      try reflexivity; try contradiction.
    exfalso. apply Hn. split; [reflexivity|exact Hr']. }
  split_and!.
  - intros Hl. rewrite Hform.
    destruct (decide _); [destruct (Rlt_dec _ _)|]; lra.
  - intros Hr Hl. rewrite Hform.
    destruct (decide _) as [_|Hn]; [|contradiction].
    destruct (Rlt_dec _ _); lra.
  - intros Hr. rewrite Hform. destruct (decide _) as [Hn|_]; [lra|reflexivity].
  - rewrite Hform.
    pose proof (land_fields params_ s) as Hl. cbn zeta in Hl.
    destruct Hl as (_ & _ & _ & _ & _ & Hrpm & _). rewrite Hrpm.
    destruct (decide _) as [Hn|_]; [cbn in Hn; lra|reflexivity].
Qed.

(** X23: the initial pose needs seven numbers; from seven or more it sets the
    position and the stored initial pose to the first three, and the attitude
    and the stored initial attitude to the quaternion (w from the seventh, x,
    y, z from the fourth to the sixth), normalised: of norm one unless the
    four numbers are all zero, and then the zero quaternion. *)
Theorem initDynamicsSimulator_pose_result (initPose_ : list R) (s : State) :
  ((length initPose_ < 7)%nat → initDynamicsSimulator_pose initPose_ s = None)
  ∧ (∀ x y z q_x q_y q_z q_w rest,
       initPose_ = [x; y; z; q_x; q_y; q_z; q_w] ++ rest →
       ∃ s', initDynamicsSimulator_pose initPose_ s = Some s'
             ∧ position s' = V3 x y z ∧ initialPose s' = V3 x y z
             ∧ attitude s' = qnormalize (Quat q_w q_x q_y q_z)
             ∧ initialAttitude s' = attitude s'
             ∧ (Quat q_w q_x q_y q_z ≠ Quat 0 0 0 0 → unit_attitudes s')
             ∧ (Quat q_w q_x q_y q_z = Quat 0 0 0 0 → attitude s' = Quat 0 0 0 0)).
Proof.
  split.
  - intros Hlen. unfold initDynamicsSimulator_pose.
    do 7 (destruct initPose_ as [|? initPose_]; [reflexivity|]).
    cbn in Hlen. lia.
  - intros x y z q_x q_y q_z q_w rest ->.
    eexists. split; [reflexivity|].
    split_and!; try reflexivity.
    + intros Hnz.
      assert (Hpos : 0 < qsquaredNorm (Quat q_w q_x q_y q_z)).
      { destruct (Rlt_dec 0 (qsquaredNorm (Quat q_w q_x q_y q_z))) as [H|H]; [exact H|].
        exfalso. apply Hnz. unfold qsquaredNorm in H. cbn in H.
        assert (q_w = 0 ∧ q_x = 0 ∧ q_y = 0 ∧ q_z = 0) as (-> & -> & -> & ->)
          by (repeat split; nra).
        reflexivity. }
      unfold unit_attitudes, setInitialPosition. cbn.
      split; apply qsquaredNorm_qnormalize, Hpos.
    + intros Hz. unfold setInitialPosition. cbn. rewrite Hz.
      unfold qnormalize, qsquaredNorm. cbn.
      destruct (Rlt_dec 0 _) as [Hn|_]; [lra|reflexivity].
Qed.

(** ** The whole pipeline and the loop of the node *)

Section Pipeline.

Variables (params_ : VtolParameters) (tables_ : TablesWithCoeffs).

Lemma calculateAerodynamics_same_motion (s : State) (airspeed_v : Vector3d)
    (AoA_rad AoS_rad aileron_pos elevator_pos rudder_pos : R)
    (polynomialCoeffs0 : list R) :
  let s' := (calculateAerodynamics params_ tables_ s airspeed_v AoA_rad AoS_rad
               aileron_pos elevator_pos rudder_pos polynomialCoeffs0).1.1 in
  same_motion s s' ∧ initialPose s' = initialPose s.
Proof.
  cbn zeta. unfold calculateAerodynamics, same_motion. cbn [fst snd].
  destruct s. split_and!; reflexivity.
Qed.

(** [process] is a tick of [calculateNewState] from a state that moves as the
    given one, under the aerodynamic load of the air speed and the filtered
    commands. *)
Lemma process_is_tick (s : State) (dtSecs : R) (motorCmd : list R) (isCmdPercent : bool)
    (noise : Vector3d) (polynomialCoeffs0 : list R) (thrust0 torque0 : array5 R) :
  let airSpeed := (calculateAirSpeed (calculateRotationMatrix s) (linearVel s)
                     (calculateWind s noise)).1 in
  let mapped :=
    if isCmdPercent then mapCmdToActuatorInnoVTOL params_ motorCmd else (motorCmd, []) in
  let lagged := updateActuators tables_ s mapped.1 dtSecs in
  let aero := calculateAerodynamics params_ tables_ lagged.1 airSpeed
                (calculateAnglesOfAtack airSpeed) (calculateAnglesOfSideslip airSpeed)
                (lagged.2 !!! 5%nat) (lagged.2 !!! 6%nat) (lagged.2 !!! 7%nat)
                polynomialCoeffs0 in
  ∃ s2, (process params_ tables_ s dtSecs motorCmd isCmdPercent noise polynomialCoeffs0
           thrust0 torque0).1
        = tick params_ tables_ s2
            {| tick_Maero := aero.2; tick_Faero := aero.1.2; tick_actuator := lagged.2;
               tick_dt := dtSecs; tick_thrust0 := thrust0; tick_torque0 := torque0 |}
        ∧ same_motion s s2 ∧ initialPose s2 = initialPose s.
Proof.
  intros airSpeed mapped lagged aero.
  exists (aero.1.1 <| Faero := aero.1.2 |> <| Maero := aero.2 |>).
  split.
  - unfold process, tick. cbn [fst snd tick_Maero tick_Faero tick_actuator tick_dt
                                tick_thrust0 tick_torque0].
    fold airSpeed. fold mapped. fold lagged. fold aero.
    clearbody aero lagged. destruct aero.1.1. reflexivity.
  - pose proof (updateActuators_same_motion tables_ s mapped.1 dtSecs) as Hlag.
    cbn zeta in Hlag. fold lagged in Hlag.
    pose proof (calculateAerodynamics_same_motion lagged.1 airSpeed
                  (calculateAnglesOfAtack airSpeed) (calculateAnglesOfSideslip airSpeed)
                  (lagged.2 !!! 5%nat) (lagged.2 !!! 6%nat) (lagged.2 !!! 7%nat)
                  polynomialCoeffs0) as Haero.
    cbn zeta in Haero. fold aero in Haero.
    clearbody aero lagged.
    destruct Hlag as ((Hi1 & Ha1 & Hw1 & Hv1 & Hp1) & Hip1 & _).
    destruct Haero as ((Hi2 & Ha2 & Hw2 & Hv2 & Hp2) & Hip2).
    assert (Hs : same_motion aero.1.1 (aero.1.1 <| Faero := aero.1.2 |> <| Maero := aero.2 |>)
                 ∧ initialPose (aero.1.1 <| Faero := aero.1.2 |> <| Maero := aero.2 |>)
                   = initialPose aero.1.1).
    { unfold same_motion. destruct aero.1.1. split_and!; reflexivity. }
    destruct Hs as ((Hi3 & Ha3 & Hw3 & Hv3 & Hp3) & Hip3).
    unfold same_motion. split_and!; congruence.
Qed.

(** One round of the loop keeps both attitudes of norm one and the stored
    initial pose and attitude as they are. *)
Lemma proceedDynamics_round_invariants (periodSec : R)
    (sim : State * CalibrationType_t) (i : LoopInput) :
  let sim' := (proceedDynamics_round params_ tables_ periodSec sim i).1 in
  initialPose sim'.1 = initialPose sim.1
  ∧ initialAttitude sim'.1 = initialAttitude sim.1
  ∧ (unit_attitudes sim.1 → unit_attitudes sim'.1).
Proof.
  cbn zeta. unfold proceedDynamics_round.
  destruct (decide (loop_calibrationType i ≠ WORK_MODE)) as [Hcal|Hwork];
    [|destruct (loop_armed i)]; cbn [fst snd].
  - pose proof (calibrate_frame params_ sim.2 (loop_calibrationType i) sim.1) as Hf.
    cbn zeta in Hf. destruct Hf as (_ & _ & _ & _ & Hp & Hi).
    split_and!; [exact Hp|exact Hi|].
    intros [Ha Hi']. unfold unit_attitudes. rewrite Hi. split; [|exact Hi'].
    rewrite calibrate_attitude. unfold attitude_step.
    apply qsquaredNorm_qnormalize, qsquaredNorm_first_order_pos, calibration_start_pos.
    rewrite Ha. lra.
  - destruct (process_is_tick sim.1
                (if decide (loop_time_dif_sec i > 10 * periodSec)
                 then 10 * periodSec else loop_time_dif_sec i)
                (loop_actuators i) true (loop_noise i) (loop_polynomialCoeffs0 i)
                (loop_thrust0 i) (loop_torque0 i))
      as (s2 & -> & (Hi & Ha & _) & Hp).
    match goal with
    | |- initialPose (tick _ _ _ ?ti) = _ ∧ _ =>
        destruct (tick_reference params_ tables_ s2 ti) as [Hp' Hi']
    end.
    split_and!; [congruence|congruence|].
    intros [Hu1 Hu2]. apply tick_unit_attitudes. split; congruence.
  - pose proof (land_fields params_ sim.1) as Hl. cbn zeta in Hl.
    destruct Hl as (_ & _ & Ha & Hi & _).
    split_and!; [destruct sim.1; reflexivity|exact Hi|].
    intros [_ Hu]. split; congruence.
Qed.

(** X24: no round of the loop, calibrating, simulating or landing, changes
    the initial position or the initial attitude that the simulator has
    stored. *)
Theorem proceedDynamics_keeps_reference (periodSec : R)
    (sim : State * CalibrationType_t) (inputs : list LoopInput) :
  let sim' := proceedDynamics_run params_ tables_ periodSec sim inputs in
  initialPose sim'.1 = initialPose sim.1
  ∧ initialAttitude sim'.1 = initialAttitude sim.1.
Proof.
  cbn zeta. revert sim. induction inputs as [|i inputs IH]; intros sim.
  - split; reflexivity.
  - unfold proceedDynamics_run in *. cbn [foldl].
    destruct (IH (proceedDynamics_round params_ tables_ periodSec sim i).1) as [Hp Hi].
    pose proof (proceedDynamics_round_invariants periodSec sim i) as Hr.
    cbn zeta in Hr. destruct Hr as (Hp' & Hi' & _).
    split; congruence.
Qed.

(** X25: once the attitude and the stored initial attitude have norm one, as
    the initial pose leaves them, they have norm one after every round of the
    loop, whatever the rounds do. *)
Theorem proceedDynamics_keeps_unit_attitudes (periodSec : R)
    (sim : State * CalibrationType_t) (inputs : list LoopInput) :
  unit_attitudes sim.1 →
  unit_attitudes (proceedDynamics_run params_ tables_ periodSec sim inputs).1.
Proof.
  revert sim. induction inputs as [|i inputs IH]; intros sim Hu.
  - exact Hu.
  - unfold proceedDynamics_run in *. cbn [foldl]. apply IH.
    pose proof (proceedDynamics_round_invariants periodSec sim i) as Hr.
    cbn zeta in Hr. destruct Hr as (_ & _ & Hr). apply Hr, Hu.
Qed.

(** X26: the whole pipeline keeps a landed vehicle landed when no wind blows
    and the thrusters give neither thrust nor torque at the filtered
    commands: [process] then ends on the ground, at rest, in the initial
    attitude. *)
Theorem process_stays_landed (s : State) (dtSecs : R) (motorCmd : list R)
    (isCmdPercent : bool) (noise : Vector3d) (polynomialCoeffs0 : list R)
    (thrust0 torque0 : array5 R) :
  0 < mass params_ → 0 <= gravity params_ →
  landed s →
  windVelocity s = vzero → windVariance s = 0 →
  (∀ idx out, (idx < 5)%nat →
     let actuators :=
       (updateActuators tables_ s
          (if isCmdPercent then mapCmdToActuatorInnoVTOL params_ motorCmd
           else (motorCmd, [])).1 dtSecs).2 in
     (thruster tables_ (actuators !!! idx) out).1.1 = 0
     ∧ (thruster tables_ (actuators !!! idx) out).1.2 = 0) →
  let s' := (process params_ tables_ s dtSecs motorCmd isCmdPercent noise
               polynomialCoeffs0 thrust0 torque0).1 in
  landed s' ∧ initialAttitude s' = initialAttitude s.
Proof.
  intros Hm Hg (Hz & Hv & Hw & Ha) Hwv Hwvar Hthrust. cbn zeta.
  assert (Hair : (calculateAirSpeed (calculateRotationMatrix s) (linearVel s)
                    (calculateWind s noise)).1 = vzero).
  { unfold calculateWind. rewrite Hwv, Hwvar, Hv, sqrt_0.
    unfold calculateAirSpeed.
    assert (Hzero : vsub vzero
                      (vadd (V3 (0 * v0 noise + v0 vzero) (0 * v1 noise + v1 vzero)
                                (0 * v2 noise + v2 vzero)) vzero) = vzero).
    { unfold vsub, vadd, vzero. cbn [v0 v1 v2]. f_equal; ring. }
    rewrite Hzero, mulv_vzero.
    destruct (decide _) as [Hbig|_]; [|reflexivity].
    exfalso. unfold vzero in Hbig. cbn in Hbig. rewrite Rabs_R0 in Hbig. lra. }
  destruct (process_is_tick s dtSecs motorCmd isCmdPercent noise polynomialCoeffs0
              thrust0 torque0) as (s2 & -> & (Hi2 & Ha2 & Hw2 & Hv2 & Hp2) & _).
  rewrite Hair.
  pose proof (aerodynamics_without_airspeed params_ tables_
                (updateActuators tables_ s
                   (if isCmdPercent then mapCmdToActuatorInnoVTOL params_ motorCmd
                    else (motorCmd, [])).1 dtSecs).1
                (calculateAnglesOfAtack vzero) (calculateAnglesOfSideslip vzero)
                ((updateActuators tables_ s
                   (if isCmdPercent then mapCmdToActuatorInnoVTOL params_ motorCmd
                    else (motorCmd, [])).1 dtSecs).2 !!! 5%nat)
                ((updateActuators tables_ s
                   (if isCmdPercent then mapCmdToActuatorInnoVTOL params_ motorCmd
                    else (motorCmd, [])).1 dtSecs).2 !!! 6%nat)
                ((updateActuators tables_ s
                   (if isCmdPercent then mapCmdToActuatorInnoVTOL params_ motorCmd
                    else (motorCmd, [])).1 dtSecs).2 !!! 7%nat)
                polynomialCoeffs0) as Hload.
  cbn zeta in Hload. destruct Hload as [HF HM]. rewrite HF, HM.
  match goal with
  | |- landed (tick _ _ _ ?i) ∧ _ =>
      destruct (rest_tick params_ tables_ s2 i Hm Hg) as [Hl Hi]
  end.
  - unfold landed. split_and!; congruence.
  - intros idx out Hidx. apply (Hthrust idx out Hidx).
  - split; reflexivity.
  - split; [exact Hl|congruence].
Qed.

End Pipeline.

Lemma aerodynamics_diagnostics (s : State) (a b c d e : Vector3d) :
  let s' := s <| Flift := a |> <| Fdrug := b |> <| Fside := c |> <| Msteer := d |>
              <| Mairspeed := e |> in
  Flift s' = a ∧ Fdrug s' = b ∧ Fside s' = c ∧ Msteer s' = d ∧ Mairspeed s' = e.
Proof. destruct s. split_and!; reflexivity. Qed.

(** X27: without air speed there is no dynamic pressure: the aerodynamic
    force and moment that [calculateAerodynamics] returns are zero, and so are
    the lift, the drag, the side force and the two moments that it stores,
    whatever the tables, the angles and the control surfaces are. *)
Theorem calculateAerodynamics_still_air (params_ : VtolParameters)
    (tables_ : TablesWithCoeffs) (s : State)
    (AoA_rad AoS_rad aileron_pos elevator_pos rudder_pos : R)
    (polynomialCoeffs0 : list R) :
  let r := calculateAerodynamics params_ tables_ s vzero AoA_rad AoS_rad
             aileron_pos elevator_pos rudder_pos polynomialCoeffs0 in
  r.1.2 = vzero ∧ r.2 = vzero
  ∧ Flift r.1.1 = vzero ∧ Fdrug r.1.1 = vzero ∧ Fside r.1.1 = vzero
  ∧ Msteer r.1.1 = vzero ∧ Mairspeed r.1.1 = vzero.
Proof.
  cbn zeta.
  pose proof (aerodynamics_without_airspeed params_ tables_ s AoA_rad AoS_rad
                aileron_pos elevator_pos rudder_pos polynomialCoeffs0) as [HF HM].
  split; [exact HF|]. split; [exact HM|]. clear HF HM.
  unfold calculateAerodynamics. cbn [fst snd].
  assert (Hq : calculateDynamicPressure params_ (vnorm vzero) = 0).
  { unfold calculateDynamicPressure, vnorm, vsquaredNorm, vzero. cbn.
    replace (0 * 0 + 0 * 0 + 0 * 0) with 0 by ring. rewrite sqrt_0. ring. }
  rewrite Hq.
  replace (0.5 * 0 * characteristicLength params_) with 0 by ring.
  set (k := 0.5 * 0 * characteristicLength params_).
  assert (Hk : k = 0) by (unfold k; ring). clearbody k. subst k.
  assert (Hs : ∀ v, smul 0 v = vzero)
    by (intros v; unfold smul, vzero; f_equal; ring).
  assert (Hv : ∀ v, vscale v 0 = vzero)
    by (intros v; unfold vscale, vzero; f_equal; ring).
  pose proof (aerodynamics_diagnostics s) as Hd.
  split_and!.
  - etransitivity; [apply Hd|apply Hs].
  - etransitivity; [apply Hd|apply Hs].
  - etransitivity; [apply Hd|apply Hs].
  - etransitivity; [apply Hd|apply Hv].
  - etransitivity; [apply Hd|apply Hv].
Qed.

(** ** Staying on the ground *)

(** The inverse of the rotation matrix of a normalised attitude keeps the
    length of a vector. *)
Lemma inverse_rotation_keeps_norm (q : Quaterniond) (v : Vector3d) :
  vsquaredNorm (mulv (inverse (transpose (toRotationMatrix (qnormalize q)))) v)
  = vsquaredNorm v.
Proof.
  rewrite <- (normalized_rotation_keeps_norm q
                (mulv (inverse (transpose (toRotationMatrix (qnormalize q)))) v)).
  rewrite mulv_inverse; [reflexivity|].
  rewrite determinant_rotation_normalized. lra.
Qed.

(** On the ground and without linear velocity, with no thrust and under an
    aerodynamic force that is not larger than the weight: whatever the torques
    of the thrusters and the aerodynamic moment turn the vehicle to, the
    integrated position is not above the ground. *)
Lemma grounded_integrated_position (params_ : VtolParameters) (tables_ : TablesWithCoeffs)
    (s : State) (i : TickInput) :
  mass params_ ≠ 0 → 0 <= gravity params_ →
  v2 (position s) = 0 → linearVel s = vzero →
  no_thrust tables_ i →
  vsquaredNorm (tick_Faero i) <= (mass params_ * gravity params_) ^ 2 →
  v2 (integrated_position params_ tables_ s i) >= 0.
Proof.
  intros Hm Hg Hz Hv Hthrust HF. unfold integrated_position.
  pose proof (integrateState_equations params_ tables_ s (tick_Maero i) (tick_Faero i)
                (tick_actuator i) (tick_dt i) (tick_thrust0 i) (tick_torque0 i)) as Heq.
  cbn beta zeta in Heq.
  set (r := integrateState _ _ _ _ _ _ _ _ _) in *. clearbody r.
  destruct Heq as (_ & HFm & _ & _ & _ & _ & Har & HR & HFs & HFt & Hla & Hvr & Hpr).
  rewrite !Hthrust in HFm by lia.
  assert (HFs0 : r.1.2 = vdiv (tick_Faero i) (mass params_)).
  { rewrite HFs, HFm. destruct (tick_Faero i). unfold vadd, vdiv. cbn.
    f_equal; field; exact Hm. }
  assert (HR' : r.2 = transpose (toRotationMatrix
                        (qnormalize (qaddscaled (attitude s)
                           (qmul (attitude s)
                              (Quat 0 (v0 (angularVel r.1.1)) (v1 (angularVel r.1.1))
                                    (v2 (angularVel r.1.1)))) 0.5 (tick_dt i))))).
  { rewrite HR. unfold calculateRotationMatrix. rewrite Har. reflexivity. }
  assert (Hdet : determinant r.2 ≠ 0).
  { rewrite HR', determinant_rotation_normalized. lra. }
  assert (Hacc : linearAccel r.1.1
                 = vadd (mulv (inverse r.2) (vdiv (tick_Faero i) (mass params_)))
                        (V3 0 0 (gravity params_))).
  { rewrite Hla, HFt, linear_acceleration by assumption. rewrite HFs0. reflexivity. }
  assert (Hnorm : vsquaredNorm (mulv (inverse r.2) (vdiv (tick_Faero i) (mass params_)))
                  = vsquaredNorm (vdiv (tick_Faero i) (mass params_))).
  { rewrite HR'. apply inverse_rotation_keeps_norm. }
  assert (Hweight : vsquaredNorm (vdiv (tick_Faero i) (mass params_))
                    <= gravity params_ * gravity params_).
  { assert (Hsq : vsquaredNorm (vdiv (tick_Faero i) (mass params_))
                  = vsquaredNorm (tick_Faero i) / (mass params_ * mass params_)).
    { destruct (tick_Faero i). unfold vsquaredNorm, vdiv. cbn. field. exact Hm. }
    rewrite Hsq.
    assert (Hmm : 0 < mass params_ * mass params_) by nra.
    apply (Rmult_le_reg_r (mass params_ * mass params_)); [exact Hmm|].
    replace (vsquaredNorm (tick_Faero i) / (mass params_ * mass params_)
             * (mass params_ * mass params_))
      with (vsquaredNorm (tick_Faero i)) by (field; exact Hm).
    lra. }
  set (u := mulv (inverse r.2) (vdiv (tick_Faero i) (mass params_))) in *. clearbody u.
  rewrite <- Hnorm in Hweight.
  assert (Hup : 0 <= v2 u + gravity params_).
  { destruct u as [ux uy uz]. unfold vsquaredNorm in Hweight. cbn in *. nra. }
  rewrite Hpr, Hvr, Hacc, Hv. destruct u as [ux uy uz].
  unfold vzero, vadd, vscale. cbn in *. rewrite Hz.
  apply Rle_ge.
  replace (0 + (0 + (uz + gravity params_) * tick_dt i) * tick_dt i)
    with ((uz + gravity params_) * (tick_dt i * tick_dt i)) by ring.
  apply Rmult_le_pos; [exact Hup|nra].
Qed.

(** So the vehicle lands again, and is as [land] leaves it. *)
Lemma grounded_tick (params_ : VtolParameters) (tables_ : TablesWithCoeffs)
    (s : State) (i : TickInput) :
  mass params_ ≠ 0 → 0 <= gravity params_ →
  landed s → no_thrust tables_ i →
  vsquaredNorm (tick_Faero i) <= (mass params_ * gravity params_) ^ 2 →
  landed (tick params_ tables_ s i)
  ∧ initialAttitude (tick params_ tables_ s i) = initialAttitude s.
Proof.
  intros Hm Hg (Hz0 & Hv0 & _ & _) Hthrust HF.
  pose proof (grounded_integrated_position params_ tables_ s i Hm Hg Hz0 Hv0 Hthrust HF)
    as Hz.
  pose proof (tick_on_ground params_ tables_ s i Hz) as Hf. cbn zeta in Hf.
  destruct Hf as (Hv & Hw & Ha & Hi & Hp & _).
  unfold landed. rewrite Hv, Hw, Ha, Hi. split_and!; try reflexivity. exact Hp.
Qed.

Lemma grounded_run (params_ : VtolParameters) (tables_ : TablesWithCoeffs)
    (s : State) (inputs : list TickInput) :
  mass params_ ≠ 0 → 0 <= gravity params_ →
  landed s →
  Forall (λ i, no_thrust tables_ i
               ∧ vsquaredNorm (tick_Faero i) <= (mass params_ * gravity params_) ^ 2)
         inputs →
  landed (run_ticks params_ tables_ s inputs)
  ∧ initialAttitude (run_ticks params_ tables_ s inputs) = initialAttitude s.
Proof.
  intros Hm Hg Hl Hin. revert s Hl.
  induction Hin as [|i inputs [Hthrust HF] _ IH]; intros s Hl.
  - split; [exact Hl|reflexivity].
  - destruct (grounded_tick params_ tables_ s i Hm Hg Hl Hthrust HF) as [Hl' Hi'].
    unfold run_ticks in *. cbn [foldl].
    destruct (IH _ Hl') as [Hl'' Hi'']. split; [exact Hl''|congruence].
Qed.

(** C3, as the code has it: a tick whose integrated position reaches the
    ground leaves no linear and no angular velocity, the stored initial
    attitude and five rpm values of zero.  From there, with a mass that is not
    zero and a gravity that is not negative, every run of ticks in which the
    thrusters give no thrust and in which the aerodynamic force is not larger
    than the weight keeps the velocities at zero and the attitude at the
    initial one, whatever the torques of the thrusters and the aerodynamic
    moments are. *)
Theorem ground_contact_reset (params_ : VtolParameters) (tables_ : TablesWithCoeffs)
    (s : State) (i : TickInput) (later : list TickInput) :
  v2 (integrated_position params_ tables_ s i) >= 0 →
  let s1 := tick params_ tables_ s i in
  (linearVel s1 = vzero ∧ angularVel s1 = vzero
   ∧ attitude s1 = initialAttitude s ∧ motorsRpm s1 = Arr5 0 0 0 0 0)
  ∧ (mass params_ ≠ 0 → 0 <= gravity params_ →
     Forall (λ j, no_thrust tables_ j
                  ∧ vsquaredNorm (tick_Faero j) <= (mass params_ * gravity params_) ^ 2)
            later →
     ∀ n, let sn := run_ticks params_ tables_ s1 (take n later) in
          linearVel sn = vzero ∧ angularVel sn = vzero
          ∧ attitude sn = initialAttitude s).
Proof.
  intros Hz. cbn zeta.
  pose proof (tick_on_ground params_ tables_ s i Hz) as Hf. cbn zeta in Hf.
  destruct Hf as (Hv & Hw & Ha & Hi & Hp & Hr).
  split; [split_and!; assumption|].
  intros Hm Hg Hlater n.
  assert (Hl : landed (tick params_ tables_ s i)).
  { unfold landed. rewrite Hv, Hw, Ha, Hi. split_and!; try reflexivity. exact Hp. }
  destruct (grounded_run params_ tables_ _ (take n later) Hm Hg Hl)
    as [(_ & Hv' & Hw' & Ha') Hi'].
  { apply Forall_take, Hlater. }
  rewrite Hv', Hw', Ha', Hi', Hi. split_and!; reflexivity.
Qed.

End WithRowSearch.

(** ** The definitions at work on the sample data *)

Lemma exp_double (x a b : R) : 0 < a → a < exp x → b <= a * a → b < exp (x + x).
Proof. intros Ha Hx Hb. rewrite exp_plus. nra. Qed.

(** The literal 2.71 of [updateActuators] is below the base of the natural
    logarithm. *)
Lemma exp_1_gt_2_71 : 2.71 < exp 1.
Proof.
  assert (H0 : 1.00390625 < exp (1/256)).
  { pose proof (exp_ineq1 (1/256)). lra. }
  assert (H1 : 1.007827 < exp (1/128)).
  { replace (1/128) with (1/256 + 1/256) by lra.
    apply (exp_double _ 1.00390625); [lra|exact H0|lra]. }
  assert (H2 : 1.015715 < exp (1/64)).
  { replace (1/64) with (1/128 + 1/128) by lra.
    apply (exp_double _ 1.007827); [lra|exact H1|lra]. }
  assert (H3 : 1.031676 < exp (1/32)).
  { replace (1/32) with (1/64 + 1/64) by lra.
    apply (exp_double _ 1.015715); [lra|exact H2|lra]. }
  assert (H4 : 1.064355 < exp (1/16)).
  { replace (1/16) with (1/32 + 1/32) by lra.
    apply (exp_double _ 1.031676); [lra|exact H3|lra]. }
  assert (H5 : 1.132851 < exp (1/8)).
  { replace (1/8) with (1/16 + 1/16) by lra.
    apply (exp_double _ 1.064355); [lra|exact H4|lra]. }
  assert (H6 : 1.283351 < exp (1/4)).
  { replace (1/4) with (1/8 + 1/8) by lra.
    apply (exp_double _ 1.132851); [lra|exact H5|lra]. }
  assert (H7 : 1.646989 < exp (1/2)).
  { replace (1/2) with (1/4 + 1/4) by lra.
    apply (exp_double _ 1.283351); [lra|exact H6|lra]. }
  replace 1 with (1/2 + 1/2) by lra.
  apply (exp_double _ 1.646989); [lra|exact H7|lra].
Qed.

Lemma Rpower_2_71_neq_exp (y : R) : y ≠ 0 → Rpower 2.71 y ≠ exp y.
Proof.
  intros Hy Heq. unfold Rpower in Heq.
  apply exp_inv in Heq.
  assert (Hln : ln 2.71 = 1) by nra.
  pose proof exp_1_gt_2_71 as Hgt.
  rewrite <- Hln in Hgt. rewrite exp_ln in Hgt; lra.
Qed.

(** C1, the claim as stated fails: with the previous filtered value 1, the
    target 0, a step of 0.0025 s and a time constant of 0.05 s, the filtered
    output is not [t + (p - t) * (1 - e ^ (- dt / tau))]. *)
Lemma updateActuators_base_is_not_e :
  let s := sample_state <| crntActuators := [1; 0; 0; 0; 0; 0; 0; 0] |> in
  let out := updateActuators sample_tables s (replicate 8 0) 0.0025 in
  out.2 !!! 0%nat ≠ 0 + (1 - 0) * (1 - exp (- 0.0025 / 0.05)).
Proof.
  cbn. unfold cmath.pow. intros Heq.
  assert (E1 : - (0.0025) / 0.05 = - (0.05)) by lra.
  assert (E2 : - 0.0025 / 0.05 = - (0.05)) by lra.
  rewrite E1, E2 in Heq.
  apply (Rpower_2_71_neq_exp (- (0.05))); lra.
Qed.

Lemma updateActuators_lag_witness :
  let tables_ := sample_tables in
  let s := sample_state <| crntActuators := [1; 0; 0; 0; 0; 0; 0; 0] |> in
  let cmd := replicate 8 0 in
  let dtSecs := 0.0025 in
  let idx := 0%nat in
  let p := crntActuators s !!! idx in
  let t := cmd !!! idx in
  let tau := actuatorTimeConstants tables_ !!! idx in
  let out := updateActuators tables_ s cmd dtSecs in
  out.2 !!! idx = t + (p - t) * (1 - Rpower 2.71 (- dtSecs / tau))
  ∧ crntActuators out.1 !!! idx = out.2 !!! idx
  ∧ prevActuators out.1 = crntActuators s.
Proof.
  intros tables_ s cmd dtSecs idx.
  apply (updateActuators_lag tables_ s cmd dtSecs idx).
  - reflexivity.
  - reflexivity.
  - reflexivity.
  - subst idx. lia.
  - subst dtSecs. lra.
  - subst tables_ idx. cbn. lra.
Defined.

(** C5, the claim as stated fails: at 10 m/s the returned value is 180, not
    the 90 that the factor one half would give. *)
Lemma dynamic_pressure_has_no_half :
  calculateDynamicPressure sample_params 10
  ≠ 0.5 * atmoRho sample_params * 10 ^ 2 * wingArea sample_params.
Proof. unfold calculateDynamicPressure. cbn. lra. Qed.

Lemma mixers_pass_wrong_size_through_witness :
  let cmd := [0.5; 0.5; 0.5] in
  mapCmdToActuatorStandardVTOL sample_params cmd = (cmd, [wrong_control_size (length cmd)])
  ∧ mapCmdToActuatorInnoVTOL sample_params cmd = (cmd, [wrong_control_size (length cmd)]).
Proof.
  intros cmd. apply (mixers_pass_wrong_size_through sample_params cmd).
  subst cmd. cbn. lia.
Defined.

Lemma standard_vtol_rudder_is_zero_witness :
  let cmd := replicate 8 0.5 in
  let out := mapCmdToActuatorStandardVTOL sample_params cmd in
  out.2 = [] ∧ length out.1 = 8%nat ∧ out.1 !!! 7%nat = 0.
Proof.
  intros cmd. apply (standard_vtol_rudder_is_zero sample_params cmd); reflexivity.
Defined.

(** C8, the claim as stated fails: in the airspeed mode, on a call that does
    not change the mode, the attitude is set to the fixed quaternion again;
    it is not the step from the attitude that the state had. *)
Lemma calibrate_airspeed_assigns_again :
  let s := sample_state <| attitude := Quat 0 1 0 0 |> in
  let r := calibrate sample_params AIRSPEED AIRSPEED s in
  attitude r.1.1 = Quat 1 0 0 0
  ∧ attitude r.1.1 ≠ attitude_step DELTA_TIME (attitude s) (angularVel r.1.1).
Proof.
  cbn zeta.
  assert (Hw : angularVel (calibrate sample_params AIRSPEED AIRSPEED
                 (sample_state <| attitude := Quat 0 1 0 0 |>)).1.1 = vzero)
    by reflexivity.
  rewrite calibrate_attitude, Hw, !attitude_step_at_rest.
  rewrite !qnormalize_unit by (unfold qsquaredNorm; cbn; lra).
  split; [reflexivity|]. cbn. intros Heq. injection Heq as Heq. lra.
Qed.

(** C4, the claim as stated fails: the table has two rows and three columns
    and its breakpoints are 1 apart, yet the call returns [false], because the
    coefficient vector has one entry where two are written. *)
Lemma polynomial_table_rejects_short_vector :
  rows sample_polynomial = 2%nat ∧ cols sample_polynomial = 3%nat
  ∧ ¬ Rabs (coeff sample_polynomial 1 0 - coeff sample_polynomial 0 0) < 0.001
  ∧ (calculatePolynomialUsingTable first_row sample_polynomial 0.5 [0]).1 = false.
Proof.
  split_and!; try reflexivity.
  cbn. rewrite Rabs_right by lra. lra.
Qed.

Lemma polynomial_table_interpolation_witness :
  let r := calculatePolynomialUsingTable first_row sample_polynomial 0.5 [0; 0] in
  r.1 = true ∧ length r.2 = 2%nat ∧ r.2 !!! 1%nat = 1 + 0.5 / 1 * (2 - 1).
Proof.
  destruct (polynomial_table_interpolation first_row sample_polynomial 0.5 [0; 0])
    as [_ Hok].
  destruct Hok as (Hflag & Hlen & Hlerp & _).
  { intros [H|[H|[H|[H|H]]]]; cbn in H; try lia.
    rewrite Rabs_right in H; lra. }
  cbn zeta. split_and!; [exact Hflag|exact Hlen|].
  rewrite (Hlerp 1%nat) by (cbn; lia). cbn. lra.
Defined.

(** The unit tests [test_normal_vector] and [test_wrong_table]. *)
Example test_normal_vector :
  calculatePolynomialUsingTable first_row sample_polynomial 0.5 [0; 0] = (true, [0.5; 1.5]).
Proof.
  unfold calculatePolynomialUsingTable, first_row.
  destruct (decide _) as [Hbad|_]; [cbn in Hbad; lia|].
  destruct (decide _) as [Hbad|_]; [cbn in Hbad; lia|].
  destruct (Rlt_dec _ _) as [Hbad|_].
  { cbn in Hbad. rewrite Rabs_right in Hbad by lra. lra. }
  cbn. unfold Math.lerp. repeat f_equal; lra.
Qed.

Example test_wrong_table :
  (calculatePolynomialUsingTable first_row (matrix_of_rows [[0; 0]; [0; 0]]) 0.5 [7]).1
  = false.
Proof.
  unfold calculatePolynomialUsingTable, first_row.
  destruct (decide _) as [Hbad|_]; [reflexivity|].
  destruct (decide _) as [Hbad|_]; [reflexivity|].
  destruct (Rlt_dec _ _) as [_|Hok]; [reflexivity|].
  exfalso. apply Hok. cbn. rewrite Rabs_right by lra. lra.
Qed.

(** With no command the sample propeller table gives no thrust and no
    torque. *)
Lemma sample_zero_thrust (i : TickInput) :
  tick_actuator i = replicate 8 0 → zero_thrust first_row sample_tables i.
Proof.
  intros Hact idx out Hidx. rewrite Hact.
  unfold thruster, first_row.
  destruct (decide _) as [_|Hbad]; [|cbn in Hbad; lia].
  do 5 (destruct idx as [|idx]; [cbn; unfold Math.lerp; split; lra|]).
  lia.
Qed.

Lemma rest_input_reaches_ground (s : State) :
  landed s → v2 (integrated_position first_row sample_params sample_tables s rest_input) >= 0.
Proof.
  intros Hl.
  rewrite rest_integrated_position.
  - cbn. lra.
  - cbn. lra.
  - exact Hl.
  - apply sample_zero_thrust. reflexivity.
  - split; reflexivity.
Qed.

Lemma sample_state_landed : landed sample_state.
Proof. split_and!; reflexivity. Qed.

Lemma tilted_state_landed : landed tilted_state.
Proof. split_and!; reflexivity. Qed.

(** C2, the claim as stated fails: from the initial attitude of the unit test
    [calculateNewStateFirstCaseOnlyAttitude], which is not of norm one, a tick
    on the ground leaves that attitude in the state. *)
Lemma attitude_norm_not_one_after_landing :
  qnorm (attitude (tick first_row sample_params sample_tables tilted_state rest_input)) ≠ 1.
Proof.
  pose proof (tick_on_ground first_row sample_params sample_tables tilted_state rest_input
                (rest_input_reaches_ground _ tilted_state_landed)) as Hf.
  cbn zeta in Hf. destruct Hf as (_ & _ & Ha & _). rewrite Ha.
  unfold qnorm. intros Hn.
  pose proof (sqrt_sqrt (qsquaredNorm (initialAttitude tilted_state))
                (qsquaredNorm_nonneg _)) as Hs.
  rewrite Hn in Hs. unfold qsquaredNorm in Hs. cbn in Hs. lra.
Qed.

Lemma attitude_norm_after_step_witness :
  let s := sample_state in
  let i := rest_input in
  (v2 (integrated_position first_row sample_params sample_tables s i) < 0 →
     qnorm (attitude (tick first_row sample_params sample_tables s i)) = 1)
  ∧ (v2 (integrated_position first_row sample_params sample_tables s i) >= 0 →
       attitude (tick first_row sample_params sample_tables s i) = initialAttitude s)
  ∧ qnorm (attitude (calibrate sample_params WORK_MODE MAG_1_NORMAL s).1.1) = 1
  ∧ (qnorm (initialAttitude s) = 1 →
       qnorm (attitude (tick first_row sample_params sample_tables s i)) = 1).
Proof.
  intros s i.
  apply (attitude_norm_after_step first_row sample_params sample_tables s i
           WORK_MODE MAG_1_NORMAL).
  subst s. unfold qsquaredNorm. cbn. lra.
Defined.

(** The later ticks of the sample run: one under an aerodynamic moment and a
    force that points up but is less than the weight, one at rest.  Neither
    has thrust. *)
Lemma sample_later_ticks :
  Forall (λ j, no_thrust first_row sample_tables j
               ∧ vsquaredNorm (tick_Faero j)
                 <= (mass sample_params * gravity sample_params) ^ 2)
         [moment_input; rest_input]
  ∧ tick_Maero moment_input ≠ vzero ∧ tick_Faero moment_input ≠ vzero.
Proof.
  split_and!.
  - constructor; [split|constructor; [split|constructor]].
    + intros idx out Hidx.
      exact (proj1 (sample_zero_thrust moment_input eq_refl idx out Hidx)).
    + unfold vsquaredNorm. cbn. lra.
    + intros idx out Hidx.
      exact (proj1 (sample_zero_thrust rest_input eq_refl idx out Hidx)).
    + unfold vsquaredNorm. cbn. lra.
  - unfold moment_input, vzero. cbn. intros Heq. injection Heq. lra.
  - unfold moment_input, vzero. cbn. intros Heq. injection Heq. lra.
Qed.

Lemma ground_contact_reset_witness :
  let s := sample_state in
  let i := rest_input in
  let later := [moment_input; rest_input] in
  let s1 := tick first_row sample_params sample_tables s i in
  (linearVel s1 = vzero ∧ angularVel s1 = vzero
   ∧ attitude s1 = initialAttitude s ∧ motorsRpm s1 = Arr5 0 0 0 0 0)
  ∧ (mass sample_params ≠ 0 → 0 <= gravity sample_params →
     Forall (λ j, no_thrust first_row sample_tables j
                  ∧ vsquaredNorm (tick_Faero j)
                    <= (mass sample_params * gravity sample_params) ^ 2)
            later →
     ∀ n, let sn := run_ticks first_row sample_params sample_tables s1 (take n later) in
          linearVel sn = vzero ∧ angularVel sn = vzero
          ∧ attitude sn = initialAttitude s).
Proof.
  intros s i later.
  apply (ground_contact_reset first_row sample_params sample_tables s i later).
  apply rest_input_reaches_ground, sample_state_landed.
Defined.

(** C3, the claim as stated fails: after a tick that reached the ground, a
    tick with no thrust and no torque in which an aerodynamic force of 1000 N,
    more than the weight, points up leaves a linear velocity that is not
    zero. *)
Lemma ground_reset_lost_under_lift :
  let s1 := tick first_row sample_params sample_tables sample_state rest_input in
  v2 (integrated_position first_row sample_params sample_tables sample_state rest_input) >= 0
  ∧ zero_thrust first_row sample_tables lift_input
  ∧ (mass sample_params * gravity sample_params) ^ 2 < vsquaredNorm (tick_Faero lift_input)
  ∧ linearVel (tick first_row sample_params sample_tables s1 lift_input) ≠ vzero.
Proof.
  cbn zeta.
  pose proof (rest_input_reaches_ground _ sample_state_landed) as Hz.
  split; [exact Hz|]. split; [apply sample_zero_thrust; reflexivity|].
  split; [unfold vsquaredNorm; cbn; lra|].
  pose proof (tick_on_ground first_row sample_params sample_tables sample_state rest_input Hz)
    as Hf.
  cbn zeta in Hf. destruct Hf as (Hv & Hw & Ha & _ & Hp & _).
  set (s1 := tick first_row sample_params sample_tables sample_state rest_input) in *.
  clearbody s1.
  assert (Hm : mass sample_params ≠ 0) by (cbn; lra).
  pose proof (unpowered_integrated_motion first_row sample_params sample_tables s1 lift_input
                Hm Hw (sample_zero_thrust lift_input eq_refl) eq_refl) as Hmotion.
  cbn zeta in Hmotion.
  assert (Hpos : integrated_position first_row sample_params sample_tables s1 lift_input
                 = position (integrateState first_row sample_params sample_tables s1
                     (tick_Maero lift_input) (tick_Faero lift_input)
                     (tick_actuator lift_input) (tick_dt lift_input)
                     (tick_thrust0 lift_input) (tick_torque0 lift_input)).1.1)
    by reflexivity.
  pose proof (tick_aloft first_row sample_params sample_tables s1 lift_input) as Haloft.
  cbn zeta in Haloft. rewrite Hpos in Haloft. clear Hpos.
  set (r := integrateState _ _ _ _ _ _ _ _ _ _) in *. clearbody r.
  destruct Hmotion as (_ & _ & Hla & Hvr & Hpr).
  rewrite Ha in Hla.
  replace (qnormalize (initialAttitude sample_state)) with (Quat 1 0 0 0) in Hla
    by (symmetry; apply qnormalize_unit; unfold qsquaredNorm; cbn; lra).
  assert (Hacc : v2 (linearAccel r.1.1) < -100).
  { rewrite Hla. cbn.
    replace (determinant (transpose (toRotationMatrix (Quat 1 0 0 0)))) with 1
      by (unfold determinant; cbn; lra).
    lra. }
  assert (Hvel : v2 (linearVel r.1.1) < 0).
  { rewrite Hvr, Hv. unfold vadd, vscale, vzero. cbn [v0 v1 v2 tick_dt lift_input]. lra. }
  assert (Hz1 : v2 (position r.1.1) < 0).
  { rewrite Hpr. unfold vadd, vscale. cbn [v0 v1 v2 tick_dt lift_input]. rewrite Hp. lra. }
  destruct (Haloft Hz1) as (Hv' & _).
  rewrite Hv'. intros Heq. rewrite Heq in Hvel. cbn in Hvel. lra.
Qed.

(** The sample run: after the tick on the ground, a tick under an aerodynamic
    moment and a tick at rest leave the vehicle as [land] left it. *)
Example sample_run_stays_grounded :
  let s1 := tick first_row sample_params sample_tables sample_state rest_input in
  let sn := run_ticks first_row sample_params sample_tables s1 [moment_input; rest_input] in
  linearVel sn = vzero ∧ angularVel sn = vzero
  ∧ attitude sn = initialAttitude sample_state.
Proof.
  cbn zeta.
  pose proof (tick_on_ground first_row sample_params sample_tables sample_state rest_input
                (rest_input_reaches_ground _ sample_state_landed)) as Hf.
  cbn zeta in Hf. destruct Hf as (Hv & Hw & Ha & Hi & Hp & _).
  assert (Hl : landed (tick first_row sample_params sample_tables sample_state rest_input)).
  { unfold landed. rewrite Hv, Hw, Ha, Hi. split_and!; try reflexivity. exact Hp. }
  assert (Hm : mass sample_params ≠ 0) by (cbn; lra).
  assert (Hg : 0 <= gravity sample_params) by (cbn; lra).
  destruct (grounded_run first_row sample_params sample_tables _ [moment_input; rest_input]
              Hm Hg Hl (proj1 sample_later_ticks)) as [(_ & Hv' & Hw' & Ha') Hi'].
  rewrite Hv', Hw', Ha', Hi', Hi. split_and!; reflexivity.
Qed.

(** The unit test [polyval]: 3.1859 within 0.001. *)
Example test_polyval :
  Rabs (Math.polyval [1.1; 1.2; 1.3; 1.4; 1.5; 1.6; 1.7] 0.5 - 3.1859) < 0.001.
Proof. unfold Math.polyval. cbn. apply Rabs_def1; lra. Qed.

(** The unit test [calculateNewStateFirstCaseOnlyAttitude]: with no thrust and
    no aerodynamic load the linear acceleration is gravity along the z axis,
    whatever the attitude. *)
Example test_calculateNewState_only_attitude :
  linearAccel (tick first_row sample_params sample_tables tilted_state rest_input)
  = V3 0 0 9.8066.
Proof.
  rewrite tick_linearAccel.
  assert (Hm : mass sample_params ≠ 0) by (cbn; lra).
  pose proof (unpowered_integrated_motion first_row sample_params sample_tables
                tilted_state rest_input Hm eq_refl
                (sample_zero_thrust rest_input eq_refl) eq_refl) as Hmotion.
  cbn zeta in Hmotion. destruct Hmotion as (_ & _ & Hla & _).
  rewrite Hla.
  replace (vdiv (tick_Faero rest_input) (mass sample_params)) with vzero
    by (unfold vdiv, vzero; cbn; f_equal; lra).
  rewrite mulv_vzero. unfold vadd, vzero. cbn. f_equal; lra.
Qed.

(** ** The further properties at concrete inputs *)

Lemma sample_limits :
  length (actuatorMax sample_params) = 8%nat
  ∧ length (actuatorMin sample_params) = 8%nat
  ∧ (∀ i, (i < 8)%nat → 0 <= actuatorMax sample_params !!! i)
  ∧ (∀ i, (5 <= i < 8)%nat → actuatorMin sample_params !!! i <= 0).
Proof.
  split_and!; try reflexivity.
  - intros i Hi. do 8 (destruct i as [|i]; [cbn; lra|]). lia.
  - intros i Hi. do 8 (destruct i as [|i]; [cbn; lra|]). lia.
Qed.

Lemma standard_vtol_within_limits_witness :
  let params_ := sample_params in
  let cmd := [0.5; 0.5; 0.5; 0.5; 1; 0.2; -0.4; 0.5] in
  let idx := 5%nat in
  let out := (mapCmdToActuatorStandardVTOL params_ cmd).1 in
  length out = 8%nat
  ∧ (if decide (idx < 5)%nat then 0 else actuatorMin params_ !!! idx) <= out !!! idx
  ∧ out !!! idx <= actuatorMax params_ !!! idx.
Proof.
  intros params_ cmd idx.
  apply (standard_vtol_within_limits params_ cmd idx).
  - reflexivity.
  - apply sample_limits.
  - apply sample_limits.
  - apply sample_limits.
  - apply sample_limits.
  - subst idx. lia.
Defined.

Lemma inno_vtol_within_limits_witness :
  let params_ := sample_params in
  let cmd := [0.5; 0.5; 0.5; 0.5; 1; 0.2; -0.4; 0.5] in
  let idx := 5%nat in
  let out := (mapCmdToActuatorInnoVTOL params_ cmd).1 in
  length out = 8%nat
  ∧ (if decide (idx < 5)%nat then 0 else actuatorMin params_ !!! idx) <= out !!! idx
  ∧ out !!! idx <= actuatorMax params_ !!! idx.
Proof.
  intros params_ cmd idx.
  apply (inno_vtol_within_limits params_ cmd idx).
  - reflexivity.
  - apply sample_limits.
  - apply sample_limits.
  - apply sample_limits.
  - apply sample_limits.
  - subst idx. lia.
Defined.

Lemma mixers_neutral_aileron_witness :
  let params_ := sample_params in
  let cmd := [0.5; 0.5; 0.5; 0.5; 0.5; 0.2; 0.2; 0.5] in
  (cmd !!! 5%nat = cmd !!! 6%nat →
     (mapCmdToActuatorStandardVTOL params_ cmd).1 !!! 5%nat = 0)
  ∧ (cmd !!! 4%nat = 0.5 →
       (mapCmdToActuatorInnoVTOL params_ cmd).1 !!! 5%nat = 0).
Proof.
  intros params_ cmd.
  apply (mixers_neutral_aileron params_ cmd); reflexivity.
Defined.

Lemma updateActuators_between_witness :
  let tables_ := sample_tables in
  let s := sample_state <| crntActuators := [1; 0; 0; 0; 0; 0; 0; 0] |> in
  let cmd := replicate 8 0 in
  let dtSecs := 0.0025 in
  let idx := 0%nat in
  let p := crntActuators s !!! idx in
  let t := cmd !!! idx in
  let out := (updateActuators tables_ s cmd dtSecs).2 in
  Rmin p t <= out !!! idx <= Rmax p t
  ∧ (p = t → out !!! idx = t).
Proof.
  intros tables_ s cmd dtSecs idx.
  apply (updateActuators_between tables_ s cmd dtSecs idx).
  - reflexivity.
  - reflexivity.
  - subst idx. lia.
  - subst dtSecs. lra.
  - subst tables_ idx. cbn. lra.
Defined.

Lemma calculateWind_without_variance_witness :
  let s := setWindParameter sample_state (V3 1 2 3) 0 in
  let noise := V3 0.3 (-0.2) 0.1 in
  calculateWind s noise = windVelocity s.
Proof.
  intros s noise. apply (calculateWind_without_variance s noise). reflexivity.
Defined.

Lemma griddata_exact_on_planes_witness :
  let x := matrix_of_rows [[-20]; [20]] in
  let y := matrix_of_rows [[5]; [40]] in
  let z := matrix_of_rows [[-24; 56]; [81; 161]] in
  let x_val := 3 in
  let y_val := 7 in
  let a := 1 in
  let b := 2 in
  let c := 3 in
  griddata first_row x y z x_val y_val = a + b * x_val + c * y_val.
Proof.
  intros x y z x_val y_val a b c.
  apply (griddata_exact_on_planes first_row x y z x_val y_val a b c).
  - subst x. cbn. lra.
  - subst y. cbn. lra.
  - subst x y z a b c. intros i j [-> | ->] [-> | ->]; cbn; lra.
Defined.

Lemma griddata_at_corners_witness :
  let x := matrix_of_rows [[-20]; [20]] in
  let y := matrix_of_rows [[5]; [40]] in
  let z := matrix_of_rows [[-24; 56]; [81; 161]] in
  let x_val := 20 in
  let y_val := 5 in
  let x1 := first_row x x_val in
  let y1 := first_row y y_val in
  let x2 := (x1 + 1)%nat in
  let y2 := (y1 + 1)%nat in
  (x_val = coeff1 x x1 → y_val = coeff1 y y1 →
     griddata first_row x y z x_val y_val = coeff z y1 x1)
  ∧ (x_val = coeff1 x x2 → y_val = coeff1 y y1 →
       griddata first_row x y z x_val y_val = coeff z y1 x2)
  ∧ (x_val = coeff1 x x1 → y_val = coeff1 y y2 →
       griddata first_row x y z x_val y_val = coeff z y2 x1)
  ∧ (x_val = coeff1 x x2 → y_val = coeff1 y y2 →
       griddata first_row x y z x_val y_val = coeff z y2 x2).
Proof.
  intros x y z x_val y_val.
  apply (griddata_at_corners first_row x y z x_val y_val).
  - subst x. cbn. lra.
  - subst y. cbn. lra.
Defined.

Lemma calculateAngularAccel_solves_euler_witness :
  let inertia_m := inertia sample_params in
  let moment := V3 1 2 3 in
  let prevAngVel := V3 0.1 0.2 0.3 in
  vadd (mulv inertia_m (calculateAngularAccel inertia_m moment prevAngVel))
       (cross prevAngVel (mulv inertia_m prevAngVel))
  = moment.
Proof.
  intros inertia_m moment prevAngVel.
  apply (calculateAngularAccel_solves_euler inertia_m moment prevAngVel).
  subst inertia_m. unfold determinant. cbn. lra.
Defined.

Lemma tick_unpowered_acceleration_witness :
  let s := tilted_state in
  let i := lift_input in
  let rot := transpose (toRotationMatrix (qnormalize (attitude s))) in
  linearAccel (tick first_row sample_params sample_tables s i)
  = vadd (mulv (inverse rot) (vdiv (tick_Faero i) (mass sample_params)))
         (V3 0 0 (gravity sample_params))
  ∧ (tick_Faero i = vzero →
       linearAccel (tick first_row sample_params sample_tables s i)
       = V3 0 0 (gravity sample_params)).
Proof.
  intros s i.
  apply (tick_unpowered_acceleration first_row sample_params sample_tables s i).
  - cbn. lra.
  - reflexivity.
  - apply sample_zero_thrust. reflexivity.
  - reflexivity.
Defined.

Lemma calibration_start_on_entry :
  calibration_start WORK_MODE ACC_2_OVERTURNED sample_state = Quat 0 1 0 0.
Proof.
  unfold calibration_start. cbn [attitude_policy].
  destruct (decide _) as [_|Hn]; [reflexivity|]. exfalso. apply Hn. discriminate.
Qed.

Lemma calibrate_specific_force_witness :
  let params_ := sample_params in
  let prevCalibrationType := WORK_MODE in
  let calType := ACC_2_OVERTURNED in
  let s := sample_state in
  let r := (calibrate params_ prevCalibrationType calType s).1.1 in
  vsquaredNorm (Fspecific r) = gravity params_ * gravity params_
  ∧ (calibration_start prevCalibrationType calType s = Quat 1 0 0 0 →
       Fspecific r = V3 0 0 (- gravity params_))
  ∧ (calibration_start prevCalibrationType calType s = Quat 0 1 0 0 →
       Fspecific r = V3 0 0 (gravity params_)).
Proof.
  intros params_ prevCalibrationType calType s.
  apply (calibrate_specific_force params_ prevCalibrationType calType s).
  subst prevCalibrationType calType s. rewrite calibration_start_on_entry.
  unfold qsquaredNorm. cbn. lra.
Defined.

Lemma calibrate_entry_specific_force_witness :
  let params_ := sample_params in
  let prevCalibrationType := WORK_MODE in
  let calType := ACC_3_HEAD_DOWN in
  let s := sample_state in
  vsquaredNorm (Fspecific (calibrate params_ prevCalibrationType calType s).1.1)
  = 0.999396182408 * (gravity params_ * gravity params_).
Proof.
  intros params_ prevCalibrationType calType s.
  apply (calibrate_entry_specific_force params_ prevCalibrationType calType s).
  - subst calType. do 4 (apply elem_of_cons; right). apply elem_of_cons. left. reflexivity.
  - subst prevCalibrationType calType. discriminate.
Defined.

Lemma calibrate_holds_attitude_witness :
  let params_ := sample_params in
  let prevCalibrationType := ACC_1_NORMAL in
  let calType := ACC_1_NORMAL in
  let s := sample_state in
  let r := (calibrate params_ prevCalibrationType calType s).1.1 in
  angularVel r = vzero
  ∧ attitude r = qnormalize (calibration_start prevCalibrationType calType s)
  ∧ (qsquaredNorm (calibration_start prevCalibrationType calType s) = 1 →
       attitude r = calibration_start prevCalibrationType calType s).
Proof.
  intros params_ prevCalibrationType calType s.
  apply (calibrate_holds_attitude params_ prevCalibrationType calType s).
  subst calType. apply elem_of_cons. right. apply elem_of_cons. left. reflexivity.
Defined.

Lemma proceedDynamics_keeps_unit_attitudes_witness :
  let sim := (sample_state, WORK_MODE) in
  unit_attitudes
    (proceedDynamics_run first_row sample_params sample_tables 0.0025 sim sample_rounds).1.
Proof.
  intros sim.
  apply (proceedDynamics_keeps_unit_attitudes first_row sample_params sample_tables 0.0025
           sim sample_rounds).
  subst sim. split; unfold qsquaredNorm; cbn; lra.
Defined.

Lemma process_stays_landed_witness :
  let s := sample_state in
  let dtSecs := 0.0025 in
  let motorCmd := replicate 8 0 in
  let noise := V3 0.3 (-0.2) 0.1 in
  let polynomialCoeffs0 := replicate 7 0 in
  let thrust0 := Arr5 0 0 0 0 0 in
  let s' := (process first_row sample_params sample_tables s dtSecs motorCmd false noise
               polynomialCoeffs0 thrust0 thrust0).1 in
  landed s' ∧ initialAttitude s' = initialAttitude s.
Proof.
  intros s dtSecs motorCmd noise polynomialCoeffs0 thrust0.
  apply (process_stays_landed first_row sample_params sample_tables s dtSecs motorCmd false
           noise polynomialCoeffs0 thrust0 thrust0).
  - cbn. lra.
  - cbn. lra.
  - apply sample_state_landed.
  - reflexivity.
  - reflexivity.
  - intros idx out Hidx. cbn zeta. cbn [fst].
    pose proof (updateActuators_channels sample_tables s motorCmd dtSecs eq_refl eq_refl)
      as Hch.
    cbn zeta in Hch. destruct Hch as (_ & _ & _ & Hch).
    assert (Hidx8 : (idx < 8)%nat) by lia.
    destruct (Hch idx Hidx8) as [Hout _]. rewrite Hout.
    assert (Hzero : motorCmd !!! idx
                    + (crntActuators s !!! idx - motorCmd !!! idx)
                      * (1 - Rpower 2.71
                               (- dtSecs / actuatorTimeConstants sample_tables !!! idx))
                    = 0).
    { do 5 (destruct idx as [|idx]; [cbn; ring|]). lia. }
    rewrite Hzero.
    exact (sample_zero_thrust rest_input eq_refl 0%nat out ltac:(lia)).
Defined.
